(** * Plausible Futures: session store, vote ledger and report compiler

    A shallow embedding of the Express route handlers
    ([backend/routes/sessions.js], [backend/routes/contributions.js],
    [backend/routes/votes.js]), of the SQL schema they run on
    ([backend/db.js]) and of the client-side report compiler
    ([downloadReport] in the React application), followed by the
    read-only routes, and by the client's voting, submission, leaderboard
    and storage keys.

    Conventions of the embedding.
    - A table is the list of its rows in insertion order; the constraints
      of the schema (PRIMARY KEY, UNIQUE, NOT NULL, FOREIGN KEY) are
      checked by the statements that write, as the engine does.
    - A handler is a function from the request and the store to the
      response and the store it leaves behind.  The handlers of
      [sessions.js] and [votes.js] run on sql.js ([db.js]).  Those of
      [contributions.js] import [db-postgres.js], whose wrapper hands the
      text of a statement to [pool.query] as it is written; they are
      asynchronous, and their result is the response they send or the
      error their promise is rejected with.
    - A count is a JavaScript number: sums and increments are rounded to
      the nearest integer with 53 significant bits.
    - Values the handlers draw from the environment ([uuidv4()],
      [Date.now()], [Math.random()], [new Date().toISOString()]) are
      explicit arguments.
    - Request fields are [option string]: [None] is an absent field
      ([undefined]); JavaScript truthiness makes the empty string count as
      absent too. *)

From Stdlib Require Import String Ascii List ZArith Lia Bool Arith.
From Stdlib Require Import DecimalString.
From Stdlib Require Import Permutation Sorted.
From Stdlib Require OrderedTypeEx.
Import ListNotations.
Open Scope string_scope.

(** ** JavaScript primitives used by the handlers *)

Module Js.

(** [!!v] for a value that is a string or [undefined]. *)
Definition truthy (v : option string) : bool :=
  match v with
  | Some s => negb (s =? EmptyString)
  | None => false
  end.

(** [v || d]. *)
Definition or_default (v : option string) (d : string) : string :=
  match v with
  | Some s => if s =? EmptyString then d else s
  | None => d
  end.

(** [s.includes(sub)]. *)
Definition includes (s sub : string) : bool :=
  match index 0 sub s with
  | Some _ => true
  | None => false
  end.

(** [validStates.includes(state)] on an array of strings. *)
Definition array_includes (l : list string) (s : string) : bool :=
  existsb (String.eqb s) l.

(** The double quote character of the template literals. *)
Definition dq : string := String (ascii_of_nat 34) EmptyString.

(** [`${n}`] for a non-negative integer. *)
Definition decimal (n : nat) : string :=
  NilEmpty.string_of_uint (Nat.to_uint n).

(** [array.sort(cmp)].  The language fixes the result for a consistent
    comparator: the elements in ascending order of [cmp], elements that
    compare equal staying in their original order (the sort is stable).
    Insertion from the right computes exactly that list. *)
Section Sort.
Context {A : Type} (cmp : A -> A -> Z).

Fixpoint insert_sorted (x : A) (l : list A) : list A :=
  match l with
  | [] => [x]
  | y :: l' =>
      if (cmp x y <=? 0)%Z then x :: l else y :: insert_sorted x l'
  end.

Definition sort (l : list A) : list A := fold_right insert_sorted [] l.
End Sort.

(** The comparator [(a, b) => key(b) - key(a)], and the order it
    sorts into. *)
Definition by_key_desc {A : Type} (key : A -> Z) (a b : A) : Z :=
  (key b - key a)%Z.

Definition key_ge {A : Type} (key : A -> Z) (a b : A) : Prop :=
  (key a >= key b)%Z.

(** *** Numbers

    A JavaScript number is an IEEE 754 binary64 value.  The counts of this
    program are integers; an integer is such a value when its magnitude
    has at most 53 significant bits and is below [2^1024]. *)

(** The integer with at most 53 significant bits nearest to [z]; of two
    that are equally near, the one whose 53-bit significand is even. *)
Definition round_even (z : Z) : Z :=
  let m := Z.abs z in
  if (m <? 2 ^ 53)%Z then z
  else
    let e := (Z.log2 m - 52)%Z in
    let q := (m / 2 ^ e)%Z in
    let r := (m mod 2 ^ e)%Z in
    let half := (2 ^ (e - 1))%Z in
    let q' :=
      if (r <? half)%Z then q
      else if (half <? r)%Z then (q + 1)%Z
      else if Z.even q then q else (q + 1)%Z in
    (Z.sgn z * (q' * 2 ^ e))%Z.

(** An integer number, an infinity, or [NaN]. *)
Inductive number :=
| Finite (z : Z)
| PlusInfinity
| MinusInfinity
| NotANumber.

(** The number an exact integer result is rounded to: a result that
    rounds to [2^1024] or beyond is an infinity. *)
Definition rounded (z : Z) : number :=
  let r := round_even z in
  if (2 ^ 1024 <=? r)%Z then PlusInfinity
  else if (r <=? - 2 ^ 1024)%Z then MinusInfinity
  else Finite r.

(** [a + b]. *)
Definition add (a b : number) : number :=
  match a, b with
  | NotANumber, _ | _, NotANumber => NotANumber
  | PlusInfinity, MinusInfinity | MinusInfinity, PlusInfinity => NotANumber
  | PlusInfinity, _ | _, PlusInfinity => PlusInfinity
  | MinusInfinity, _ | _, MinusInfinity => MinusInfinity
  | Finite x, Finite y => rounded (x + y)
  end.

(** [-a] and [a - b]. *)
Definition negate (a : number) : number :=
  match a with
  | Finite x => Finite (- x)
  | PlusInfinity => MinusInfinity
  | MinusInfinity => PlusInfinity
  | NotANumber => NotANumber
  end.

Definition subtract (a b : number) : number := add a (negate b).

(** What [array.sort] reads off the value its comparator returns:
    negative, zero or positive; [NaN] reads as zero. *)
Definition reading (v : number) : Z :=
  match v with
  | Finite z => Z.sgn z
  | PlusInfinity => 1%Z
  | MinusInfinity => (-1)%Z
  | NotANumber => 0%Z
  end.

(** The comparator [(a, b) => key(b) - key(a)] on numbers. *)
Definition by_number_desc {A : Type} (key : A -> number) (a b : A) : Z :=
  reading (subtract (key b) (key a)).

End Js.

(** ** The store: five tables and their constraints *)

Module Store.

Record session := mkSession {
  session_id : string;
  session_name : string;
  moderator_id : string;
  session_state : string;
  created_at : string
}.

Record topic := mkTopic {
  topic_id : string;
  t_session_id : string;
  t_domain : string;
  topic_name : string;
  sort_order : Z
}.

Record participant := mkParticipant {
  p_session_id : string;
  participant_id : string;
  display_name : string;
  p_email : string;
  p_status : string;
  joined_at : string;
  p_submitted_at : option string
}.

Record contribution := mkContribution {
  contribution_id : string;
  c_session_id : string;
  c_topic_id : string;
  c_participant_id : string;
  current_status : string;
  minor_impact : string;
  disruption : string;
  reimagination : string;
  submitted_at : string
}.

Record vote := mkVote {
  vote_id : string;
  v_contribution_id : string;
  voter_id : string;
  voted_at : string
}.

Record db := mkDb {
  sessions : list session;
  topics : list topic;
  session_participants : list participant;
  contributions : list contribution;
  votes : list vote
}.

Definition empty_db : db := mkDb [] [] [] [] [].

(** *** Errors raised by the engine *)

Inductive sql_error :=
| UniqueViolation (columns : string)
| NotNullViolation (column : string)
| ForeignKeyViolation
| SyntaxError.

(** The two engines behind [db.prepare]: sql.js ([db.js]) and
    node-postgres ([db-postgres.js]).  They differ, for the handlers, in
    the text of [error.message]. *)
Inductive engine := SqlJs | Postgres.

Definition error_message (e : engine) (err : sql_error) : string :=
  match e, err with
  | SqlJs, UniqueViolation cols => "UNIQUE constraint failed: " ++ cols
  | SqlJs, NotNullViolation col => "NOT NULL constraint failed: " ++ col
  | SqlJs, ForeignKeyViolation => "FOREIGN KEY constraint failed"
  | Postgres, UniqueViolation _ =>
      "duplicate key value violates unique constraint"
  | Postgres, NotNullViolation _ =>
      "null value violates not-null constraint"
  | Postgres, ForeignKeyViolation =>
      "insert or update on table violates foreign key constraint"
  | SqlJs, SyntaxError => "syntax error"
  | Postgres, SyntaxError => "syntax error at end of input"
  end.

(** A statement that writes either leaves a new store or raises. *)
Inductive outcome :=
| Done (d : db)
| Raised (err : sql_error).

(** *** Keys *)

Definition participant_key (p : participant) : string * string :=
  (p_session_id p, participant_id p).

Definition contribution_key (c : contribution) : string * string * string :=
  (c_session_id c, c_topic_id c, c_participant_id c).

Definition vote_key (v : vote) : string * string :=
  (v_contribution_id v, voter_id v).

Definition pair_eqb (a b : string * string) : bool :=
  (fst a =? fst b) && (snd a =? snd b).

Definition triple_eqb (a b : string * string * string) : bool :=
  pair_eqb (fst a) (fst b) && (snd a =? snd b).

(** No two elements of [l] are equal for [eqb]. *)
Fixpoint uniqueb {A : Type} (eqb : A -> A -> bool) (l : list A) : bool :=
  match l with
  | [] => true
  | x :: l' => negb (existsb (eqb x) l') && uniqueb eqb l'
  end.

(** *** Queries *)

(** [SELECT ... FROM sessions WHERE session_id = ?], first row. *)
Definition select_session (sid : string) (d : db) : option session :=
  find (fun s => session_id s =? sid) (sessions d).

(** [SELECT participant_id FROM session_participants
     WHERE session_id = ? AND participant_id = ?], first row. *)
Definition select_participant (sid pid : string) (d : db)
  : option participant :=
  find (fun p => pair_eqb (participant_key p) (sid, pid))
       (session_participants d).

(** [SELECT ... FROM contributions
     WHERE contribution_id = ? AND session_id = ?], first row. *)
Definition select_contribution (cid sid : string) (d : db)
  : option contribution :=
  find (fun c => (contribution_id c =? cid) && (c_session_id c =? sid))
       (contributions d).

(** [SELECT vote_id FROM votes
     WHERE contribution_id = ? AND voter_id = ?], first row. *)
Definition select_vote (cid voter : string) (d : db) : option vote :=
  find (fun v => pair_eqb (vote_key v) (cid, voter)) (votes d).

(** [SELECT COUNT( * ) FROM votes WHERE contribution_id = ?]. *)
Definition count_votes (cid : string) (d : db) : nat :=
  List.length (filter (fun v => v_contribution_id v =? cid) (votes d)).

(** The rows of a table that carry a given key. *)
Definition contributions_for (k : string * string * string) (d : db)
  : list contribution :=
  filter (fun c => triple_eqb (contribution_key c) k) (contributions d).

Definition votes_for (k : string * string) (d : db) : list vote :=
  filter (fun v => pair_eqb (vote_key v) k) (votes d).

Definition participants_for (k : string * string) (d : db)
  : list participant :=
  filter (fun p => pair_eqb (participant_key p) k) (session_participants d).

(** *** Statements that write *)

Definition set_sessions (d : db) (l : list session) : db :=
  mkDb l (topics d) (session_participants d) (contributions d) (votes d).
Definition set_topics (d : db) (l : list topic) : db :=
  mkDb (sessions d) l (session_participants d) (contributions d) (votes d).
Definition set_participants (d : db) (l : list participant) : db :=
  mkDb (sessions d) (topics d) l (contributions d) (votes d).
Definition set_contributions (d : db) (l : list contribution) : db :=
  mkDb (sessions d) (topics d) (session_participants d) l (votes d).
Definition set_votes (d : db) (l : list vote) : db :=
  mkDb (sessions d) (topics d) (session_participants d) (contributions d) l.

Definition session_exists (sid : string) (d : db) : bool :=
  existsb (fun s => session_id s =? sid) (sessions d).
Definition topic_exists (tid : string) (d : db) : bool :=
  existsb (fun t => topic_id t =? tid) (topics d).
Definition contribution_exists (cid : string) (d : db) : bool :=
  existsb (fun c => contribution_id c =? cid) (contributions d).

(** [INSERT INTO sessions (...) VALUES (...)]:
    [session_id TEXT PRIMARY KEY]. *)
Definition insert_session (s : session) (d : db) : outcome :=
  if session_exists (session_id s) d
  then Raised (UniqueViolation "sessions.session_id")
  else Done (set_sessions d (sessions d ++ [s])).

(** [INSERT INTO topics (...) VALUES (...)]: [topic_id TEXT PRIMARY KEY],
    [FOREIGN KEY (session_id) REFERENCES sessions]. *)
Definition insert_topic (t : topic) (d : db) : outcome :=
  if topic_exists (topic_id t) d
  then Raised (UniqueViolation "topics.topic_id")
  else if negb (session_exists (t_session_id t) d)
  then Raised ForeignKeyViolation
  else Done (set_topics d (topics d ++ [t])).

(** [INSERT INTO session_participants (...) VALUES (...)]:
    [PRIMARY KEY (session_id, participant_id)],
    [FOREIGN KEY (session_id) REFERENCES sessions]. *)
Definition insert_participant (p : participant) (d : db) : outcome :=
  if existsb (fun q => pair_eqb (participant_key q) (participant_key p))
             (session_participants d)
  then Raised (UniqueViolation
         "session_participants.session_id, session_participants.participant_id")
  else if negb (session_exists (p_session_id p) d)
  then Raised ForeignKeyViolation
  else Done (set_participants d (session_participants d ++ [p])).

(** [UPDATE sessions SET session_state = ? WHERE session_id = ?]. *)
Definition update_session_state (state sid : string) (d : db) : db :=
  set_sessions d
    (map (fun s =>
            if session_id s =? sid
            then mkSession (session_id s) (session_name s) (moderator_id s)
                           state (created_at s)
            else s)
         (sessions d)).

(** [UPDATE session_participants SET status = 'submitted', submitted_at = ?
     WHERE session_id = ? AND participant_id = ?]. *)
Definition updateParticipant (now sid pid : string) (d : db)
  : db :=
  set_participants d
    (map (fun p =>
            if pair_eqb (participant_key p) (sid, pid)
            then mkParticipant (p_session_id p) (participant_id p)
                               (display_name p) (p_email p)
                               "submitted" (joined_at p) (Some now)
            else p)
         (session_participants d)).

(** [INSERT INTO votes (...) VALUES (...)]: [vote_id TEXT PRIMARY KEY],
    [UNIQUE(contribution_id, voter_id)],
    [FOREIGN KEY (contribution_id) REFERENCES contributions]. *)
Definition insert_vote (v : vote) (d : db) : outcome :=
  if existsb (fun w => vote_id w =? vote_id v) (votes d)
  then Raised (UniqueViolation "votes.vote_id")
  else if existsb (fun w => pair_eqb (vote_key w) (vote_key v)) (votes d)
  then Raised (UniqueViolation "votes.contribution_id, votes.voter_id")
  else if negb (contribution_exists (v_contribution_id v) d)
  then Raised ForeignKeyViolation
  else Done (set_votes d (votes d ++ [v])).

(** The row of an upsert: [topic_id] is bound to [submission.rowId],
    which the request may leave out. *)
Record contribution_values := mkValues {
  x_contribution_id : string;
  x_session_id : string;
  x_topic_id : option string;
  x_participant_id : string;
  x_current_status : string;
  x_minor_impact : string;
  x_disruption : string;
  x_reimagination : string;
  x_submitted_at : string
}.

(** The [DO UPDATE SET] clause: the key columns stay, the rest comes from
    the excluded row. *)
Definition overwrite (c : contribution) (x : contribution_values)
  : contribution :=
  mkContribution (x_contribution_id x) (c_session_id c) (c_topic_id c)
                 (c_participant_id c) (x_current_status x)
                 (x_minor_impact x) (x_disruption x) (x_reimagination x)
                 (x_submitted_at x).

(** The row of a plain insert. *)
Definition new_row (x : contribution_values) (tid : string) : contribution :=
  mkContribution (x_contribution_id x) (x_session_id x) tid
                 (x_participant_id x) (x_current_status x)
                 (x_minor_impact x) (x_disruption x) (x_reimagination x)
                 (x_submitted_at x).

(** The rows in conflict with a key of the [ON CONFLICT] target, and
    what [DO UPDATE] makes of the table. *)
Definition conflicts (k : string * string * string) (c : contribution)
  : bool :=
  triple_eqb (contribution_key c) k.

Definition do_update (k : string * string * string)
    (x : contribution_values) (c : contribution) : contribution :=
  if conflicts k c then overwrite c x else c.

(** Some vote refers to the contribution id. *)
Definition vote_refers (cid : string) (d : db) : bool :=
  existsb (fun v => v_contribution_id v =? cid) (votes d).

Definition referenced (c : contribution) (d : db) : bool :=
  vote_refers (contribution_id c) d.

(** [INSERT INTO contributions (...) VALUES (...)
     ON CONFLICT (session_id, topic_id, participant_id) DO UPDATE SET
       contribution_id = EXCLUDED.contribution_id, ...].
    [topic_id TEXT NOT NULL]; [contribution_id TEXT PRIMARY KEY]: the new
    id must not be the id of another row; the foreign keys to [sessions]
    and [topics]; and [votes.contribution_id REFERENCES contributions]
    with no [ON UPDATE] action, so the id of a row that votes refer to
    cannot change. *)
Definition insertContribution (x : contribution_values) (d : db)
  : outcome :=
  match x_topic_id x with
  | None => Raised (NotNullViolation "contributions.topic_id")
  | Some tid =>
      let k := (x_session_id x, tid, x_participant_id x) in
      if existsb (fun c => (contribution_id c =? x_contribution_id x)
                           && negb (conflicts k c)) (contributions d)
      then Raised (UniqueViolation "contributions.contribution_id")
      else if negb (session_exists (x_session_id x) d)
              || negb (topic_exists tid d)
      then Raised ForeignKeyViolation
      else if existsb (conflicts k) (contributions d)
      then
        if existsb (fun c => conflicts k c
                      && negb (contribution_id c =? x_contribution_id x)
                      && referenced c d)
                   (contributions d)
        then Raised ForeignKeyViolation
        else Done (set_contributions d
                     (map (do_update k x) (contributions d)))
      else Done (set_contributions d (contributions d ++ [new_row x tid]))
  end.

(** [DELETE FROM votes WHERE contribution_id IN
     (SELECT contribution_id FROM contributions WHERE session_id = ?)]. *)
Definition delete_votes_of_session (sid : string) (d : db) : db :=
  set_votes d
    (filter (fun v => negb (existsb
               (fun c => (contribution_id c =? v_contribution_id v)
                         && (c_session_id c =? sid))
               (contributions d)))
            (votes d)).

(** A [DELETE] on [contributions]: the votes that refer to a deleted row
    go with it ([ON DELETE CASCADE]). *)
Definition delete_contributions_where (gone : contribution -> bool) (d : db)
  : db :=
  let deleted := filter gone (contributions d) in
  mkDb (sessions d) (topics d) (session_participants d)
       (filter (fun c => negb (gone c)) (contributions d))
       (filter (fun v => negb (existsb
                  (fun c => contribution_id c =? v_contribution_id v)
                  deleted))
               (votes d)).

(** A [DELETE] on [topics]: the contributions of a deleted topic go with
    it. *)
Definition delete_topics_where (gone : topic -> bool) (d : db) : db :=
  let deleted := filter gone (topics d) in
  delete_contributions_where
    (fun c => existsb (fun t => topic_id t =? c_topic_id c) deleted)
    (set_topics d (filter (fun t => negb (gone t)) (topics d))).

(** [DELETE FROM session_participants WHERE session_id = ?]. *)
Definition delete_participants_of_session (sid : string) (d : db) : db :=
  set_participants d
    (filter (fun p => negb (p_session_id p =? sid)) (session_participants d)).

(** [DELETE FROM sessions WHERE session_id = ?]: the topics, participants
    and contributions of the session go with it. *)
Definition delete_session_row (sid : string) (d : db) : db :=
  let d1 := delete_topics_where (fun t => t_session_id t =? sid) d in
  let d2 := delete_participants_of_session sid d1 in
  let d3 := delete_contributions_where (fun c => c_session_id c =? sid) d2 in
  set_sessions d3 (filter (fun s => negb (session_id s =? sid)) (sessions d3)).

(** The five statements of [DELETE /sessions/:sessionId], in their
    order. *)
Definition delete_session_rows (sid : string) (d : db) : db :=
  let d1 := delete_votes_of_session sid d in
  let d2 := delete_contributions_where (fun c => c_session_id c =? sid) d1 in
  let d3 := delete_participants_of_session sid d2 in
  let d4 := delete_topics_where (fun t => t_session_id t =? sid) d3 in
  delete_session_row sid d4.

(** *** The statements as a machine

    Every write of a handler is one of these statements, run on its own;
    a statement that raises leaves the store as it was. *)
Inductive statement :=
| InsertSession (s : session)
| InsertTopic (t : topic)
| InsertParticipant (p : participant)
| UpdateSessionState (state sid : string)
| UpdateParticipantSubmitted (now sid pid : string)
| UpsertContribution (x : contribution_values)
| InsertVote (v : vote)
| DeleteVotesOfSession (sid : string)
| DeleteContributionsOfSession (sid : string)
| DeleteParticipantsOfSession (sid : string)
| DeleteTopicsOfSession (sid : string)
| DeleteSessionRow (sid : string).

Definition settle (o : outcome) (d : db) : db :=
  match o with
  | Done d' => d'
  | Raised _ => d
  end.

Definition exec (q : statement) (d : db) : db :=
  match q with
  | InsertSession s => settle (insert_session s d) d
  | InsertTopic t => settle (insert_topic t d) d
  | InsertParticipant p => settle (insert_participant p d) d
  | UpdateSessionState st sid => update_session_state st sid d
  | UpdateParticipantSubmitted now sid pid =>
      updateParticipant now sid pid d
  | UpsertContribution x => settle (insertContribution x d) d
  | InsertVote v => settle (insert_vote v d) d
  | DeleteVotesOfSession sid => delete_votes_of_session sid d
  | DeleteContributionsOfSession sid =>
      delete_contributions_where (fun c => c_session_id c =? sid) d
  | DeleteParticipantsOfSession sid => delete_participants_of_session sid d
  | DeleteTopicsOfSession sid =>
      delete_topics_where (fun t => t_session_id t =? sid) d
  | DeleteSessionRow sid => delete_session_row sid d
  end.

(** The store after the statements [qs], in whatever order the handlers
    that issue them are interleaved. *)
Definition exec_all (qs : list statement) (d : db) : db :=
  fold_left (fun d q => exec q d) qs d.

(** *** The constraints as a property of a store *)

Definition sessions_unique (d : db) : bool :=
  uniqueb String.eqb (map session_id (sessions d)).
Definition participants_unique (d : db) : bool :=
  uniqueb pair_eqb (map participant_key (session_participants d)).
Definition contribution_ids_unique (d : db) : bool :=
  uniqueb String.eqb (map contribution_id (contributions d)).
Definition contributions_unique (d : db) : bool :=
  uniqueb triple_eqb (map contribution_key (contributions d)).
Definition vote_ids_unique (d : db) : bool :=
  uniqueb String.eqb (map vote_id (votes d)).
Definition votes_unique (d : db) : bool :=
  uniqueb pair_eqb (map vote_key (votes d)).

Definition db_ok (d : db) : bool :=
  sessions_unique d && participants_unique d
  && contribution_ids_unique d && contributions_unique d
  && vote_ids_unique d && votes_unique d.

End Store.

(** ** HTTP responses *)

Module Http.

(** One entry of a topic's [history] in the contribution listing. *)
Record history_entry := mkHistoryEntry {
  he_id : string;
  he_participantId : string;
  he_author : string;
  he_email : string;
  he_currentStatus : string;
  he_minorImpact : string;
  he_disruption : string;
  he_reimagination : string;
  he_votes : nat;
  he_voters : list string;
  he_submittedAt : string
}.

(** One value of [topicsMap]. *)
Record topic_group := mkTopicGroup {
  tg_id : string;
  tg_topic : string;
  tg_domain : string;
  tg_history : list history_entry
}.

(** The part of a JSON body that depends on the route. *)
Inductive payload :=
| NoData
| SessionData (sessionId name moderatorId state createdAt : string)
| TopicData (topicId sessionId domain topicName : string) (sortOrder : Z)
| ParticipantData (sessionId participantId displayName email status
                   joinedAt : string)
| StateData (sessionId state : string)
| AlreadyJoinedData (sessionId sessionName sessionState participantId
                     displayName status : string)
| JoinedData (sessionId sessionName sessionState participantId displayName
              email status joinedAt : string)
| SavedData (contributionsCount : nat)
| VoteData (contributionId : string) (newVoteCount : nat)
| VoteCountData (contributionId : string) (voteCount : nat)
| ListingData (sessionId sessionState : string)
              (contributions : list topic_group).

Record response := mkResponse {
  status : nat;
  success : bool;
  error : option string;
  message : option string;
  details : option string;
  data : payload
}.

(** [res.status(code).json({ success: false, error })]. *)
Definition failure (code : nat) (err : string) : response :=
  mkResponse code false (Some err) None None NoData.

(** [res.status(code).json({ success: true, data })]. *)
Definition ok (code : nat) (msg : option string) (p : payload) : response :=
  mkResponse code true None msg None p.

(** What a handler leaves behind: the response it sent, or, for an
    [async] handler whose awaited call outside every [try] was rejected,
    the rejection of its own promise, with no response sent. *)
Inductive result :=
| Answer (r : response)
| Rejection (err : Store.sql_error).

End Http.

(** ** [backend/db-postgres.js] *)

Module Pg.
Import Store.

(** The parameter markers in the text of a statement.  sql.js reads [?];
    PostgreSQL numbers the parameters of a statement [$1], [$2], ... and
    does not read [?] as one. *)
Inductive markers := QuestionMarks | Numbered.

(** [prepare(sql).get(...params)] and [.all(...params)], that is
    [pool.query(sql, params)]: the wrapper hands the text to the server as
    it is.  A text written with [?] is refused by the parser of
    PostgreSQL, and nothing of it is run. *)
Definition query {A : Type} (m : markers) (statement : db -> A) (d : db)
  : A + sql_error :=
  match m with
  | Numbered => inl (statement d)
  | QuestionMarks => inr SyntaxError
  end.

(** [prepare(sql).run(...params)], for a statement that writes. *)
Definition run (m : markers) (statement : db -> outcome) (d : db)
  : outcome :=
  match m with
  | Numbered => statement d
  | QuestionMarks => Raised SyntaxError
  end.

End Pg.

(** ** [backend/routes/sessions.js] *)

Module Sessions.
Import Js Store Http.

(** The [catch] block of every handler of this file. *)
Definition failed (what : string) (err : sql_error) : response :=
  mkResponse 500 false (Some what) (Some (error_message SqlJs err)) None
             NoData.

(** [POST /api/sessions]. *)
Definition post_sessions (sessionId now : string)
    (name moderatorId moderatorName moderatorEmail : option string)
    (d : db) : response * db :=
  if negb (truthy name) || negb (truthy moderatorId) then
    (failure 400 "Missing required fields: name, moderatorId", d)
  else
    let name' := or_default name EmptyString in
    let mod' := or_default moderatorId EmptyString in
    match insert_session (mkSession sessionId name' mod' "setup" now) d with
    | Raised err => (failed "Failed to create session" err, d)
    | Done d1 =>
        match insert_participant
                (mkParticipant sessionId mod'
                   (or_default moderatorName "Moderator")
                   (or_default moderatorEmail mod') "joined" now None) d1
        with
        | Raised err => (failed "Failed to create session" err, d1)
        | Done d2 =>
            (ok 201 None (SessionData sessionId name' mod' "setup" now), d2)
        end
    end.

(** [sortOrder || 0]. *)
Definition sort_order_or_0 (sortOrder : option Z) : Z :=
  match sortOrder with
  | Some z => z
  | None => 0%Z
  end.

(** [POST /api/sessions/:sessionId/topics]. *)
Definition post_topics (topicId sessionId : string)
    (domain topicName : option string) (sortOrder : option Z)
    (d : db) : response * db :=
  if negb (truthy domain) || negb (truthy topicName) then
    (failure 400 "Missing required fields: domain, topicName", d)
  else
    match select_session sessionId d with
    | None => (failure 404 "Session not found", d)
    | Some _ =>
        let dom := or_default domain EmptyString in
        let nm := or_default topicName EmptyString in
        let so := sort_order_or_0 sortOrder in
        match insert_topic (mkTopic topicId sessionId dom nm so) d with
        | Raised err => (failed "Failed to add topic" err, d)
        | Done d1 =>
            (ok 201 None (TopicData topicId sessionId dom nm so), d1)
        end
    end.

(** [POST /api/sessions/:sessionId/participants]. *)
Definition post_participants (now sessionId : string)
    (participantId displayName email : option string)
    (d : db) : response * db :=
  if negb (truthy participantId) then
    (failure 400 "Missing required field: participantId", d)
  else
    let pid := or_default participantId EmptyString in
    match select_session sessionId d with
    | None => (failure 404 "Session not found", d)
    | Some _ =>
        match select_participant sessionId pid d with
        | Some _ => (failure 409 "Participant already in session", d)
        | None =>
            let dn := or_default displayName pid in
            let em := or_default email pid in
            match insert_participant
                    (mkParticipant sessionId pid dn em "joined" now None) d
            with
            | Raised err => (failed "Failed to add participant" err, d)
            | Done d1 =>
                (ok 201 None
                    (ParticipantData sessionId pid dn em "joined" now), d1)
            end
        end
    end.

Definition validStates : list string :=
  ["setup"; "published"; "contributing"; "voting"; "voting_locked";
   "final"].

(** [PATCH /api/sessions/:sessionId/state].  The handler reads
    [req.params.sessionId] and [req.body.state] and nothing else of the
    request. *)
Definition patch_state (sessionId : string) (state : option string)
    (d : db) : response * db :=
  if negb (truthy state)
     || negb (array_includes validStates (or_default state EmptyString))
  then
    (failure 400 ("Invalid state. Must be one of: "
                  ++ String.concat ", " validStates), d)
  else
    let st := or_default state EmptyString in
    match select_session sessionId d with
    | None => (failure 404 "Session not found", d)
    | Some _ =>
        (ok 200 None (StateData sessionId st),
         update_session_state st sessionId d)
    end.

(** [POST /api/sessions/:sessionId/join]. *)
Definition post_join (now sessionId : string)
    (participantId displayName email : option string)
    (d : db) : response * db :=
  if negb (truthy participantId) then
    (failure 400 "Missing required field: participantId", d)
  else
    let pid := or_default participantId EmptyString in
    match select_session sessionId d with
    | None => (failure 404 "Session not found", d)
    | Some session =>
        if session_state session =? "final" then
          (failure 403 "Cannot join session. Session is finalized.", d)
        else
          match select_participant sessionId pid d with
          | Some _ =>
              (ok 200 (Some "Already joined session")
                  (AlreadyJoinedData sessionId (session_name session)
                     (session_state session) pid
                     (or_default displayName pid) "joined"), d)
          | None =>
              let dn := or_default displayName pid in
              let em := or_default email pid in
              match insert_participant
                      (mkParticipant sessionId pid dn em "joined" now None)
                      d
              with
              | Raised err => (failed "Failed to join session" err, d)
              | Done d1 =>
                  (ok 201 (Some "Successfully joined session")
                      (JoinedData sessionId (session_name session)
                         (session_state session) pid dn em "joined" now),
                   d1)
              end
          end
    end.

(** [DELETE /api/sessions/:sessionId]. *)
Definition delete_session (sessionId : string) (d : db) : response * db :=
  match select_session sessionId d with
  | None => (failure 404 "Session not found", d)
  | Some _ =>
      (ok 200 (Some "Session deleted successfully") NoData,
       delete_session_rows sessionId d)
  end.

End Sessions.

(** ** [backend/routes/contributions.js] *)

Module Contributions.
Import Js Store Http.

(** One element of [req.body.submissions]. *)
Record submission := mkSubmission {
  rowId : option string;
  currentStatus : option string;
  minorImpact : option string;
  s_disruption : option string;
  s_reimagination : option string;
  submittedAt : option string
}.

(** The values bound to [insertContribution.run] for the [i]-th element:
    [ids i] is the [contributionId] generated in that iteration and
    [clock i] what [new Date().toISOString()] gives there. *)
Definition bind_values (ids clock : nat -> string) (i : nat)
    (sessionId participantId : string) (s : submission)
  : contribution_values :=
  mkValues (ids i) sessionId (rowId s) participantId
           (or_default (currentStatus s) EmptyString)
           (or_default (minorImpact s) EmptyString)
           (or_default (s_disruption s) EmptyString)
           (or_default (s_reimagination s) EmptyString)
           (or_default (submittedAt s) (clock i)).

(** The [for (const submission of submissions)] loop.  Every
    [insertContribution.run] is a statement of its own on the pool (the
    handler opens no transaction); its text is written with [?].  The
    result is the store when the loop stops, the error if one was raised,
    and [savedCount]. *)
Fixpoint save_loop (ids clock : nat -> string) (i : nat)
    (sessionId participantId : string) (subs : list submission)
    (savedCount : nat) (d : db) : db * option sql_error * nat :=
  match subs with
  | [] => (d, None, savedCount)
  | s :: rest =>
      match Pg.run Pg.QuestionMarks
              (insertContribution
                 (bind_values ids clock i sessionId participantId s)) d with
      | Raised err => (d, Some err, savedCount)
      | Done d1 =>
          save_loop ids clock (S i) sessionId participantId rest
                    (S savedCount) d1
      end
  end.

Definition state_error (st : string) : string :=
  "Cannot submit contributions. Session is in " ++ dq ++ st ++ dq
  ++ " state. Must be " ++ dq ++ "published" ++ dq ++ " or " ++ dq
  ++ "contributing" ++ dq ++ ".".

Definition saved_message (n : nat) : string :=
  "Successfully saved " ++ decimal n ++ " contribution(s)".

(** [Array.isArray(submissions)]: the field is [None] when it is absent
    or not an array. *)
Definition is_array (submissions : option (list submission)) : bool :=
  match submissions with
  | Some _ => true
  | None => false
  end.

Definition elements (submissions : option (list submission))
  : list submission :=
  match submissions with
  | Some l => l
  | None => []
  end.

(** The [catch] block of the handler. *)
Definition save_failed (err : sql_error) : response :=
  if includes (error_message Postgres err) "UNIQUE constraint failed" then
    failure 409 "Contributions already submitted for one or more topics"
  else
    mkResponse 500 false (Some "Failed to save contributions") None
      (Some (error_message Postgres err)) NoData.

(** [POST /api/sessions/:sessionId/contributions].  The file imports
    [db-postgres.js]; every statement of the handler is written with [?].
    The [SELECT] of the session is awaited before the [try]: when it is
    rejected, so is the handler, and no response is sent.  [d] is the
    database behind the pool. *)
Definition post_contributions (ids clock : nat -> string)
    (sessionId : string) (participantId : option string)
    (submissions : option (list submission)) (d : db) : result * db :=
  if negb (truthy participantId) || negb (is_array submissions) then
    (Answer
       (failure 400 "Missing required fields: participantId, submissions"),
     d)
  else if Nat.eqb (List.length (elements submissions)) 0 then
    (Answer (failure 400 "No submissions provided"), d)
  else
    let pid := or_default participantId EmptyString in
    let subs := elements submissions in
    match Pg.query Pg.QuestionMarks (select_session sessionId) d with
    | inr err => (Rejection err, d)
    | inl None => (Answer (failure 404 "Session not found"), d)
    | inl (Some session) =>
        if negb (session_state session =? "published")
           && negb (session_state session =? "contributing") then
          (Answer (failure 400 (state_error (session_state session))), d)
        else
          match save_loop ids clock 0 sessionId pid subs 0 d with
          | (d1, Some err, _) => (Answer (save_failed err), d1)
          | (d1, None, savedCount) =>
              match Pg.run Pg.QuestionMarks
                      (fun d0 =>
                         Done (updateParticipant
                                 (clock (List.length subs)) sessionId pid
                                 d0))
                      d1 with
              | Raised err => (Answer (save_failed err), d1)
              | Done d2 =>
                  (Answer
                     (mkResponse 200 true None
                        (Some (saved_message savedCount)) None
                        (SavedData savedCount)),
                   d2)
              end
          end
    end.












End Contributions.

(** ** [backend/routes/votes.js] *)

Module Votes.
Import Js Store Http.

Definition state_error (st : string) : string :=
  "Voting is not enabled. Session is in " ++ dq ++ st ++ dq ++ " state.".

Definition already_voted : response :=
  failure 409 "You have already voted on this contribution".

(** The reads of the handler, up to the duplicate check: the response
    of the first check that fails, if one does. *)
Definition vote_checks (sessionId : string)
    (contributionId voterId : option string) (d : db) : option response :=
  if negb (truthy contributionId) || negb (truthy voterId) then
    Some (failure 400 "Missing required fields: contributionId, voterId")
  else
    let cid := or_default contributionId EmptyString in
    let voter := or_default voterId EmptyString in
    match select_session sessionId d with
    | None => Some (failure 404 "Session not found")
    | Some session =>
        if negb (session_state session =? "voting") then
          Some (failure 400 (state_error (session_state session)))
        else
          match select_contribution cid sessionId d with
          | None => Some (failure 404 "Contribution not found")
          | Some contribution =>
              if c_participant_id contribution =? voter then
                Some (failure 403 "Cannot vote on your own contribution")
              else
                match select_vote cid voter d with
                | Some _ => Some already_voted
                | None => None
                end
          end
    end.

(** The [try] block: the insert, the live count, and the [catch] that
    turns a uniqueness violation into the 409 answer. *)
Definition vote_write (voteId now cid voter : string) (d : db)
  : response * db :=
  match insert_vote (mkVote voteId cid voter now) d with
  | Done d1 =>
      (mkResponse 200 true None (Some "Vote recorded successfully") None
         (VoteData cid (count_votes cid d1)), d1)
  | Raised err =>
      if includes (error_message SqlJs err) "UNIQUE constraint failed" then
        (already_voted, d)
      else
        (mkResponse 500 false (Some "Failed to record vote") None
           (Some (error_message SqlJs err)) NoData, d)
  end.

(** [POST /api/sessions/:sessionId/votes]. *)
Definition post_votes (voteId now sessionId : string)
    (contributionId voterId : option string) (d : db) : response * db :=
  match vote_checks sessionId contributionId voterId d with
  | Some r => (r, d)
  | None =>
      vote_write voteId now (or_default contributionId EmptyString)
                 (or_default voterId EmptyString) d
  end.

(** [GET /api/sessions/:sessionId/contributions/:contributionId/votes]. *)
Definition get_votes (contributionId : string) (d : db) : response :=
  mkResponse 200 true None None None
    (VoteCountData contributionId (count_votes contributionId d)).

End Votes.

(** ** The client application ([App]) *)

Module App.
Import Js.

(** An element of [row.history]. *)
Record entry := mkEntry {
  e_id : string;
  e_author : string;
  e_participantId : string;
  e_email : string;
  e_votes : option Z;
  e_voters : list string;
  e_submittedAt : string;
  e_currentStatus : option string;
  e_minorImpact : option string;
  e_disruption : option string;
  e_reimagination : option string
}.

Record row := mkRow {
  row_id : string;
  row_domain : string;
  row_topic : string;
  row_locked : bool;
  row_history : list entry
}.

Record person := mkPerson {
  participantId : string;
  displayName : string;
  email : string;
  joinedAt : string
}.

Record client_session := mkClientSession {
  cs_id : string;
  cs_name : string;
  cs_createdAt : string;
  cs_moderator : option person;
  cs_participants : list person
}.

(** What [localStorage] holds under the session's metadata key. *)
Record session_meta := mkMeta {
  sm_sessionState : string;
  sm_rows : option (list row);
  sm_participants : option (list person)
}.

(** The state the moderator operations read and write. *)
Record client := mkClient {
  currentSession : option client_session;
  user : option person;
  sessionState : string;
  stored_meta : option session_meta;
  message : string
}.

Definition setMessage (m : string) (c : client) : client :=
  mkClient (currentSession c) (user c) (sessionState c) (stored_meta c) m.

(** [currentSession.moderator?.participantId === user.participantId]. *)
Definition isModerator (s : client_session) (u : person) : bool :=
  match cs_moderator s with
  | Some m => participantId m =? participantId u
  | None => false
  end.

(** [getDraftKey]: [null] without a session id or a user id. *)
Definition getDraftKey (sessionId userId : string) : option string :=
  if (sessionId =? EmptyString) || (userId =? EmptyString) then None
  else Some ("ideation-draft-" ++ sessionId ++ "-" ++ userId).

(** [getSessionMetaKey]: [null] without a session id. *)
Definition getSessionMetaKey (sessionId : string) : option string :=
  if sessionId =? EmptyString then None
  else Some ("ideation-session-meta-" ++ sessionId).

(** [updateSessionState]: nothing happens without a session, without a
    metadata key or without stored metadata. *)
Definition updateSessionState (newState : string) (c : client) : client :=
  match currentSession c with
  | None => c
  | Some s =>
      match getSessionMetaKey (cs_id s) with
      | None => c
      | Some _ =>
          match stored_meta c with
          | Some meta =>
              mkClient (currentSession c) (user c) newState
                (Some (mkMeta newState (sm_rows meta) (sm_participants meta)))
                (message c)
          | None => c
          end
      end
  end.

(** The three operations share their shape: the session and user must be
    there, the user must be the moderator, the state must be the one the
    operation starts from. *)
Definition enableVoting (c : client) : client :=
  match currentSession c, user c with
  | Some s, Some u =>
      if negb (isModerator s u) then
        setMessage "Only the moderator can enable voting." c
      else if negb (sessionState c =? "published")
              && negb (sessionState c =? "contributing") then
        setMessage
          "Voting can only be enabled after contributions are submitted." c
      else
        setMessage
          "Voting enabled! Participants will be able to view contributions and vote."
          (updateSessionState "voting" c)
  | _, _ => setMessage "Session or user not found." c
  end.

Definition lockVotes (c : client) : client :=
  match currentSession c, user c with
  | Some s, Some u =>
      if negb (isModerator s u) then
        setMessage "Only the moderator can lock votes." c
      else if negb (sessionState c =? "voting") then
        setMessage "Votes can only be locked when voting is active." c
      else
        setMessage "Votes locked! No more voting allowed."
                   (updateSessionState "voting_locked" c)
  | _, _ => setMessage "Session or user not found." c
  end.

Definition publishFinalView (c : client) : client :=
  match currentSession c, user c with
  | Some s, Some u =>
      if negb (isModerator s u) then
        setMessage "Only the moderator can publish the final view." c
      else if negb (sessionState c =? "voting_locked") then
        setMessage
          "Final view can only be published after votes are locked." c
      else
        setMessage
          "Final view published! All participants can now view results and download the report."
          (updateSessionState "final" c)
  | _, _ => setMessage "Session or user not found." c
  end.

(** *** The report *)

Record report_contribution := mkReportContribution {
  author : string;
  authorEmail : string;
  rc_currentStatus : string;
  rc_minorImpact : string;
  rc_disruption : string;
  rc_reimagination : string;
  votes : Z;
  rc_submittedAt : string
}.

Record report_topic := mkReportTopic {
  domain : string;
  topic : string;
  totalVotes : number;
  contributions : list report_contribution
}.

Record report_person := mkReportPerson {
  rp_displayName : string;
  rp_email : string;
  rp_joinedAt : string
}.

Record report := mkReport {
  r_id : string;
  r_name : string;
  r_createdAt : string;
  r_moderator_displayName : string;
  r_moderator_email : string;
  r_participants : list report_person;
  generatedAt : string;
  r_topics : list report_topic
}.

(** [entry.votes || 0]. *)
Definition votes_or_0 (v : option Z) : Z :=
  match v with
  | Some z => z
  | None => 0%Z
  end.

(** The object built by [row.history.map((entry) => ({ ... }))]. *)
Definition contribution_of (e : entry) : report_contribution :=
  mkReportContribution (e_author e) (e_email e)
    (or_default (e_currentStatus e) EmptyString)
    (or_default (e_minorImpact e) EmptyString)
    (or_default (e_disruption e) EmptyString)
    (or_default (e_reimagination e) EmptyString)
    (votes_or_0 (e_votes e)) (e_submittedAt e).

(** [contributions.reduce((sum, c) => sum + c.votes, 0)]. *)
Definition sum_votes (l : list report_contribution) : number :=
  fold_left (fun sum c => add sum (Finite (votes c))) l (Finite 0).

(** The body of [allRows.map((row) => { ... })]. *)
Definition topic_of (r : row) : report_topic :=
  let contributions := map contribution_of (row_history r) in
  let totalVotes := sum_votes contributions in
  mkReportTopic (row_domain r) (row_topic r) totalVotes
    (sort (by_key_desc votes) contributions).

(** The [topics] field of the payload. *)
Definition report_topics (allRows : list row) : list report_topic :=
  sort (by_number_desc totalVotes) (map topic_of allRows).

Inductive download :=
| NoActiveSession
| Thrown
| Downloaded (payload : report).

(** [downloadReport]: the rows and participants of the metadata stored
    under the session's key win over those of the component state; reading
    [currentSession.moderator.displayName] throws when the session has no
    moderator. *)
Definition downloadReport (c : client) (rows : list row) (now : string)
  : download :=
  match currentSession c with
  | None => NoActiveSession
  | Some s =>
      let metaSaved :=
        match getSessionMetaKey (cs_id s) with
        | Some _ => stored_meta c
        | None => None
        end in
      let allRows :=
        match metaSaved with
        | Some meta =>
            match sm_rows meta with Some l => l | None => rows end
        | None => rows
        end in
      let participants :=
        match metaSaved with
        | Some meta =>
            match sm_participants meta with
            | Some l => l
            | None => cs_participants s
            end
        | None => cs_participants s
        end in
      match cs_moderator s with
      | None => Thrown
      | Some m =>
          Downloaded
            (mkReport (cs_id s) (cs_name s) (cs_createdAt s)
               (displayName m) (email m)
               (map (fun p => mkReportPerson (displayName p) (email p)
                                             (joinedAt p))
                    participants)
               now (report_topics allRows))
      end
  end.

End App.

(** ** The API as a state machine *)

Module Api.
Import Store Http.

Inductive request :=
| CreateSession (sessionId now : string)
    (name moderatorId moderatorName moderatorEmail : option string)
| AddTopic (topicId sessionId : string) (domain topicName : option string)
    (sortOrder : option Z)
| AddParticipant (now sessionId : string)
    (participantId displayName email : option string)
| SetState (sessionId : string) (state : option string)
| Join (now sessionId : string)
    (participantId displayName email : option string)
| DeleteSession (sessionId : string)
| SubmitAll (ids clock : nat -> string) (sessionId : string)
    (participantId : option string)
    (submissions : option (list Contributions.submission))
| CastVote (voteId now sessionId : string)
    (contributionId voterId : option string).

(** The handlers of [sessions.js] and [votes.js] are synchronous and
    send a response on every path. *)
Definition sent (x : response * db) : result * db := (Answer (fst x), snd x).

Definition handle (r : request) (d : db) : result * db :=
  match r with
  | CreateSession sid now n m mn me =>
      sent (Sessions.post_sessions sid now n m mn me d)
  | AddTopic tid sid dom nm so =>
      sent (Sessions.post_topics tid sid dom nm so d)
  | AddParticipant now sid p dn em =>
      sent (Sessions.post_participants now sid p dn em d)
  | SetState sid st => sent (Sessions.patch_state sid st d)
  | Join now sid p dn em => sent (Sessions.post_join now sid p dn em d)
  | DeleteSession sid => sent (Sessions.delete_session sid d)
  | SubmitAll ids clock sid p subs =>
      Contributions.post_contributions ids clock sid p subs d
  | CastVote vid now sid c v => sent (Votes.post_votes vid now sid c v d)
  end.

(** The store after a sequence of requests. *)
Definition run (rs : list request) (d : db) : db :=
  fold_left (fun d r => snd (handle r d)) rs d.

End Api.

(** ** The error kinds of the specification, as the answers of the code *)

Module Errors.
Import Http.

Definition SessionNotFound : response := failure 404 "Session not found".
Definition VotingNotEnabled (state : string) : response :=
  failure 400 (Votes.state_error state).
Definition ContributionNotFound : response :=
  failure 404 "Contribution not found".
Definition SelfVoteForbidden : response :=
  failure 403 "Cannot vote on your own contribution".
Definition DuplicateVote : response := Votes.already_voted.
Definition InvalidSessionState (state : string) : response :=
  failure 400 (Contributions.state_error state).
Definition SessionFinalized : response :=
  failure 403 "Cannot join session. Session is finalized.".
Definition UnknownState : response :=
  failure 400 ("Invalid state. Must be one of: "
               ++ String.concat ", " Sessions.validStates).

(** The status the HTTP layer gives to [NotAuthorized]. *)
Definition forbidden : nat := 403.

End Errors.

(** ** The statements of the specification that the code is compared with *)

Module Spec.
Import Store Http.

(** [setState] as a caller invokes it.  Who calls is no input of the
    handler: the request carries the session id and the label only. *)
Definition setState (caller sessionId : string) (state : option string)
    (d : db) : response * db :=
  Sessions.patch_state sessionId state d.

(** The moderator-only gate in the words of the specification: an
    operation invoked by anyone but the moderator of the session answers
    [NotAuthorized] and leaves the store as it was. *)
Definition moderator_gate
    (op : string -> string -> option string -> db -> response * db)
  : Prop :=
  forall caller sessionId state d s,
    select_session sessionId d = Some s ->
    caller <> moderator_id s ->
    status (fst (op caller sessionId state d)) = Errors.forbidden
    /\ snd (op caller sessionId state d) = d.

(** The order the specification asks of the contributions of a topic:
    more votes first, and among equal votes the earlier submission
    timestamp first. *)
Definition votes_then_timestamp (a b : App.report_contribution) : Prop :=
  (App.votes a > App.votes b)%Z
  \/ (App.votes a = App.votes b
      /\ String.leb (App.rc_submittedAt a) (App.rc_submittedAt b) = true).

(** The votes of the entries of a row added as integers, and their
    magnitudes added. *)
Definition exact_total (r : App.row) : Z :=
  fold_right (fun e acc => (App.votes_or_0 (App.e_votes e) + acc)%Z) 0%Z
             (App.row_history r).

Definition magnitude (r : App.row) : Z :=
  fold_right (fun e acc => (Z.abs (App.votes_or_0 (App.e_votes e)) + acc)%Z)
             0%Z (App.row_history r).

(** The report keeps participant ids out of what it shows, in the words
    of the specification: no author field of a contribution in the report
    is the participant id of an entry of the rows. *)
Definition report_excludes_participant_ids : Prop :=
  forall c rows now payload t rc r e,
    App.downloadReport c rows now = App.Downloaded payload ->
    In t (App.r_topics payload) -> In rc (App.contributions t) ->
    In r rows -> In e (App.row_history r) ->
    App.author rc <> App.e_participantId e
    /\ App.authorEmail rc <> App.e_participantId e.

(** A history entry, a row and a client without the voters. *)
Definition without_voters (e : App.entry) : App.entry :=
  App.mkEntry (App.e_id e) (App.e_author e) (App.e_participantId e)
    (App.e_email e) (App.e_votes e) [] (App.e_submittedAt e)
    (App.e_currentStatus e) (App.e_minorImpact e) (App.e_disruption e)
    (App.e_reimagination e).

Definition row_without_voters (r : App.row) : App.row :=
  App.mkRow (App.row_id r) (App.row_domain r) (App.row_topic r)
    (App.row_locked r) (map without_voters (App.row_history r)).

Definition client_without_voters (c : App.client) : App.client :=
  App.mkClient (App.currentSession c) (App.user c) (App.sessionState c)
    (option_map
       (fun m => App.mkMeta (App.sm_sessionState m)
                   (option_map (map row_without_voters) (App.sm_rows m))
                   (App.sm_participants m))
       (App.stored_meta c))
    (App.message c).

(** The answer to a [join] of a participant who is on the roster, in the
    words of the specification: the current record, unchanged. *)
Definition join_returns_record : Prop :=
  forall now sid pid dn em d s p,
    select_session sid d = Some s ->
    session_state s <> "final" ->
    pid <> EmptyString ->
    select_participant sid pid d = Some p ->
    data (fst (Sessions.post_join now sid (Some pid) dn em d))
    = AlreadyJoinedData sid (session_name s) (session_state s)
        (participant_id p) (display_name p) (p_status p).

(** A session with the fields of [s] and the state [st]. *)
Definition with_state (s : session) (st : string) : session :=
  mkSession (session_id s) (session_name s) (moderator_id s) st
            (created_at s).

End Spec.

(** ** The scenario of the specification, as a store *)

Module Scenario.
Import Store.

Definition the_session (state : string) : session :=
  mkSession "s1" "T1" "m@x.com" state "2024-01-01T00:00:00.000Z".

Definition the_topic : topic := mkTopic "t1" "s1" "Finance" "Fraud" 0.

Definition moderator : participant :=
  mkParticipant "s1" "m@x.com" "Moderator" "m@x.com" "joined"
                "2024-01-01T00:00:00.000Z" None.

Definition u1_joined : participant :=
  mkParticipant "s1" "u1@x.com" "Ann" "u1@x.com" "joined"
                "2024-01-01T00:01:00.000Z" None.

Definition u1_submitted : participant :=
  mkParticipant "s1" "u1@x.com" "Ann" "u1@x.com" "submitted"
                "2024-01-01T00:01:00.000Z" (Some "2024-01-01T00:02:00.000Z").

Definition u1_contribution : contribution :=
  mkContribution "c1" "s1" "t1" "u1@x.com" "A" EmptyString EmptyString
                 EmptyString "2024-01-01T00:02:00.000Z".

Definition u2_vote : vote :=
  mkVote "v1" "c1" "u2@x.com" "2024-01-01T00:03:00.000Z".

(** The session is set up, the topic added, [u1] has joined. *)
Definition joined (state : string) : db :=
  mkDb [the_session state] [the_topic] [moderator; u1_joined] [] [].

(** [u1] has submitted. *)
Definition submitted (state : string) : db :=
  mkDb [the_session state] [the_topic] [moderator; u1_submitted]
       [u1_contribution] [].

(** [u2] has voted on the contribution of [u1]. *)
Definition voted (state : string) : db :=
  mkDb [the_session state] [the_topic] [moderator; u1_submitted]
       [u1_contribution] [u2_vote].

Definition batch_ids (i : nat) : string := "c" ++ Js.decimal (S i).

Definition batch_clock (i : nat) : string := "2024-01-01T00:02:00.000Z".

(** History entries for the report. *)
Definition an_entry (id who : string) (votes : Z) (at_ : string)
  : App.entry :=
  App.mkEntry id who who who (Some votes) [] at_ (Some "text") None None
              None.

(** Topics whose total votes are 15, 30 and 5. *)
Definition three_topics : list App.row :=
  [App.mkRow "r1" "Finance" "Fraud" true
     [an_entry "h1" "a@x.com" 10 "2024-01-01T00:01:00.000Z";
      an_entry "h2" "b@x.com" 5 "2024-01-01T00:02:00.000Z"];
   App.mkRow "r2" "Finance" "Lending" true
     [an_entry "h3" "a@x.com" 30 "2024-01-01T00:03:00.000Z"];
   App.mkRow "r3" "Health" "Records" true
     [an_entry "h4" "b@x.com" 5 "2024-01-01T00:04:00.000Z"]].

(** A topic whose contributions have 3, 10 and 5 votes. *)
Definition three_contributions : App.row :=
  App.mkRow "r1" "Finance" "Fraud" true
    [an_entry "h1" "a@x.com" 3 "2024-01-01T00:01:00.000Z";
     an_entry "h2" "b@x.com" 10 "2024-01-01T00:02:00.000Z";
     an_entry "h3" "c@x.com" 5 "2024-01-01T00:03:00.000Z"].

(** A topic whose two contributions have one vote each and whose history
    has the later timestamp first. *)
Definition tied_row : App.row :=
  App.mkRow "r1" "Finance" "Fraud" true
    [an_entry "h1" "a@x.com" 1 "2024-01-01T00:02:00.000Z";
     an_entry "h2" "b@x.com" 1 "2024-01-01T00:01:00.000Z"].

(** A topic whose contributions have [2^53] votes and one vote. *)
Definition large_row : App.row :=
  App.mkRow "r4" "Finance" "Fraud" true
    [an_entry "h1" "a@x.com" (2 ^ 53) "2024-01-01T00:01:00.000Z";
     an_entry "h2" "b@x.com" 1 "2024-01-01T00:02:00.000Z"].

(** A row with the entry of [u1], on which [u2] has voted.  The client
    gives a user the e-mail as participant id. *)
Definition u1_entry : App.entry :=
  App.mkEntry "entry-1" "Ann" "u1@x.com" "u1@x.com" (Some 1%Z) ["u2@x.com"]
    "2024-01-01T00:02:00.000Z" (Some "A") None None None.

Definition u1_row : App.row :=
  App.mkRow "t1" "Finance" "Fraud" true [u1_entry].

(** The client of [u1], who is not the moderator, while contributions are
    open. *)
Definition client_person_u1 : App.person :=
  App.mkPerson "u1@x.com" "Ann" "u1@x.com" "2024-01-01T00:01:00.000Z".

Definition client_moderator : App.person :=
  App.mkPerson "m@x.com" "Moderator" "m@x.com" "2024-01-01T00:00:00.000Z".

Definition client_session : App.client_session :=
  App.mkClientSession "s1" "T1" "2024-01-01T00:00:00.000Z"
    (Some client_moderator) [client_moderator; client_person_u1].

Definition client_u1 : App.client :=
  App.mkClient (Some client_session) (Some client_person_u1) "published"
    (Some (App.mkMeta "published" None None)) EmptyString.

End Scenario.

(** ** [ORDER BY] *)

Module Sql.

(** The rows in ascending order of [leb]; rows the order does not tell
    apart stay in the order the scan produced them. *)
Section OrderBy.
Context {A : Type} (leb : A -> A -> bool).

Fixpoint insert_ordered (x : A) (l : list A) : list A :=
  match l with
  | [] => [x]
  | y :: l' => if leb x y then x :: l else y :: insert_ordered x l'
  end.

Definition order_by (l : list A) : list A := fold_right insert_ordered [] l.
End OrderBy.

End Sql.

(** ** The read-only routes of [backend/routes/sessions.js] *)

Module Queries.
Import Js Store.

(** The answer of a route that returns [data] or refuses. *)
Inductive reply (A : Type) :=
| Reply (status : nat) (data : A)
| Refused (status : nat) (error : string).
Arguments Reply {A} status data.
Arguments Refused {A} status error.

(** The columns [topic_id, domain, topic_name, sort_order]. *)
Record topic_columns := mkTopicColumns {
  tc_topic_id : string;
  tc_domain : string;
  tc_topic_name : string;
  tc_sort_order : Z
}.

(** The columns [participant_id, display_name, email, status, joined_at,
    submitted_at]. *)
Record participant_columns := mkParticipantColumns {
  pc_participant_id : string;
  pc_display_name : string;
  pc_email : string;
  pc_status : string;
  pc_joined_at : string;
  pc_submitted_at : option string
}.

Definition topic_columns_of (t : topic) : topic_columns :=
  mkTopicColumns (topic_id t) (t_domain t) (topic_name t) (sort_order t).

Definition participant_columns_of (p : participant) : participant_columns :=
  mkParticipantColumns (participant_id p) (display_name p) (p_email p)
    (p_status p) (joined_at p) (p_submitted_at p).

Record session_details := mkDetails {
  sd_sessionId : string;
  sd_name : string;
  sd_moderatorId : string;
  sd_state : string;
  sd_createdAt : string;
  sd_topics : list topic_columns;
  sd_participants : list participant_columns
}.

(** [SELECT ... FROM topics WHERE session_id = ? ORDER BY sort_order]. *)
Definition select_topics (sessionId : string) (d : db) : list topic :=
  Sql.order_by (fun a b => (sort_order a <=? sort_order b)%Z)
    (filter (fun t => t_session_id t =? sessionId) (topics d)).

(** [GET /api/sessions/:sessionId]. *)
Definition get_session (sessionId : string) (d : db) : reply session_details :=
  match select_session sessionId d with
  | None => Refused 404 "Session not found"
  | Some session =>
      Reply 200
        (mkDetails (session_id session) (session_name session)
           (moderator_id session) (session_state session)
           (created_at session)
           (map topic_columns_of (select_topics sessionId d))
           (map participant_columns_of
              (filter (fun p => p_session_id p =? sessionId)
                      (session_participants d))))
  end.

Record session_summary := mkSummary {
  ss_sessionId : string;
  ss_name : string;
  ss_moderatorId : string;
  ss_state : string;
  ss_createdAt : string
}.

Definition summary_of (s : session) : session_summary :=
  mkSummary (session_id s) (session_name s) (moderator_id s)
            (session_state s) (created_at s).

(** The [WHERE] clause assembled from the query parameters: a parameter
    that is absent or empty adds no condition. *)
Definition list_condition (state moderatorId : option string) (s : session)
  : bool :=
  (if truthy state
   then session_state s =? or_default state EmptyString else true)
  && (if truthy moderatorId
      then moderator_id s =? or_default moderatorId EmptyString else true).

(** [GET /api/sessions], [ORDER BY created_at DESC]. *)
Definition get_sessions (state moderatorId : option string) (d : db)
  : list session_summary :=
  map summary_of
    (Sql.order_by (fun a b => String.leb (created_at b) (created_at a))
       (filter (list_condition state moderatorId) (sessions d))).

Record status_participant := mkStatusParticipant {
  sp_participantId : string;
  sp_displayName : string;
  sp_email : string;
  sp_status : string;
  sp_joinedAt : string;
  sp_submittedAt : option string
}.

Record status_data := mkStatus {
  st_sessionId : string;
  st_sessionName : string;
  st_sessionState : string;
  total : nat;
  submitted : nat;
  pending : nat;
  st_participants : list status_participant
}.

(** [SELECT ... FROM session_participants WHERE session_id = ?
     ORDER BY joined_at]. *)
Definition select_roster (sessionId : string) (d : db) : list participant :=
  Sql.order_by (fun a b => String.leb (joined_at a) (joined_at b))
    (filter (fun p => p_session_id p =? sessionId) (session_participants d)).

(** [GET /api/sessions/:sessionId/status]. *)
Definition get_status (sessionId : string) (d : db) : reply status_data :=
  match select_session sessionId d with
  | None => Refused 404 "Session not found"
  | Some session =>
      let participants := select_roster sessionId d in
      Reply 200
        (mkStatus sessionId (session_name session) (session_state session)
           (List.length participants)
           (List.length
              (filter (fun p => p_status p =? "submitted") participants))
           (List.length
              (filter (fun p => negb (p_status p =? "submitted"))
                      participants))
           (map (fun p => mkStatusParticipant (participant_id p)
                            (display_name p) (p_email p) (p_status p)
                            (joined_at p) (p_submitted_at p))
                participants))
  end.

End Queries.

(** ** More of the client application *)

Module Client.
Import Js App.

(** The two key helpers of the application. *)
Definition getDraftKey : string -> string -> option string :=
  App.getDraftKey.

Definition getSessionMetaKey : string -> option string :=
  App.getSessionMetaKey.

(** An entry of the leaderboard: the entry with the topic and domain of
    its row. *)
Record leader := mkLeader {
  l_entry : entry;
  l_topic : string;
  l_domain : string
}.

Definition leader_votes (l : leader) : Z := votes_or_0 (e_votes (l_entry l)).

(** [sourceRows.flatMap((row) => row.history.map(...))]. *)
Definition allEntries (sourceRows : list row) : list leader :=
  flat_map (fun r => map (fun e => mkLeader e (row_topic r) (row_domain r))
                         (row_history r))
           sourceRows.

(** [leaderboard]: the voting contributions when they are loaded, the rows
    otherwise; the three entries with the most votes. *)
Definition leaderboard (votingContributions : option (list row))
    (rows : list row) : list leader :=
  let sourceRows :=
    match votingContributions with Some l => l | None => rows end in
  firstn 3 (sort (by_key_desc leader_votes) (allEntries sourceRows)).

(** The entry after a vote of [pid]: [(entry.votes || 0) + 1], the number
    nearest to the count plus one (adding one to a number never gives an
    infinity), and [pid] after the given voters. *)
Definition voted_entry (voters : list string) (pid : string) (e : entry)
  : entry :=
  mkEntry (e_id e) (e_author e) (e_participantId e) (e_email e)
    (Some (round_even (votes_or_0 (e_votes e) + 1))) (voters ++ [pid])
    (e_submittedAt e) (e_currentStatus e) (e_minorImpact e) (e_disruption e)
    (e_reimagination e).

(** The update of [votingContributions]: every entry [entryId] of every
    row [rowId] gets the voters of the target entry and the new one. *)
Definition vote_in_view (voters : list string) (pid rowId entryId : string)
    (rows : list row) : list row :=
  map (fun r =>
         if negb (row_id r =? rowId) then r
         else mkRow (row_id r) (row_domain r) (row_topic r) (row_locked r)
                (map (fun e => if negb (e_id e =? entryId) then e
                               else voted_entry voters pid e)
                     (row_history r)))
      rows.

(** The update of the stored metadata: every entry [entryId] of every row
    [rowId] gets its own voters and the new one. *)
Definition vote_in_meta (pid rowId entryId : string) (rows : list row)
  : list row :=
  map (fun r =>
         if negb (row_id r =? rowId) then r
         else mkRow (row_id r) (row_domain r) (row_topic r) (row_locked r)
                (map (fun e => if negb (e_id e =? entryId) then e
                               else voted_entry (e_voters e) pid e)
                     (row_history r)))
      rows.

(** [votingContributions?.find(...)?.history?.find(...)]. *)
Definition find_entry (votingContributions : option (list row))
    (rowId entryId : string) : option entry :=
  match votingContributions with
  | None => None
  | Some rows =>
      match find (fun r => row_id r =? rowId) rows with
      | None => None
      | Some r => find (fun e => e_id e =? entryId) (row_history r)
      end
  end.

(** [handleVote]: the client state and [votingContributions] after the
    call.  The stored metadata is rewritten when the session has a
    metadata key and rows are stored under it. *)
Definition handleVote (c : client) (votingContributions : option (list row))
    (rowId entryId : string) : client * option (list row) :=
  match user c with
  | None => (setMessage "Sign in to vote on entries." c, votingContributions)
  | Some u =>
      match currentSession c with
      | None => (setMessage "Join a session first." c, votingContributions)
      | Some s =>
          if negb (sessionState c =? "voting") then
            (setMessage
               "Voting is not currently enabled. Wait for the moderator to enable voting."
               c, votingContributions)
          else
            match find_entry votingContributions rowId entryId with
            | None => (setMessage "Entry not found." c, votingContributions)
            | Some targetEntry =>
                if e_participantId targetEntry =? participantId u then
                  (setMessage "You cannot vote on your own entry." c,
                   votingContributions)
                else if array_includes (e_voters targetEntry)
                                       (participantId u) then
                  (setMessage "You have already voted on this entry." c,
                   votingContributions)
                else
                  let meta' :=
                    match getSessionMetaKey (cs_id s), stored_meta c with
                    | Some _, Some meta =>
                        match sm_rows meta with
                        | Some rows =>
                            Some (mkMeta (sm_sessionState meta)
                                    (Some (vote_in_meta (participantId u)
                                             rowId entryId rows))
                                    (sm_participants meta))
                        | None => stored_meta c
                        end
                    | _, _ => stored_meta c
                    end in
                  (mkClient (currentSession c) (user c) (sessionState c)
                     meta' "Vote recorded!",
                   option_map (vote_in_view (e_voters targetEntry)
                                 (participantId u) rowId entryId)
                              votingContributions)
          end
      end
  end.

End Client.

(** ** Notions used in the statements about the routes and the client *)

Module Facts.
Import Store.

(** [topic_id TEXT PRIMARY KEY]. *)
Definition topics_unique (d : db) : bool :=
  uniqueb String.eqb (map topic_id (topics d)).

(** A contribution that is neither of the session [sid] nor of one of
    its topics. *)
Definition stays (sid : string) (d : db) (c : contribution) : Prop :=
  c_session_id c <> sid
  /\ forall t, In t (topics d) -> t_session_id t = sid ->
               topic_id t <> c_topic_id c.

(** The roster of a store replaced. *)
Definition with_roster (d : db) (l : list participant) : db :=
  set_participants d l.

(** The place of a state on the path the client operations follow;
    [published] and [contributing] share a place, a label off the path has
    none. *)
Definition place (state : string) : option nat :=
  if state =? "published" then Some 1
  else if state =? "contributing" then Some 1
  else if state =? "voting" then Some 2
  else if state =? "voting_locked" then Some 3
  else if state =? "final" then Some 4
  else None.

(** [FOREIGN KEY (session_id) REFERENCES sessions] on the roster. *)
Definition roster_refers (d : db) : Prop :=
  forall p, In p (session_participants d) ->
            session_exists (p_session_id p) d = true.

(** Every participant on the roster has the status [joined]. *)
Definition all_joined (d : db) : Prop :=
  forall p, In p (session_participants d) -> p_status p = "joined".

(** The request is a [submitAll]. *)
Definition is_submitAll (r : Api.request) : bool :=
  match r with
  | Api.SubmitAll _ _ _ _ _ => true
  | _ => false
  end.

End Facts.

(** ** More stores and requests for the scenario *)

Module Examples.
Import Store.

(** A second session with a topic of its own, beside the scenario. *)
Definition other_session : session :=
  mkSession "s2" "T2" "n@x.com" "published" "2024-02-01T00:00:00.000Z".

Definition other_topic : topic := mkTopic "t2" "s2" "Health" "Records" 1.

Definition other_participant : participant :=
  mkParticipant "s2" "n@x.com" "Moderator" "n@x.com" "joined"
                "2024-02-01T00:00:00.000Z" None.

Definition other_contribution : contribution :=
  mkContribution "c9" "s2" "t2" "n@x.com" "Z" EmptyString EmptyString
                 EmptyString "2024-02-01T00:02:00.000Z".

Definition two_sessions : db :=
  mkDb [Scenario.the_session "voting"; other_session]
       [Scenario.the_topic; other_topic]
       [Scenario.moderator; Scenario.u1_submitted; other_participant]
       [Scenario.u1_contribution; other_contribution]
       [Scenario.u2_vote].

End Examples.


(** ** Submitting the table in the client *)

Module Desk.
Import Js App Client.

(** [row.draft]; [defaultDraft()] is the draft with four empty texts. *)
Record draft := mkDraft {
  d_currentStatus : string;
  d_minorImpact : string;
  d_disruption : string;
  d_reimagination : string
}.

Definition defaultDraft : draft :=
  mkDraft EmptyString EmptyString EmptyString EmptyString.

(** A row of the table: a topic, the user's draft for it and the entries
    submitted so far. *)
Record table_row := mkTableRow {
  tr_id : string;
  tr_domain : string;
  tr_topic : string;
  tr_locked : bool;
  tr_draft : draft;
  tr_history : list entry
}.

(** [Object.values(row.draft).some(Boolean)]. *)
Definition hasContribution (x : draft) : bool :=
  negb (d_currentStatus x =? EmptyString)
  || negb (d_minorImpact x =? EmptyString)
  || negb (d_disruption x =? EmptyString)
  || negb (d_reimagination x =? EmptyString).

(** An element of [submissions], the body of the API call. *)
Record submission_data := mkSubmissionData {
  sub_rowId : string;
  sub_domain : string;
  sub_topic : string;
  sub_currentStatus : string;
  sub_minorImpact : string;
  sub_disruption : string;
  sub_reimagination : string;
  sub_submittedAt : string
}.

(** [newEntry]: the user's entry with the texts of the draft. *)
Definition newEntry (u : person) (id now : string) (x : draft) : entry :=
  mkEntry id (displayName u) (participantId u) (email u) (Some 0%Z) [] now
    (Some (d_currentStatus x)) (Some (d_minorImpact x))
    (Some (d_disruption x)) (Some (d_reimagination x)).

(** [entry.participantId === user.participantId]. *)
Definition own (u : person) (e : entry) : bool :=
  e_participantId e =? participantId u.

(** The row takes part in the submission: it is locked and its draft
    holds a text. *)
Definition submitting (row : table_row) : bool :=
  tr_locked row && hasContribution (tr_draft row).

(** [rows.map(...)] with its two side effects, [submittedCount++] and
    [submissions.push(...)]: the updated rows and the submissions.  [n]
    is [submittedCount] when the row is reached; the generated id and the
    time of the [n]-th submitting row are [ids n] and [clock n]. *)
Fixpoint submit_rows (u : person) (ids clock : nat -> string) (n : nat)
    (rows : list table_row) : list table_row * list submission_data :=
  match rows with
  | [] => ([], [])
  | row :: rest =>
      if negb (tr_locked row) then
        (row :: fst (submit_rows u ids clock n rest),
         snd (submit_rows u ids clock n rest))
      else if negb (hasContribution (tr_draft row)) then
        (row :: fst (submit_rows u ids clock n rest),
         snd (submit_rows u ids clock n rest))
      else
        let entry := newEntry u (ids n) (clock n) (tr_draft row) in
        let filteredHistory :=
          filter (fun e => negb (own u e)) (tr_history row) in
        (mkTableRow (tr_id row) (tr_domain row) (tr_topic row)
           (tr_locked row) defaultDraft (filteredHistory ++ [entry])
         :: fst (submit_rows u ids clock (S n) rest),
         mkSubmissionData (tr_id row) (tr_domain row) (tr_topic row)
           (d_currentStatus (tr_draft row)) (d_minorImpact (tr_draft row))
           (d_disruption (tr_draft row)) (d_reimagination (tr_draft row))
           (clock n)
         :: snd (submit_rows u ids clock (S n) rest))
  end.

(** What [localStorage] holds under the session's metadata key, as far as
    the submission reads and writes it. *)
Record stored := mkStored {
  submittedParticipants : option (list string);
  stored_rows : option (list table_row)
}.

(** [existingRows.map(...)]: a stored row that has an updated row of the
    same id gets the user's entries of that row appended. *)
Definition merge_rows (u : person) (updatedRows existingRows : list table_row)
  : list table_row :=
  map (fun existingRow =>
         match find (fun r => tr_id r =? tr_id existingRow) updatedRows with
         | Some updatedRow =>
             mkTableRow (tr_id existingRow) (tr_domain existingRow)
               (tr_topic existingRow) (tr_locked existingRow)
               (tr_draft existingRow)
               (tr_history existingRow
                ++ filter (own u) (tr_history updatedRow))
         | None => existingRow
         end)
      existingRows.

(** The state [handleSubmitTable] reads and writes. *)
Record desk := mkDesk {
  dk_user : option person;
  dk_currentSession : option client_session;
  structureFinalized : bool;
  dk_rows : list table_row;
  draft_stored : bool;
  dk_meta : option stored;
  userHasSubmitted : bool;
  submittedParticipantsCount : nat;
  dk_message : string
}.

Definition say (m : string) (d : desk) : desk :=
  mkDesk (dk_user d) (dk_currentSession d) (structureFinalized d)
    (dk_rows d) (draft_stored d) (dk_meta d) (userHasSubmitted d)
    (submittedParticipantsCount d) m.

Definition submitted_message (n : nat) : string :=
  "Submitted " ++ decimal n
  ++ " contribution(s)! Waiting for all participants to submit and moderator to enable voting.".

(** [handleSubmitTable].  [saveSubmissionsToAPI] is the placeholder of the
    source, which logs and returns; reading [currentSession.id] without a
    session throws inside the [try], and the [catch] reports a failure. *)
Definition handleSubmitTable (ids clock : nat -> string) (d : desk) : desk :=
  match dk_user d with
  | None => say "Sign in to submit your contributions." d
  | Some u =>
      if negb (structureFinalized d) then
        say "Finalize the structure before submitting contributions." d
      else
        let updatedRows := fst (submit_rows u ids clock 0 (dk_rows d)) in
        let submissions := snd (submit_rows u ids clock 0 (dk_rows d)) in
        let submittedCount := List.length submissions in
        if Nat.ltb 0 submittedCount then
          match dk_currentSession d with
          | None =>
              say "Failed to submit contributions. Please try again." d
          | Some s =>
              let draft' :=
                match getDraftKey (cs_id s) (participantId u) with
                | Some _ => false
                | None => draft_stored d
                end in
              match dk_meta d with
              | Some sessionMeta =>
                  let before :=
                    match submittedParticipants sessionMeta with
                    | Some l => l
                    | None => []
                    end in
                  let after :=
                    if array_includes before (participantId u) then before
                    else (before ++ [participantId u])%list in
                  let existingRows :=
                    match stored_rows sessionMeta with
                    | Some l => l
                    | None => []
                    end in
                  mkDesk (dk_user d) (dk_currentSession d)
                    (structureFinalized d) updatedRows draft'
                    (Some (mkStored (Some after)
                             (Some (merge_rows u updatedRows existingRows))))
                    true (List.length after)
                    (submitted_message submittedCount)
              | None =>
                  mkDesk (dk_user d) (dk_currentSession d)
                    (structureFinalized d) updatedRows draft' None true
                    (submittedParticipantsCount d)
                    (submitted_message submittedCount)
              end
          end
        else
          say
            "No contributions to submit. Fill in at least one cell before submitting."
            d
  end.

(** What the submission makes of a row: a row that takes part has an
    empty draft, the entries of the others as they were and in their
    order, and after them one entry of the user, with the texts of the
    draft, no votes and no voters; a row that does not take part is
    unchanged. *)
Definition row_submitted (u : person) (row row' : table_row) : Prop :=
  if submitting row then
    tr_id row' = tr_id row /\ tr_domain row' = tr_domain row
    /\ tr_topic row' = tr_topic row /\ tr_locked row' = true
    /\ tr_draft row' = defaultDraft
    /\ exists id now,
         tr_history row'
         = (filter (fun e => negb (own u e)) (tr_history row)
            ++ [newEntry u id now (tr_draft row)])%list
         /\ filter (own u) (tr_history row')
            = [newEntry u id now (tr_draft row)]
  else row' = row.

(** What the submission makes of a stored row: its entries stay, and
    entries of the user are appended. *)
Definition row_merged (u : person) (row row' : table_row) : Prop :=
  tr_id row' = tr_id row /\ tr_draft row' = tr_draft row
  /\ exists added,
       tr_history row' = (tr_history row ++ added)%list
       /\ forallb (own u) added = true.

(** A user with a row whose draft is filled in, and metadata of the
    session that holds the row. *)
Definition filled_row (text : string) (history : list entry) : table_row :=
  mkTableRow "r1" "Finance" "Fraud" true
    (mkDraft text EmptyString EmptyString EmptyString) history.

Definition a_desk (text : string) (history stored_history : list entry)
  : desk :=
  mkDesk (Some Scenario.client_person_u1) (Some Scenario.client_session)
    true [filled_row text history] true
    (Some (mkStored None
             (Some [mkTableRow "r1" "Finance" "Fraud" true defaultDraft
                      stored_history])))
    false 0 EmptyString.

End Desk.
(** * Properties *)

(** ** Lists with unique keys *)

Section Unique.
Context {K : Type} (eqb : K -> K -> bool).
Hypothesis eqb_eq : forall a b, eqb a b = true <-> a = b.

Lemma eqb_same (a : K) : eqb a a = true.
Proof. apply eqb_eq; reflexivity. Qed.

Lemma eqb_swap (a b : K) : eqb a b = eqb b a.
Proof.
  destruct (eqb a b) eqn:E1, (eqb b a) eqn:E2; try reflexivity.
  - apply eqb_eq in E1; subst. rewrite eqb_same in E2; discriminate.
  - apply eqb_eq in E2; subst. rewrite eqb_same in E1; discriminate.
Qed.

Lemma existsb_eqb_in (k : K) (l : list K) :
  existsb (eqb k) l = true <-> In k l.
Proof.
  rewrite existsb_exists; split.
  - intros [y [Hy E]]. apply eqb_eq in E; subst; assumption.
  - intros H; exists k; split; [assumption | apply eqb_same].
Qed.

Lemma uniqueb_NoDup (l : list K) : Store.uniqueb eqb l = true <-> NoDup l.
Proof.
  induction l as [| x l IH]; simpl.
  - split; [constructor | reflexivity].
  - rewrite andb_true_iff, negb_true_iff, IH. split.
    + intros [Hx Hl]; constructor; [| assumption].
      intro Hin. apply existsb_eqb_in in Hin. congruence.
    + intros H; inversion H as [| ? ? Hx Hl]; subst; split; [| assumption].
      destruct (existsb (eqb x) l) eqn:E; [| reflexivity].
      apply existsb_eqb_in in E; contradiction.
Qed.

Lemma uniqueb_snoc (l : list K) (x : K) :
  Store.uniqueb eqb l = true -> existsb (eqb x) l = false ->
  Store.uniqueb eqb (l ++ [x]) = true.
Proof.
  intros Hl Hx. apply uniqueb_NoDup. apply uniqueb_NoDup in Hl.
  apply NoDup_rev in Hl. rewrite <- (rev_involutive (l ++ [x])).
  apply NoDup_rev. rewrite rev_app_distr; simpl.
  constructor; [| assumption].
  intro Hin. apply in_rev in Hin. apply existsb_eqb_in in Hin. congruence.
Qed.

Context {R : Type} (key : R -> K).

Lemma existsb_key (k : K) (l : list R) :
  existsb (fun r => eqb (key r) k) l = existsb (eqb k) (map key l).
Proof.
  induction l as [| r l IH]; simpl; [reflexivity |].
  rewrite IH, (eqb_swap (key r) k); reflexivity.
Qed.

(** At most one row carries a given key. *)
Lemma unique_filter_le1 (k : K) (l : list R) :
  Store.uniqueb eqb (map key l) = true ->
  List.length (filter (fun r => eqb (key r) k) l) <= 1.
Proof.
  induction l as [| r l IH]; simpl; intros H; [lia |].
  apply andb_true_iff in H; destruct H as [Hr Hl].
  apply negb_true_iff in Hr.
  destruct (eqb (key r) k) eqn:E; [| auto].
  apply eqb_eq in E; subst k. simpl.
  rewrite <- existsb_key in Hr.
  assert (filter (fun r0 => eqb (key r0) (key r)) l = []) as ->; [| simpl; lia].
  clear -Hr. induction l as [| y l IH]; simpl in *; [reflexivity |].
  apply orb_false_iff in Hr; destruct Hr as [Hy Hl].
  rewrite Hy; auto.
Qed.

Lemma unique_filter (p : R -> bool) (l : list R) :
  Store.uniqueb eqb (map key l) = true ->
  Store.uniqueb eqb (map key (filter p l)) = true.
Proof.
  rewrite !uniqueb_NoDup. induction l as [| r l IH]; simpl; intros H.
  - constructor.
  - inversion H as [| ? ? Hr Hl]; subst. destruct (p r); simpl; auto.
    constructor; auto. intro Hin; apply Hr.
    apply in_map_iff in Hin; destruct Hin as [y [Ey Hy]].
    apply filter_In in Hy; destruct Hy as [Hy _].
    apply in_map_iff; exists y; auto.
Qed.

(** A row found by its key is the only row with that key. *)
Lemma unique_find_filter (k : K) (l : list R) (r : R) :
  Store.uniqueb eqb (map key l) = true ->
  find (fun r => eqb (key r) k) l = Some r ->
  filter (fun r => eqb (key r) k) l = [r].
Proof.
  induction l as [| y l IH]; simpl; intros H F; [discriminate |].
  apply andb_true_iff in H; destruct H as [Hy Hl].
  apply negb_true_iff in Hy.
  destruct (eqb (key y) k) eqn:E.
  - injection F as ->. f_equal.
    apply eqb_eq in E; subst k. rewrite <- existsb_key in Hy.
    clear -Hy. induction l as [| z l IH]; simpl in *; [reflexivity |].
    apply orb_false_iff in Hy; destruct Hy as [Hz Hl]. rewrite Hz; auto.
  - auto.
Qed.

Lemma find_none_filter (p : R -> bool) (l : list R) :
  find p l = None -> filter p l = [].
Proof.
  induction l as [| y l IH]; simpl; [reflexivity |].
  destruct (p y); [discriminate | auto].
Qed.

Lemma find_existsb (p : R -> bool) (l : list R) :
  existsb p l = match find p l with Some _ => true | None => false end.
Proof.
  induction l as [| y l IH]; simpl; [reflexivity |].
  destruct (p y); auto.
Qed.

End Unique.

Lemma pair_eqb_eq (a b : string * string) :
  Store.pair_eqb a b = true <-> a = b.
Proof.
  destruct a as [a1 a2], b as [b1 b2]. unfold Store.pair_eqb; simpl.
  rewrite andb_true_iff, !String.eqb_eq. split.
  - intros [-> ->]; reflexivity.
  - intros H; injection H; auto.
Qed.

Lemma triple_eqb_eq (a b : string * string * string) :
  Store.triple_eqb a b = true <-> a = b.
Proof.
  destruct a as [a1 a2], b as [b1 b2]. unfold Store.triple_eqb; simpl.
  rewrite andb_true_iff, pair_eqb_eq, String.eqb_eq. split.
  - intros [-> ->]; reflexivity.
  - intros H; injection H; auto.
Qed.

Lemma truthy_some (s : string) :
  s <> EmptyString -> Js.truthy (Some s) = true.
Proof.
  intros H; unfold Js.truthy. apply negb_true_iff, String.eqb_neq; exact H.
Qed.

Lemma or_default_some (s d : string) :
  s <> EmptyString -> Js.or_default (Some s) d = s.
Proof.
  intros H; unfold Js.or_default.
  apply String.eqb_neq in H; rewrite H; reflexivity.
Qed.

(** ** The session state machine: [setState] *)

Section SetState.
Import Js Store Http Sessions.

Lemma select_session_update (st sid sid' : string) (d : db) :
  select_session sid' (update_session_state st sid d) =
  option_map (fun s => if session_id s =? sid then Spec.with_state s st
                       else s)
             (select_session sid' d).
Proof.
  unfold select_session, update_session_state, set_sessions; simpl.
  induction (sessions d) as [| s l IH]; simpl; [reflexivity |].
  destruct (session_id s =? sid) eqn:E; simpl.
  - destruct (session_id s =? sid'); [| exact IH].
    simpl. rewrite E. reflexivity.
  - destruct (session_id s =? sid'); [| exact IH].
    simpl. rewrite E. reflexivity.
Qed.

Lemma select_session_id (sid : string) (d : db) (s : session) :
  select_session sid d = Some s -> session_id s = sid.
Proof.
  unfold select_session; intros H. apply find_some in H.
  destruct H as [_ H]. apply String.eqb_eq in H. exact H.
Qed.

Lemma patch_state_valid (sid st : string) (d : db) (s : session) :
  In st validStates -> select_session sid d = Some s ->
  patch_state sid (Some st) d =
  (ok 200 None (StateData sid st), update_session_state st sid d).
Proof.
  intros Hin Hs. unfold patch_state. rewrite Hs.
  assert (Hne : st <> EmptyString).
  { intro; subst; simpl in Hin; intuition discriminate. }
  rewrite (truthy_some st Hne), (or_default_some st _ Hne).
  assert (array_includes validStates st = true) as ->; [| reflexivity].
  unfold array_includes. apply existsb_exists. exists st; split; auto.
  apply String.eqb_refl.
Qed.

Lemma patch_state_unknown (sid st : string) (d : db) :
  ~ In st validStates ->
  patch_state sid (Some st) d = (Errors.UnknownState, d).
Proof.
  intros Hn. unfold patch_state.
  assert (array_includes validStates (or_default (Some st) EmptyString)
          = false) as ->.
  { unfold array_includes. destruct (existsb _ _) eqn:E; [| reflexivity].
    apply existsb_exists in E. destruct E as [x [Hx E]].
    apply String.eqb_eq in E. exfalso. apply Hn.
    unfold or_default in E. destruct (st =? EmptyString) eqn:E0.
    - subst x. simpl in Hx. intuition discriminate.
    - subst x. exact Hx. }
  rewrite orb_true_r. reflexivity.
Qed.

Lemma patch_state_answers (sid : string) (state : option string) (d : db) :
  fst (patch_state sid state d) = Errors.UnknownState
  \/ fst (patch_state sid state d) = Errors.SessionNotFound
  \/ exists st, In st validStates
                /\ fst (patch_state sid state d)
                   = ok 200 None (StateData sid st).
Proof.
  unfold patch_state.
  destruct (negb (truthy state)
            || negb (array_includes validStates
                       (or_default state EmptyString))) eqn:E.
  - left; reflexivity.
  - right. destruct (select_session sid d); [right | left; reflexivity].
    exists (or_default state EmptyString). split; [| reflexivity].
    apply orb_false_iff in E; destruct E as [_ E].
    apply negb_false_iff in E. unfold array_includes in E.
    apply existsb_exists in E. destruct E as [x [Hx E]].
    apply String.eqb_eq in E. rewrite E. exact Hx.
Qed.

End SetState.

(** C10. [setState] enforces no order of transitions: for an existing
    session, whatever its current state, each of the six labels is
    accepted and is the stored state afterwards; anything else (a label
    outside the six, or none) is refused with the invalid-state answer
    before any write; and the answers of the handler are the success, the
    invalid-state answer and the session-not-found answer, none of which
    reports an invalid transition. *)
Theorem setState_any_transition :
  forall (d : Store.db) (sid : string) (s : Store.session),
    Store.select_session sid d = Some s ->
    (forall st, In st Sessions.validStates ->
       Sessions.patch_state sid (Some st) d
       = (Http.ok 200 None (Http.StateData sid st),
          Store.update_session_state st sid d)
       /\ Store.select_session sid
            (snd (Sessions.patch_state sid (Some st) d))
          = Some (Spec.with_state s st))
    /\ (forall st, ~ In st Sessions.validStates ->
          Sessions.patch_state sid (Some st) d = (Errors.UnknownState, d))
    /\ Sessions.patch_state sid None d = (Errors.UnknownState, d)
    /\ (forall state,
          fst (Sessions.patch_state sid state d) = Errors.UnknownState
          \/ exists st, In st Sessions.validStates
               /\ fst (Sessions.patch_state sid state d)
                  = Http.ok 200 None (Http.StateData sid st)).
Proof.
  intros d sid s Hs. repeat split.
  - apply (patch_state_valid sid st d s); assumption.
  - rewrite (patch_state_valid sid st d s) by assumption. simpl.
    rewrite select_session_update, Hs. simpl.
    rewrite (select_session_id sid d s Hs), String.eqb_refl. reflexivity.
  - intros st Hn. apply patch_state_unknown; assumption.
  - intros state.
    destruct (patch_state_answers sid state d) as [H | [H | H]]; auto.
    exfalso. unfold Sessions.patch_state in H. rewrite Hs in H.
    destruct (negb (Js.truthy state) || _); discriminate.
Qed.

Lemma setState_any_transition_witness :
  Store.select_session "s1" (Scenario.voted "final")
  = Some (Scenario.the_session "final")
  /\ Store.select_session "s1"
       (snd (Sessions.patch_state "s1" (Some "setup")
               (Scenario.voted "final")))
     = Some (Scenario.the_session "setup").
Proof.
  split; [reflexivity |].
  apply (setState_any_transition (Scenario.voted "final") "s1"
           (Scenario.the_session "final") eq_refl).
  simpl; auto.
Defined.

(** ** The moderator-only gate *)

(** C3, as stated, fails.  In the scenario the moderator is [m@x.com];
    the state change asked for by [u1@x.com] is answered 200 and written. *)
Lemma setState_not_gated : ~ Spec.moderator_gate Spec.setState.
Proof.
  intros G.
  destruct (G "u1@x.com" "s1" (Some "voting") (Scenario.joined "published")
              (Scenario.the_session "published") eq_refl) as [H _].
  - discriminate.
  - discriminate H.
Qed.

(** C3, amended.  The handler of [PATCH /state] has no caller among its
    inputs and never answers 403: whoever sends it, a request with one of
    the six labels for an existing session is answered 200 and written.
    The gate is in the client: for a signed-in user who is not the
    moderator of the current session, [enableVoting], [lockVotes] and
    [publishFinalView] only set the message that the operation is for the
    moderator and leave the session state and the stored metadata as they
    were. *)
Theorem moderator_gate_in_client :
  (forall caller sid state d,
      Http.status (fst (Spec.setState caller sid state d))
      <> Errors.forbidden)
  /\ (forall caller sid st d s,
        Store.select_session sid d = Some s ->
        In st Sessions.validStates ->
        Spec.setState caller sid (Some st) d
        = (Http.ok 200 None (Http.StateData sid st),
           Store.update_session_state st sid d))
  /\ (forall c s u,
        App.currentSession c = Some s -> App.user c = Some u ->
        App.isModerator s u = false ->
        App.enableVoting c
        = App.setMessage "Only the moderator can enable voting." c
        /\ App.lockVotes c
           = App.setMessage "Only the moderator can lock votes." c
        /\ App.publishFinalView c
           = App.setMessage "Only the moderator can publish the final view."
                            c
        /\ forall op, In op [App.enableVoting; App.lockVotes;
                             App.publishFinalView] ->
             App.sessionState (op c) = App.sessionState c
             /\ App.stored_meta (op c) = App.stored_meta c).
Proof.
  split; [| split].
  - intros caller sid state d. unfold Spec.setState.
    destruct (patch_state_answers sid state d) as [H | [H | [st [_ H]]]];
      rewrite H; discriminate.
  - intros caller sid st d s Hs Hin. unfold Spec.setState.
    apply (patch_state_valid sid st d s); assumption.
  - intros c s u Hc Hu Hm.
    assert (E1 : App.enableVoting c
                 = App.setMessage "Only the moderator can enable voting." c).
    { unfold App.enableVoting. rewrite Hc, Hu, Hm. reflexivity. }
    assert (E2 : App.lockVotes c
                 = App.setMessage "Only the moderator can lock votes." c).
    { unfold App.lockVotes. rewrite Hc, Hu, Hm. reflexivity. }
    assert (E3 : App.publishFinalView c
                 = App.setMessage
                     "Only the moderator can publish the final view." c).
    { unfold App.publishFinalView. rewrite Hc, Hu, Hm. reflexivity. }
    split; [exact E1 | split; [exact E2 | split; [exact E3 |]]].
    intros op Hop.
    destruct Hop as [<- | [<- | [<- | []]]];
      rewrite ?E1, ?E2, ?E3; split; reflexivity.
Qed.

Lemma moderator_gate_in_client_witness :
  App.enableVoting Scenario.client_u1
  = App.setMessage "Only the moderator can enable voting." Scenario.client_u1
  /\ Spec.setState "u1@x.com" "s1" (Some "voting")
       (Scenario.joined "published")
     = (Http.ok 200 None (Http.StateData "s1" "voting"),
        Store.update_session_state "voting" "s1"
          (Scenario.joined "published")).
Proof.
  split.
  - apply (proj2 (proj2 moderator_gate_in_client) Scenario.client_u1
             Scenario.client_session Scenario.client_person_u1
             eq_refl eq_refl eq_refl).
  - apply (proj1 (proj2 moderator_gate_in_client) "u1@x.com" "s1" "voting"
             (Scenario.joined "published")
             (Scenario.the_session "published") eq_refl).
    simpl; auto.
Defined.

(** ** The vote ledger: the chain of preconditions *)

Section VoteChecks.
Import Js Store Http Votes.

Variables (voteId now sessionId cid voter : string) (d : db).
Hypothesis cid_given : cid <> EmptyString.
Hypothesis voter_given : voter <> EmptyString.

Lemma vote_checks_given :
  vote_checks sessionId (Some cid) (Some voter) d =
  match select_session sessionId d with
  | None => Some Errors.SessionNotFound
  | Some session =>
      if negb (session_state session =? "voting") then
        Some (Errors.VotingNotEnabled (session_state session))
      else
        match select_contribution cid sessionId d with
        | None => Some Errors.ContributionNotFound
        | Some contribution =>
            if c_participant_id contribution =? voter then
              Some Errors.SelfVoteForbidden
            else
              match select_vote cid voter d with
              | Some _ => Some Errors.DuplicateVote
              | None => None
              end
        end
  end.
Proof.
  unfold vote_checks.
  rewrite (truthy_some cid cid_given), (truthy_some voter voter_given).
  rewrite (or_default_some cid _ cid_given),
          (or_default_some voter _ voter_given).
  reflexivity.
Qed.

(** A check that fails answers and leaves the store alone. *)
Lemma post_votes_refused (r : response) :
  vote_checks sessionId (Some cid) (Some voter) d = Some r ->
  post_votes voteId now sessionId (Some cid) (Some voter) d = (r, d).
Proof. unfold post_votes; intros ->; reflexivity. Qed.

End VoteChecks.

(** C4. For a call that names a contribution and a voter, the
    preconditions of [castVote] are checked in the order session exists,
    state is [voting], contribution exists in the session, voter is not the
    owner, no vote yet for the pair; the first one that fails decides the
    answer, whatever the later ones would give, and nothing is stored.  The
    answer for a wrong state carries the current state. *)
Theorem castVote_precondition_order :
  forall (voteId now sessionId cid voter : string) (d : Store.db),
    cid <> EmptyString -> voter <> EmptyString ->
    let call := Votes.post_votes voteId now sessionId (Some cid)
                                 (Some voter) d in
    (Store.select_session sessionId d = None ->
       call = (Errors.SessionNotFound, d))
    /\ (forall s,
          Store.select_session sessionId d = Some s ->
          Store.session_state s <> "voting" ->
          call = (Errors.VotingNotEnabled (Store.session_state s), d)
          /\ exists pre post,
               Http.error (fst call)
               = Some (pre ++ Store.session_state s ++ post))
    /\ (forall s,
          Store.select_session sessionId d = Some s ->
          Store.session_state s = "voting" ->
          Store.select_contribution cid sessionId d = None ->
          call = (Errors.ContributionNotFound, d))
    /\ (forall s c,
          Store.select_session sessionId d = Some s ->
          Store.session_state s = "voting" ->
          Store.select_contribution cid sessionId d = Some c ->
          Store.c_participant_id c = voter ->
          call = (Errors.SelfVoteForbidden, d))
    /\ (forall s c v,
          Store.select_session sessionId d = Some s ->
          Store.session_state s = "voting" ->
          Store.select_contribution cid sessionId d = Some c ->
          Store.c_participant_id c <> voter ->
          Store.select_vote cid voter d = Some v ->
          call = (Errors.DuplicateVote, d)).
Proof.
  intros voteId now sessionId cid voter d Hc Hv call.
  assert (R := post_votes_refused voteId now sessionId cid voter d).
  assert (G := vote_checks_given sessionId cid voter d Hc Hv).
  split; [| split; [| split; [| split]]].
  - intros Hs. apply R. rewrite G, Hs. reflexivity.
  - intros s Hs Hst.
    assert (E : call = (Errors.VotingNotEnabled (Store.session_state s), d)).
    { apply R. rewrite G, Hs. apply String.eqb_neq in Hst. rewrite Hst.
      reflexivity. }
    split; [exact E |]. rewrite E. simpl.
    exists ("Voting is not enabled. Session is in " ++ Js.dq),
           (Js.dq ++ " state.").
    reflexivity.
  - intros s Hs Hst Hn. apply R. rewrite G, Hs, Hst, Hn. reflexivity.
  - intros s c Hs Hst Hcn Ho. apply R. rewrite G, Hs, Hst, Hcn.
    apply String.eqb_eq in Ho. rewrite Ho. reflexivity.
  - intros s c v Hs Hst Hcn Ho Hvote. apply R. rewrite G, Hs, Hst, Hcn, Hvote.
    apply String.eqb_neq in Ho. rewrite Ho. reflexivity.
Qed.

Lemma castVote_precondition_order_witness :
  "c1" <> EmptyString /\ "u1@x.com" <> EmptyString
  /\ Votes.post_votes "v2" "2024-01-01T00:04:00.000Z" "s1" (Some "c1")
       (Some "u1@x.com") (Scenario.voted "voting")
     = (Errors.SelfVoteForbidden, Scenario.voted "voting").
Proof.
  assert (H1 : "c1" <> EmptyString) by discriminate.
  assert (H2 : "u1@x.com" <> EmptyString) by discriminate.
  split; [exact H1 | split; [exact H2 |]].
  apply (proj1 (proj2 (proj2 (proj2
           (castVote_precondition_order "v2" "2024-01-01T00:04:00.000Z" "s1"
              "c1" "u1@x.com" (Scenario.voted "voting") H1 H2))))
           (Scenario.the_session "voting") Scenario.u1_contribution);
    reflexivity.
Defined.

(** ** State gating of votes and submissions *)

Section Gating.
Import Js Store Http.

Lemma post_votes_wrong_state (voteId now sid : string)
    (c v : option string) (d : db) (s : session) :
  select_session sid d = Some s -> session_state s <> "voting" ->
  success (fst (Votes.post_votes voteId now sid c v d)) = false
  /\ snd (Votes.post_votes voteId now sid c v d) = d.
Proof.
  intros Hs Hst. unfold Votes.post_votes, Votes.vote_checks.
  destruct (negb (truthy c) || negb (truthy v)); [split; reflexivity |].
  rewrite Hs. apply String.eqb_neq in Hst. rewrite Hst.
  split; reflexivity.
Qed.



(** The store behind the pool is never written. *)
Lemma post_contributions_store (ids clock : nat -> string) (sid : string)
    (p : option string) (subs : option (list Contributions.submission))
    (d : db) :
  snd (Contributions.post_contributions ids clock sid p subs d) = d.
Proof.
  unfold Contributions.post_contributions.
  destruct (negb (truthy p) || negb (Contributions.is_array subs));
    [reflexivity |].
  destruct (Nat.eqb _ 0); reflexivity.
Qed.

(** The answers the handler gives are those of its input validation. *)
Lemma post_contributions_cases (ids clock : nat -> string) (sid : string)
    (p : option string) (subs : option (list Contributions.submission))
    (d : db) :
  Contributions.post_contributions ids clock sid p subs d
  = (Answer
       (failure 400 "Missing required fields: participantId, submissions"),
     d)
  \/ Contributions.post_contributions ids clock sid p subs d
     = (Answer (failure 400 "No submissions provided"), d)
  \/ Contributions.post_contributions ids clock sid p subs d
     = (Rejection SyntaxError, d).
Proof.
  unfold Contributions.post_contributions.
  destruct (negb (truthy p) || negb (Contributions.is_array subs));
    [left; reflexivity |].
  destruct (Nat.eqb _ 0); [right; left; reflexivity |].
  right; right; reflexivity.
Qed.

(** Past the input validation the first statement is rejected, and with
    it the handler. *)
Lemma post_contributions_given (ids clock : nat -> string)
    (sid pid : string) (subs : list Contributions.submission) (d : db) :
  pid <> EmptyString -> subs <> [] ->
  Contributions.post_contributions ids clock sid (Some pid) (Some subs) d
  = (Rejection SyntaxError, d).
Proof.
  intros Hp Hn. unfold Contributions.post_contributions.
  rewrite (truthy_some pid Hp). simpl.
  destruct subs as [| x subs']; [congruence |]. reflexivity.
Qed.

Lemma post_contributions_no_success (ids clock : nat -> string)
    (sid : string) (p : option string)
    (subs : option (list Contributions.submission)) (d : db) (r : response) :
  fst (Contributions.post_contributions ids clock sid p subs d) = Answer r ->
  success r = false /\ status r = 400.
Proof.
  destruct (post_contributions_cases ids clock sid p subs d)
    as [-> | [-> | ->]]; simpl; intros H;
    [injection H as <- | injection H as <- | discriminate H];
    split; reflexivity.
Qed.

Lemma post_contributions_not_state_error (ids clock : nat -> string)
    (sid : string) (p : option string)
    (subs : option (list Contributions.submission)) (d : db) (st : string) :
  fst (Contributions.post_contributions ids clock sid p subs d)
  <> Answer (Errors.InvalidSessionState st).
Proof.
  destruct (post_contributions_cases ids clock sid p subs d)
    as [-> | [-> | ->]]; simpl; intros H; discriminate H.
Qed.

End Gating.

(** C9.  State gating, read on the code.  In a session whose state is not
    [voting] every [castVote] request fails and stores nothing, and one
    that names a contribution and a voter is answered [VotingNotEnabled].
    The handler of [submitAll] sends its statements, written with [?], to
    PostgreSQL: a request that names a participant and carries a
    non-empty batch is rejected at the [SELECT] of the session, before the
    state is looked at, and no response is sent by the handler; in no
    state is a request answered [InvalidSessionState].  The store is left
    as it was.  So it is for a submission to a session in [voting]. *)
Theorem state_gating_submitAll_unanswered :
  (forall voteId now sid d s,
      Store.select_session sid d = Some s ->
      Store.session_state s <> "voting" ->
      (forall c v,
          Http.success (fst (Votes.post_votes voteId now sid c v d)) = false
          /\ snd (Votes.post_votes voteId now sid c v d) = d)
      /\ (forall cid voter,
            cid <> EmptyString -> voter <> EmptyString ->
            Votes.post_votes voteId now sid (Some cid) (Some voter) d
            = (Errors.VotingNotEnabled (Store.session_state s), d)))
  /\ (forall ids clock sid d,
        (forall p subs,
            snd (Contributions.post_contributions ids clock sid p subs d) = d
            /\ forall st,
                 fst (Contributions.post_contributions ids clock sid p subs d)
                 <> Http.Answer (Errors.InvalidSessionState st))
        /\ (forall pid subs,
              pid <> EmptyString -> subs <> [] ->
              Contributions.post_contributions ids clock sid (Some pid)
                (Some subs) d
              = (Http.Rejection Store.SyntaxError, d)))
  /\ Store.select_session "s1" (Scenario.voted "voting")
     = Some (Scenario.the_session "voting")
  /\ Contributions.post_contributions (fun _ => "c2")
       (fun _ => "2024-01-01T00:05:00.000Z") "s1" (Some "u1@x.com")
       (Some [Contributions.mkSubmission (Some "t1") (Some "B") None None None
                None])
       (Scenario.voted "voting")
     = (Http.Rejection Store.SyntaxError, Scenario.voted "voting").
Proof.
  split; [| split; [| split; reflexivity]].
  - intros voteId now sid d s Hs Hst. split.
    + intros c v. apply (post_votes_wrong_state voteId now sid c v d s Hs Hst).
    + intros cid voter Hc Hv. apply post_votes_refused.
      rewrite (vote_checks_given sid cid voter d Hc Hv), Hs.
      apply String.eqb_neq in Hst. rewrite Hst. reflexivity.
  - intros ids clock sid d. split.
    + intros p subs. split.
      * apply post_contributions_store.
      * intros st. apply post_contributions_not_state_error.
    + intros pid subs Hp Hn.
      apply (post_contributions_given ids clock sid pid subs d Hp Hn).
Qed.

(** ** The participant roster: [join] *)

Section Join.
Import Js Store Http Sessions.

Lemma session_exists_select (sid : string) (d : db) :
  session_exists sid d
  = match select_session sid d with Some _ => true | None => false end.
Proof. apply find_existsb. Qed.

Lemma insert_participant_new (p : participant) (d : db) (s : session) :
  select_session (p_session_id p) d = Some s ->
  select_participant (p_session_id p) (participant_id p) d = None ->
  insert_participant p d
  = Done (set_participants d (session_participants d ++ [p])).
Proof.
  intros Hs Hp. unfold insert_participant.
  rewrite (find_existsb
             (fun q => pair_eqb (participant_key q) (participant_key p))).
  unfold select_participant in Hp. unfold participant_key at 2.
  rewrite Hp, session_exists_select, Hs. reflexivity.
Qed.

Lemma find_snoc_new {A : Type} (f : A -> bool) (l : list A) (x : A) :
  find f l = None -> f x = true -> find f (l ++ [x]) = Some x.
Proof.
  induction l as [| y l IH]; simpl; intros Hn Hx.
  - rewrite Hx; reflexivity.
  - destruct (f y); [discriminate | auto].
Qed.

Variables (sid pid : string) (d : db) (s : session).
Hypothesis roster_ok : participants_unique d = true.
Hypothesis pid_given : pid <> EmptyString.
Hypothesis session_found : select_session sid d = Some s.
Hypothesis joinable : session_state s <> "final".

Lemma post_join_known (now : string) (dn em : option string)
    (p : participant) :
  select_participant sid pid d = Some p ->
  post_join now sid (Some pid) dn em d
  = (ok 200 (Some "Already joined session")
        (AlreadyJoinedData sid (session_name s) (session_state s) pid
           (or_default dn pid) "joined"), d).
Proof.
  intros Hp. unfold post_join.
  rewrite (truthy_some pid pid_given), (or_default_some pid _ pid_given).
  simpl. rewrite session_found.
  apply String.eqb_neq in joinable. rewrite joinable, Hp. reflexivity.
Qed.

Lemma post_join_new (now : string) (dn em : option string) :
  select_participant sid pid d = None ->
  post_join now sid (Some pid) dn em d
  = (ok 201 (Some "Successfully joined session")
        (JoinedData sid (session_name s) (session_state s) pid
           (or_default dn pid) (or_default em pid) "joined" now),
     set_participants d
       (session_participants d
        ++ [mkParticipant sid pid (or_default dn pid) (or_default em pid)
              "joined" now None])).
Proof.
  intros Hp. unfold post_join.
  rewrite (truthy_some pid pid_given), (or_default_some pid _ pid_given).
  simpl. rewrite session_found.
  apply String.eqb_neq in joinable. rewrite joinable, Hp.
  rewrite (insert_participant_new _ d s); [reflexivity | | ]; assumption.
Qed.

(** After a join the roster has exactly one row for the participant,
    and the session is found as before. *)
Lemma post_join_one_row (now : string) (dn em : option string) :
  let d1 := snd (post_join now sid (Some pid) dn em d) in
  select_session sid d1 = Some s
  /\ (exists p, select_participant sid pid d1 = Some p
                /\ participants_for (sid, pid) d1 = [p]
                /\ (select_participant sid pid d = None ->
                    p = mkParticipant sid pid (or_default dn pid)
                          (or_default em pid) "joined" now None))
  /\ success (fst (post_join now sid (Some pid) dn em d)) = true.
Proof.
  destruct (select_participant sid pid d) as [p |] eqn:Hp.
  - rewrite (post_join_known now dn em p Hp). simpl.
    split; [assumption | split; [| reflexivity]].
    exists p. split; [assumption | split; [| discriminate]].
    apply (unique_find_filter pair_eqb pair_eqb_eq participant_key);
      assumption.
  - rewrite (post_join_new now dn em Hp). simpl.
    split; [assumption | split; [| reflexivity]].
    eexists. split; [| split; [| reflexivity]].
    + unfold select_participant; simpl. apply find_snoc_new.
      * exact Hp.
      * apply pair_eqb_eq; reflexivity.
    + unfold participants_for; simpl. rewrite filter_app.
      unfold select_participant in Hp.
      rewrite (find_none_filter _ _ Hp). simpl.
      unfold participant_key at 1; simpl.
      rewrite (proj2 (pair_eqb_eq (sid, pid) (sid, pid)) eq_refl).
      reflexivity.
Qed.

End Join.

(** C8, as stated, fails on what the second call returns: [u1] is on the
    roster with the display name [Ann]; a join that names [Mallory] is
    answered with the display name [Mallory], which is not that of the
    stored record. *)
Lemma join_answer_not_record : ~ Spec.join_returns_record.
Proof.
  intros H.
  assert (E := H "2024-01-01T00:06:00.000Z" "s1" "u1@x.com" (Some "Mallory")
                 None (Scenario.joined "published")
                 (Scenario.the_session "published") Scenario.u1_joined
                 eq_refl ltac:(discriminate) ltac:(discriminate) eq_refl).
  discriminate E.
Qed.

(** C8, amended.  [join] is idempotent on the store.  In a session that
    is not [final], after a first join of a participant the roster holds
    exactly one row for them, and a second join with the same participant
    id is answered 200 [Already joined session] and leaves the store,
    hence the stored record, as it is.  The answer is not read from the
    record: it carries the display name of the request, or the participant
    id when the request has none, and the status [joined].  When the first
    call created the row, the row carries the display name that call asked
    for and the status [joined].  In a session that is [final] every join
    of a named participant is answered [SessionFinalized] and the store is
    left as it is. *)
Theorem join_idempotent :
  forall (sid pid : string) (d : Store.db) (s : Store.session),
    Store.participants_unique d = true ->
    pid <> EmptyString ->
    Store.select_session sid d = Some s ->
    (Store.session_state s <> "final" ->
     forall now1 now2 dn1 em1 dn2 em2,
       let call1 := Sessions.post_join now1 sid (Some pid) dn1 em1 d in
       let call2 := Sessions.post_join now2 sid (Some pid) dn2 em2
                                       (snd call1) in
       Http.success (fst call1) = true
       /\ List.length (Store.participants_for (sid, pid) (snd call1)) = 1
       /\ call2
          = (Http.ok 200 (Some "Already joined session")
               (Http.AlreadyJoinedData sid (Store.session_name s)
                  (Store.session_state s) pid (Js.or_default dn2 pid)
                  "joined"),
             snd call1)
       /\ List.length (Store.participants_for (sid, pid) (snd call2)) = 1
       /\ (Store.select_participant sid pid d = None ->
           exists p, Store.select_participant sid pid (snd call2) = Some p
                     /\ Store.display_name p = Js.or_default dn1 pid
                     /\ Store.p_status p = "joined"))
    /\ (Store.session_state s = "final" ->
        forall now dn em,
          Sessions.post_join now sid (Some pid) dn em d
          = (Errors.SessionFinalized, d)).
Proof.
  intros sid pid d s Hu Hp Hs. split.
  - intros Hj now1 now2 dn1 em1 dn2 em2 call1 call2.
    destruct (post_join_one_row sid pid d s Hu Hp Hs Hj now1 dn1 em1)
      as [Hs1 [[p [Hf [Hone Hnew]]] Hok]].
    fold call1 in Hs1, Hf, Hone, Hok.
    assert (E2 : call2
                 = (Http.ok 200 (Some "Already joined session")
                      (Http.AlreadyJoinedData sid (Store.session_name s)
                         (Store.session_state s) pid (Js.or_default dn2 pid)
                         "joined"),
                    snd call1)).
    { unfold call2.
      apply (post_join_known sid pid (snd call1) s Hp Hs1 Hj now2 dn2 em2 p Hf). }
    split; [exact Hok |]. split; [rewrite Hone; reflexivity |].
    split; [exact E2 |]. rewrite E2; simpl.
    split; [rewrite Hone; reflexivity |].
    intros Hn. exists p. split; [exact Hf |].
    rewrite (Hnew Hn). split; reflexivity.
  - intros Hf now dn em. unfold Sessions.post_join.
    rewrite (truthy_some pid Hp), (or_default_some pid _ Hp). simpl.
    rewrite Hs, Hf. reflexivity.
Qed.

Lemma join_idempotent_witness :
  Store.participants_unique (Scenario.joined "published") = true
  /\ "u2@x.com" <> EmptyString
  /\ List.length
       (Store.participants_for ("s1", "u2@x.com")
          (snd (Sessions.post_join "2024-01-01T00:06:00.000Z" "s1"
                  (Some "u2@x.com") (Some "Bob") None
                  (snd (Sessions.post_join "2024-01-01T00:05:00.000Z" "s1"
                          (Some "u2@x.com") (Some "Bob") None
                          (Scenario.joined "published")))))) = 1.
Proof.
  assert (H2 : "u2@x.com" <> EmptyString) by discriminate.
  split; [reflexivity | split; [exact H2 |]].
  apply (proj1 (join_idempotent "s1" "u2@x.com" (Scenario.joined "published")
                  (Scenario.the_session "published") eq_refl H2 eq_refl)
           ltac:(discriminate)
           "2024-01-01T00:05:00.000Z" "2024-01-01T00:06:00.000Z"
           (Some "Bob") None (Some "Bob") None).
Defined.

(** ** Every statement keeps the constraints of the schema *)

Section Constraints.
Import Js Store Http.

Lemma db_ok_iff (d : db) :
  db_ok d = true <->
  sessions_unique d = true /\ participants_unique d = true
  /\ contribution_ids_unique d = true /\ contributions_unique d = true
  /\ vote_ids_unique d = true /\ votes_unique d = true.
Proof.
  unfold db_ok. rewrite !andb_true_iff. tauto.
Qed.

Lemma insert_session_ok (s : session) (d d' : db) :
  db_ok d = true -> insert_session s d = Done d' -> db_ok d' = true.
Proof.
  unfold insert_session. intros Hok H.
  destruct (session_exists (session_id s) d) eqn:E; [discriminate |].
  injection H as <-. apply db_ok_iff in Hok. apply db_ok_iff.
  destruct Hok as [H1 H2]. split; [| exact H2].
  unfold sessions_unique in *; simpl. rewrite map_app; simpl.
  apply (uniqueb_snoc String.eqb String.eqb_eq); [exact H1 |].
  rewrite <- (existsb_key String.eqb String.eqb_eq session_id). exact E.
Qed.

Lemma insert_topic_ok (t : topic) (d d' : db) :
  db_ok d = true -> insert_topic t d = Done d' -> db_ok d' = true.
Proof.
  unfold insert_topic. intros Hok H.
  destruct (topic_exists _ d); [discriminate |].
  destruct (negb _); [discriminate |].
  injection H as <-. exact Hok.
Qed.

Lemma insert_participant_ok (p : participant) (d d' : db) :
  db_ok d = true -> insert_participant p d = Done d' -> db_ok d' = true.
Proof.
  unfold insert_participant. intros Hok H.
  destruct (existsb _ (session_participants d)) eqn:E; [discriminate |].
  destruct (negb _); [discriminate |].
  injection H as <-. apply db_ok_iff in Hok. apply db_ok_iff.
  destruct Hok as [H1 [H2 H3]]. split; [exact H1 | split; [| exact H3]].
  unfold participants_unique in *; simpl. rewrite map_app; simpl.
  apply (uniqueb_snoc pair_eqb pair_eqb_eq); [exact H2 |].
  rewrite <- (existsb_key pair_eqb pair_eqb_eq participant_key). exact E.
Qed.

Lemma update_session_state_ok (st sid : string) (d : db) :
  db_ok d = true -> db_ok (update_session_state st sid d) = true.
Proof.
  intros Hok. apply db_ok_iff in Hok. apply db_ok_iff.
  destruct Hok as [H1 H2]. split; [| exact H2].
  unfold sessions_unique in *; simpl. rewrite map_map.
  erewrite map_ext; [exact H1 |].
  intros s; simpl. destruct (session_id s =? sid); reflexivity.
Qed.

Lemma update_participant_submitted_ok (now sid pid : string) (d : db) :
  db_ok d = true -> db_ok (updateParticipant now sid pid d) = true.
Proof.
  intros Hok. apply db_ok_iff in Hok. apply db_ok_iff.
  destruct Hok as [H1 [H2 H3]]. split; [exact H1 | split; [| exact H3]].
  unfold participants_unique in *; simpl. rewrite map_map.
  erewrite map_ext; [exact H2 |].
  intros p; simpl. destruct (pair_eqb _ _); reflexivity.
Qed.

Lemma insert_vote_done (v : vote) (d d' : db) :
  insert_vote v d = Done d' ->
  existsb (fun w => vote_id w =? vote_id v) (votes d) = false
  /\ existsb (fun w => pair_eqb (vote_key w) (vote_key v)) (votes d) = false
  /\ d' = set_votes d (votes d ++ [v]).
Proof.
  unfold insert_vote. intros H.
  destruct (existsb (fun w => vote_id w =? vote_id v) _); [discriminate |].
  destruct (existsb (fun w => pair_eqb _ _) _); [discriminate |].
  destruct (negb _); [discriminate |].
  injection H as <-. auto.
Qed.

Lemma insert_vote_ok (v : vote) (d d' : db) :
  db_ok d = true -> insert_vote v d = Done d' -> db_ok d' = true.
Proof.
  intros Hok H. apply insert_vote_done in H. destruct H as [E1 [E2 ->]].
  apply db_ok_iff in Hok. apply db_ok_iff.
  destruct Hok as [H1 [H2 [H3 [H4 [H5 H6]]]]].
  repeat split; try assumption.
  - unfold vote_ids_unique in *; simpl. rewrite map_app; simpl.
    apply (uniqueb_snoc String.eqb String.eqb_eq); [exact H5 |].
    rewrite <- (existsb_key String.eqb String.eqb_eq vote_id). exact E1.
  - unfold votes_unique in *; simpl. rewrite map_app; simpl.
    apply (uniqueb_snoc pair_eqb pair_eqb_eq); [exact H6 |].
    rewrite <- (existsb_key pair_eqb pair_eqb_eq vote_key). exact E2.
Qed.

Lemma delete_votes_of_session_ok (sid : string) (d : db) :
  db_ok d = true -> db_ok (delete_votes_of_session sid d) = true.
Proof.
  intros Hok. apply db_ok_iff in Hok. apply db_ok_iff.
  destruct Hok as [H1 [H2 [H3 [H4 [H5 H6]]]]].
  unfold delete_votes_of_session, vote_ids_unique, votes_unique in *; simpl.
  repeat split; try assumption.
  - apply (unique_filter String.eqb String.eqb_eq); assumption.
  - apply (unique_filter pair_eqb pair_eqb_eq); assumption.
Qed.

Lemma delete_contributions_where_ok (gone : contribution -> bool) (d : db) :
  db_ok d = true -> db_ok (delete_contributions_where gone d) = true.
Proof.
  intros Hok. apply db_ok_iff in Hok. apply db_ok_iff.
  destruct Hok as [H1 [H2 [H3 [H4 [H5 H6]]]]].
  unfold delete_contributions_where, contribution_ids_unique,
    contributions_unique, vote_ids_unique, votes_unique in *; simpl.
  repeat split; try assumption.
  - apply (unique_filter String.eqb String.eqb_eq); assumption.
  - apply (unique_filter triple_eqb triple_eqb_eq); assumption.
  - apply (unique_filter String.eqb String.eqb_eq); assumption.
  - apply (unique_filter pair_eqb pair_eqb_eq); assumption.
Qed.

Lemma delete_topics_where_ok (gone : topic -> bool) (d : db) :
  db_ok d = true -> db_ok (delete_topics_where gone d) = true.
Proof.
  intros Hok. unfold delete_topics_where.
  apply delete_contributions_where_ok. exact Hok.
Qed.

Lemma delete_participants_of_session_ok (sid : string) (d : db) :
  db_ok d = true -> db_ok (delete_participants_of_session sid d) = true.
Proof.
  intros Hok. apply db_ok_iff in Hok. apply db_ok_iff.
  destruct Hok as [H1 [H2 H3]].
  unfold delete_participants_of_session, participants_unique in *; simpl.
  split; [exact H1 | split; [| exact H3]].
  apply (unique_filter pair_eqb pair_eqb_eq); assumption.
Qed.

Lemma delete_session_row_ok (sid : string) (d : db) :
  db_ok d = true -> db_ok (delete_session_row sid d) = true.
Proof.
  intros Hok. unfold delete_session_row.
  assert (H := delete_contributions_where_ok
                 (fun c => c_session_id c =? sid) _
                 (delete_participants_of_session_ok sid _
                    (delete_topics_where_ok
                       (fun t => t_session_id t =? sid) d Hok))).
  apply db_ok_iff in H. apply db_ok_iff.
  destruct H as [H1 H2]. split; [| exact H2].
  unfold sessions_unique in *; simpl.
  apply (unique_filter String.eqb String.eqb_eq). exact H1.
Qed.

End Constraints.

(** ** The upsert of a contribution *)

Section Upsert.
Import Js Store Http.

Variables (x : contribution_values) (tid : string).
Hypothesis topic_given : x_topic_id x = Some tid.

Local Abbreviation upsert_key := (x_session_id x, tid, x_participant_id x).

Lemma key_do_update (c : contribution) :
  contribution_key (do_update upsert_key x c) = contribution_key c.
Proof. unfold do_update. destruct (conflicts _ c); reflexivity. Qed.

(** What a successful upsert has checked and written. *)
Lemma upsert_done (d d' : db) :
  insertContribution x d = Done d' ->
  existsb (fun c => (contribution_id c =? x_contribution_id x)
                    && negb (conflicts upsert_key c)) (contributions d)
  = false
  /\ ((existsb (conflicts upsert_key) (contributions d) = true
       /\ d' = set_contributions d
                 (map (do_update upsert_key x) (contributions d)))
      \/ (existsb (conflicts upsert_key) (contributions d) = false
          /\ d' = set_contributions d
                    (contributions d ++ [new_row x tid]))).
Proof.
  unfold insertContribution. rewrite topic_given.
  intros H.
  destruct (existsb (fun c => (contribution_id c =? _) && _) _);
    [discriminate |].
  destruct (negb _ || negb _); [discriminate |].
  split; [reflexivity |].
  destruct (existsb (conflicts upsert_key) _).
  - destruct (existsb _ _); [discriminate |].
    injection H as <-. left; auto.
  - injection H as <-. right; auto.
Qed.

(** Without two rows for the key, the update changes one row at most
    and the ids stay distinct. *)
Lemma do_update_ids (l : list contribution) :
  NoDup (map contribution_id l) ->
  NoDup (map contribution_key l) ->
  (forall c, In c l -> contribution_id c = x_contribution_id x ->
             conflicts upsert_key c = true) ->
  NoDup (map contribution_id (map (do_update upsert_key x) l)).
Proof.
  induction l as [| y l IH]; simpl; intros Hid Hkey Hnew; [constructor |].
  inversion Hid as [| ? ? Hy Hl]; subst.
  inversion Hkey as [| ? ? Ky Kl]; subst.
  assert (IH' := IH Hl Kl (fun c Hc => Hnew c (or_intror Hc))).
  constructor; [| exact IH'].
  rewrite map_map, in_map_iff. intros [c [Ec Hc]].
  unfold do_update in Ec.
  destruct (conflicts upsert_key y) eqn:Cy, (conflicts upsert_key c) eqn:Cc;
    simpl in Ec.
  - apply Ky. apply in_map_iff. exists c. split; [| exact Hc].
    unfold conflicts in Cy, Cc. apply triple_eqb_eq in Cy, Cc. congruence.
  - assert (conflicts upsert_key c = true) by
      (apply Hnew; [right; exact Hc | exact Ec]).
    congruence.
  - assert (conflicts upsert_key y = true) by
      (apply Hnew; [left; reflexivity | symmetry; exact Ec]).
    congruence.
  - apply Hy. apply in_map_iff. exists c. auto.
Qed.

Lemma upsert_ok (d d' : db) :
  db_ok d = true -> insertContribution x d = Done d' -> db_ok d' = true.
Proof.
  intros Hok H. apply upsert_done in H. destruct H as [Hnew H].
  apply db_ok_iff in Hok. apply db_ok_iff.
  destruct Hok as [H1 [H2 [H3 [H4 [H5 H6]]]]].
  assert (Hnew' : forall c, In c (contributions d) ->
                    contribution_id c = x_contribution_id x ->
                    conflicts upsert_key c = true).
  { intros c Hc Ec.
    destruct (conflicts upsert_key c) eqn:Cc; [reflexivity |].
    rewrite <- Hnew. apply existsb_exists. exists c.
    split; [exact Hc |]. rewrite Cc, Ec, String.eqb_refl. reflexivity. }
  destruct H as [[Hhit ->] | [Hno ->]];
    (split; [exact H1 | split; [exact H2 |]]);
    (split; [| split; [| split; assumption]]);
    unfold contribution_ids_unique, contributions_unique in *; simpl.
  - apply (uniqueb_NoDup String.eqb String.eqb_eq).
    apply do_update_ids; [| | exact Hnew'].
    + apply (uniqueb_NoDup String.eqb String.eqb_eq); exact H3.
    + apply (uniqueb_NoDup triple_eqb triple_eqb_eq); exact H4.
  - rewrite map_map. erewrite map_ext; [exact H4 |].
    intros c. apply key_do_update.
  - rewrite map_app; simpl.
    apply (uniqueb_snoc String.eqb String.eqb_eq); [exact H3 |].
    rewrite <- (existsb_key String.eqb String.eqb_eq contribution_id).
    match goal with |- ?e = false => destruct e eqn:E end;
      [| reflexivity].
    apply existsb_exists in E. destruct E as [c [Hc Ec]].
    apply String.eqb_eq in Ec.
    assert (Cc := Hnew' c Hc Ec).
    rewrite <- Hno. symmetry. apply existsb_exists. exists c; auto.
  - rewrite map_app; simpl.
    apply (uniqueb_snoc triple_eqb triple_eqb_eq); [exact H4 |].
    rewrite <- (existsb_key triple_eqb triple_eqb_eq contribution_key).
    exact Hno.
Qed.

End Upsert.

(** ** Every request keeps the constraints of the schema *)

Section Requests.
Import Js Store Http.

Lemma upsert_any_ok (x : contribution_values) (d d' : db) :
  db_ok d = true -> insertContribution x d = Done d' -> db_ok d' = true.
Proof.
  destruct (x_topic_id x) as [tid |] eqn:E.
  - apply (upsert_ok x tid E).
  - unfold insertContribution. rewrite E. discriminate.
Qed.

(** Whatever statements run, in whatever order, the constraints hold. *)
Lemma exec_ok (q : statement) (d : db) :
  db_ok d = true -> db_ok (exec q d) = true.
Proof.
  intros Hok. destruct q; simpl.
  - destruct (insert_session s d) eqn:E; simpl; [| exact Hok].
    exact (insert_session_ok _ _ _ Hok E).
  - destruct (insert_topic t d) eqn:E; simpl; [| exact Hok].
    exact (insert_topic_ok _ _ _ Hok E).
  - destruct (insert_participant p d) eqn:E; simpl; [| exact Hok].
    exact (insert_participant_ok _ _ _ Hok E).
  - apply update_session_state_ok; exact Hok.
  - apply update_participant_submitted_ok; exact Hok.
  - destruct (insertContribution x d) eqn:E; simpl; [| exact Hok].
    exact (upsert_any_ok _ _ _ Hok E).
  - destruct (insert_vote v d) eqn:E; simpl; [| exact Hok].
    exact (insert_vote_ok _ _ _ Hok E).
  - apply delete_votes_of_session_ok; exact Hok.
  - apply delete_contributions_where_ok; exact Hok.
  - apply delete_participants_of_session_ok; exact Hok.
  - apply delete_topics_where_ok; exact Hok.
  - apply delete_session_row_ok; exact Hok.
Qed.

Lemma exec_all_ok (qs : list statement) :
  forall d, db_ok d = true -> db_ok (exec_all qs d) = true.
Proof.
  unfold exec_all. induction qs as [| q qs IH]; simpl; intros d Hok.
  - exact Hok.
  - apply IH. apply exec_ok. exact Hok.
Qed.

(** The store a handler leaves is the store after the statements it ran. *)
Lemma handle_statements (r : Api.request) (d : db) :
  exists qs, snd (Api.handle r d) = exec_all qs d.
Proof.
  destruct r; simpl.
  - unfold Sessions.post_sessions.
    destruct (negb _ || negb _); [exists []; reflexivity |].
    destruct (insert_session _ d) as [d1 | err] eqn:E1;
      [| exists []; reflexivity].
    destruct (insert_participant _ d1) as [d2 | err] eqn:E2.
    + eexists [InsertSession _; InsertParticipant _].
      unfold exec_all; simpl. rewrite E1; simpl. rewrite E2. reflexivity.
    + eexists [InsertSession _]. unfold exec_all; simpl. rewrite E1.
      reflexivity.
  - unfold Sessions.post_topics.
    destruct (negb _ || negb _); [exists []; reflexivity |].
    destruct (select_session sessionId d); [| exists []; reflexivity].
    destruct (insert_topic _ d) as [d1 | err] eqn:E1;
      [| exists []; reflexivity].
    eexists [InsertTopic _]. unfold exec_all; simpl. rewrite E1. reflexivity.
  - unfold Sessions.post_participants.
    destruct (negb _); [exists []; reflexivity |].
    destruct (select_session sessionId d); [| exists []; reflexivity].
    destruct (select_participant _ _ d); [exists []; reflexivity |].
    destruct (insert_participant _ d) as [d1 | err] eqn:E1;
      [| exists []; reflexivity].
    eexists [InsertParticipant _]. unfold exec_all; simpl. rewrite E1.
    reflexivity.
  - unfold Sessions.patch_state.
    destruct (negb _ || negb _); [exists []; reflexivity |].
    destruct (select_session sessionId d); [| exists []; reflexivity].
    eexists [UpdateSessionState _ _]. reflexivity.
  - unfold Sessions.post_join.
    destruct (negb _); [exists []; reflexivity |].
    destruct (select_session sessionId d) as [s |];
      [| exists []; reflexivity].
    destruct (session_state s =? "final"); [exists []; reflexivity |].
    destruct (select_participant _ _ d); [exists []; reflexivity |].
    destruct (insert_participant _ d) as [d1 | err] eqn:E1;
      [| exists []; reflexivity].
    eexists [InsertParticipant _]. unfold exec_all; simpl. rewrite E1.
    reflexivity.
  - unfold Sessions.delete_session.
    destruct (select_session sessionId d); [| exists []; reflexivity].
    exists [DeleteVotesOfSession sessionId;
            DeleteContributionsOfSession sessionId;
            DeleteParticipantsOfSession sessionId;
            DeleteTopicsOfSession sessionId; DeleteSessionRow sessionId].
    reflexivity.
  - exists []. apply post_contributions_store.
  - unfold Votes.post_votes.
    destruct (Votes.vote_checks _ _ _ d); [exists []; reflexivity |].
    unfold Votes.vote_write.
    destruct (insert_vote _ d) as [d1 | err] eqn:E1.
    + eexists [InsertVote _]. unfold exec_all; simpl. rewrite E1.
      reflexivity.
    + exists []. destruct (includes _ _); reflexivity.
Qed.

Lemma handle_ok (r : Api.request) (d : db) :
  db_ok d = true -> db_ok (snd (Api.handle r d)) = true.
Proof.
  intros Hok. destruct (handle_statements r d) as [qs ->].
  apply exec_all_ok. exact Hok.
Qed.

Lemma run_ok (rs : list Api.request) :
  forall d, db_ok d = true -> db_ok (Api.run rs d) = true.
Proof.
  unfold Api.run. induction rs as [| r rs IH]; simpl; intros d Hok.
  - exact Hok.
  - apply IH. apply handle_ok. exact Hok.
Qed.

End Requests.

(** ** The vote ledger: one vote per contribution and voter *)

Section VoteOnce.
Import Js Store Http Votes.

Variables (voteId now sessionId cid voter : string) (d : db).

(** The insert on a store that holds the pair raises a uniqueness
    violation, on the primary key or on the pair, and the [catch] block
    answers 409. *)
Lemma vote_write_duplicate (v : vote) :
  select_vote cid voter d = Some v ->
  vote_write voteId now cid voter d = (Errors.DuplicateVote, d).
Proof.
  intros Hv. unfold vote_write, insert_vote. simpl vote_id.
  destruct (existsb (fun w => vote_id w =? voteId) (votes d));
    [reflexivity |].
  rewrite (find_existsb
             (fun w => pair_eqb (vote_key w)
                         (vote_key (mkVote voteId cid voter now)))).
  unfold select_vote in Hv. unfold vote_key at 2. simpl.
  rewrite Hv. reflexivity.
Qed.

Lemma vote_write_success (r : response) (d' : db) :
  vote_write voteId now cid voter d = (r, d') -> success r = true ->
  select_vote cid voter d = None
  /\ d' = set_votes d (votes d ++ [mkVote voteId cid voter now]).
Proof.
  unfold vote_write.
  destruct (insert_vote _ d) as [d1 | err] eqn:E.
  - intros H _. injection H as _ <-.
    apply insert_vote_done in E. destruct E as [_ [E ->]].
    split; [| reflexivity].
    rewrite (find_existsb
               (fun w => pair_eqb (vote_key w)
                           (vote_key (mkVote voteId cid voter now)))) in E.
    unfold select_vote. unfold vote_key at 2 in E. simpl in E.
    destruct (find _ (votes d)); [discriminate | reflexivity].
  - destruct (includes _ _); intros H Hs; injection H as <- _;
      discriminate Hs.
Qed.

Hypothesis cid_given : cid <> EmptyString.
Hypothesis voter_given : voter <> EmptyString.

Lemma vote_checks_refuse :
  forall r, vote_checks sessionId (Some cid) (Some voter) d = Some r ->
            success r = false.
Proof.
  intros r. rewrite (vote_checks_given sessionId cid voter d cid_given
                       voter_given).
  destruct (select_session sessionId d) as [s |];
    [| intros H; injection H as <-; reflexivity].
  destruct (negb _); [intros H; injection H as <-; reflexivity |].
  destruct (select_contribution cid sessionId d) as [c |];
    [| intros H; injection H as <-; reflexivity].
  destruct (c_participant_id c =? voter);
    [intros H; injection H as <-; reflexivity |].
  destruct (select_vote cid voter d);
    [intros H; injection H as <-; reflexivity | discriminate].
Qed.

Lemma post_votes_success (r : response) (d' : db) :
  post_votes voteId now sessionId (Some cid) (Some voter) d = (r, d') ->
  success r = true ->
  select_vote cid voter d = None
  /\ d' = set_votes d (votes d ++ [mkVote voteId cid voter now]).
Proof.
  unfold post_votes.
  destruct (vote_checks sessionId (Some cid) (Some voter) d) as [r0 |] eqn:E.
  - intros H Hs. injection H as <- _.
    rewrite (vote_checks_refuse r0 E) in Hs. discriminate.
  - rewrite (or_default_some cid _ cid_given),
            (or_default_some voter _ voter_given).
    apply vote_write_success.
Qed.

Lemma post_votes_again (v : vote) :
  select_vote cid voter d = Some v ->
  success (fst (post_votes voteId now sessionId (Some cid) (Some voter) d))
  = false
  /\ snd (post_votes voteId now sessionId (Some cid) (Some voter) d) = d.
Proof.
  intros Hv. unfold post_votes.
  destruct (vote_checks sessionId (Some cid) (Some voter) d) as [r0 |] eqn:E.
  - simpl. split; [exact (vote_checks_refuse r0 E) | reflexivity].
  - rewrite (or_default_some cid _ cid_given),
            (or_default_some voter _ voter_given).
    rewrite (vote_write_duplicate v Hv). split; reflexivity.
Qed.

(** What a call that passed its checks has read. *)
Lemma vote_checks_passed :
  vote_checks sessionId (Some cid) (Some voter) d = None ->
  contribution_exists cid d = true /\ select_vote cid voter d = None.
Proof.
  rewrite (vote_checks_given sessionId cid voter d cid_given voter_given).
  destruct (select_session sessionId d) as [s |]; [| discriminate].
  destruct (negb _); [discriminate |].
  destruct (select_contribution cid sessionId d) as [c |] eqn:Hc;
    [| discriminate].
  destruct (c_participant_id c =? voter); [discriminate |].
  destruct (select_vote cid voter d); [discriminate |].
  intros _. split; [| reflexivity].
  unfold select_contribution in Hc. apply find_some in Hc.
  destruct Hc as [Hin Hc]. apply andb_true_iff in Hc.
  apply existsb_exists. exists c. tauto.
Qed.

(** Two calls for the pair that both passed their checks on [d]: the
    first insert succeeds, the second raises and is answered 409. *)
Lemma vote_race (voteId2 now2 : string) :
  vote_checks sessionId (Some cid) (Some voter) d = None ->
  existsb (fun w => vote_id w =? voteId) (votes d) = false ->
  let first := vote_write voteId now cid voter d in
  let second := vote_write voteId2 now2 cid voter (snd first) in
  success (fst first) = true
  /\ second = (Errors.DuplicateVote, snd first)
  /\ votes_for (cid, voter) (snd second) = [mkVote voteId cid voter now].
Proof.
  intros Hpass Hid first second.
  destruct (vote_checks_passed Hpass) as [Hc Hn].
  assert (E : first
              = (mkResponse 200 true None (Some "Vote recorded successfully")
                   None
                   (VoteData cid
                      (count_votes cid
                         (set_votes d
                            (votes d ++ [mkVote voteId cid voter now])))),
                 set_votes d (votes d ++ [mkVote voteId cid voter now]))).
  { unfold first, vote_write, insert_vote. simpl vote_id. rewrite Hid.
    rewrite (find_existsb
               (fun w => pair_eqb (vote_key w)
                           (vote_key (mkVote voteId cid voter now)))).
    unfold select_vote in Hn. unfold vote_key at 2. simpl.
    rewrite Hn, Hc. reflexivity. }
  assert (Hrow : votes_for (cid, voter) (snd first)
                 = [mkVote voteId cid voter now]).
  { rewrite E. unfold votes_for; simpl. rewrite filter_app.
    unfold select_vote in Hn. rewrite (find_none_filter _ _ Hn). simpl.
    unfold vote_key; simpl.
    rewrite (proj2 (pair_eqb_eq (cid, voter) (cid, voter)) eq_refl).
    reflexivity. }
  assert (E2 : second = (Errors.DuplicateVote, snd first)).
  { unfold second, vote_write, insert_vote. simpl vote_id.
    destruct (existsb (fun w => vote_id w =? voteId2) (votes (snd first)));
      [reflexivity |].
    assert (existsb (fun w => pair_eqb (vote_key w)
                                (vote_key (mkVote voteId2 cid voter now2)))
                    (votes (snd first)) = true) as ->; [| reflexivity].
    apply existsb_exists. exists (mkVote voteId cid voter now). split.
    - rewrite E; simpl. apply in_or_app. right. left. reflexivity.
    - apply pair_eqb_eq. reflexivity. }
  split; [rewrite E; reflexivity |]. split; [exact E2 |].
  rewrite E2. simpl. exact Hrow.
Qed.

End VoteOnce.

(** C2. One vote per contribution and voter.  From a store that meets the
    constraints, no pair has more than one vote row after any sequence of
    requests, nor after any sequence of the statements the handlers run,
    however interleaved.  A [castVote] that succeeds found no row for the
    pair and leaves exactly one.  Once the row is there, a [castVote] for
    the pair never succeeds and never writes; it is answered
    [DuplicateVote] as soon as the checks before the duplicate check pass;
    and a call that is already past its duplicate check when the row
    appears reaches the insert, where the uniqueness violation raised by
    the store is caught and answered [DuplicateVote], status 409, not the
    generic status 500.  Of two calls for a pair that both pass their
    checks on the same store, the first to insert succeeds, the second is
    answered [DuplicateVote], and one row is stored. *)
Theorem vote_exactly_once :
  (forall d k,
      Store.db_ok d = true ->
      (forall rs, List.length (Store.votes_for k (Api.run rs d)) <= 1)
      /\ (forall qs, List.length (Store.votes_for k (Store.exec_all qs d))
                     <= 1))
  /\ (forall voteId now sid cid voter d r d',
        cid <> EmptyString -> voter <> EmptyString ->
        Votes.post_votes voteId now sid (Some cid) (Some voter) d = (r, d') ->
        Http.success r = true ->
        Store.select_vote cid voter d = None
        /\ List.length (Store.votes_for (cid, voter) d') = 1)
  /\ (forall voteId now sid cid voter d v,
        cid <> EmptyString -> voter <> EmptyString ->
        Store.select_vote cid voter d = Some v ->
        let call := Votes.post_votes voteId now sid (Some cid) (Some voter) d
        in
        Http.success (fst call) = false
        /\ snd call = d
        /\ (forall s c,
              Store.select_session sid d = Some s ->
              Store.session_state s = "voting" ->
              Store.select_contribution cid sid d = Some c ->
              Store.c_participant_id c <> voter ->
              call = (Errors.DuplicateVote, d))
        /\ Votes.vote_write voteId now cid voter d = (Errors.DuplicateVote, d)
        /\ Http.status Errors.DuplicateVote = 409)
  /\ (forall voteId1 voteId2 now1 now2 sid cid voter d,
        cid <> EmptyString -> voter <> EmptyString ->
        Votes.vote_checks sid (Some cid) (Some voter) d = None ->
        existsb (fun w => Store.vote_id w =? voteId1) (Store.votes d)
        = false ->
        let first := Votes.vote_write voteId1 now1 cid voter d in
        let second := Votes.vote_write voteId2 now2 cid voter (snd first) in
        Http.success (fst first) = true
        /\ second = (Errors.DuplicateVote, snd first)
        /\ Store.votes_for (cid, voter) (snd second)
           = [Store.mkVote voteId1 cid voter now1]).
Proof.
  split; [| split; [| split]].
  - intros d k Hok. split.
    + intros rs. assert (H := run_ok rs d Hok). apply db_ok_iff in H.
      apply (unique_filter_le1 Store.pair_eqb pair_eqb_eq Store.vote_key).
      apply H.
    + intros qs. assert (H := exec_all_ok qs d Hok). apply db_ok_iff in H.
      apply (unique_filter_le1 Store.pair_eqb pair_eqb_eq Store.vote_key).
      apply H.
  - intros voteId now sid cid voter d r d' Hc Hv Hcall Hs.
    destruct (post_votes_success voteId now sid cid voter d Hc Hv r d'
                Hcall Hs) as [Hn ->].
    split; [exact Hn |].
    unfold Store.votes_for; simpl. rewrite filter_app.
    unfold Store.select_vote in Hn. rewrite (find_none_filter _ _ Hn). simpl.
    unfold Store.vote_key; simpl.
    rewrite (proj2 (pair_eqb_eq (cid, voter) (cid, voter)) eq_refl).
    reflexivity.
  - intros voteId now sid cid voter d v Hc Hv Hrow call.
    destruct (post_votes_again voteId now sid cid voter d Hc Hv v Hrow)
      as [H1 H2].
    split; [exact H1 | split; [exact H2 | split; [| split]]].
    + intros s c Hs Hst Hcn Ho. unfold call. apply post_votes_refused.
      rewrite (vote_checks_given sid cid voter d Hc Hv), Hs, Hst, Hcn, Hrow.
      apply String.eqb_neq in Ho. rewrite Ho. reflexivity.
    + apply (vote_write_duplicate voteId now cid voter d v Hrow).
    + reflexivity.
  - intros voteId1 voteId2 now1 now2 sid cid voter d Hc Hv Hpass Hid.
    apply (vote_race voteId1 now1 sid cid voter d Hc Hv voteId2 now2 Hpass
             Hid).
Qed.

Lemma vote_exactly_once_witness :
  Store.db_ok (Scenario.voted "voting") = true
  /\ Store.select_vote "c1" "u2@x.com" (Scenario.voted "voting")
     = Some Scenario.u2_vote
  /\ Votes.post_votes "v2" "2024-01-01T00:04:00.000Z" "s1" (Some "c1")
       (Some "u2@x.com") (Scenario.voted "voting")
     = (Errors.DuplicateVote, Scenario.voted "voting")
  /\ List.length
       (Store.votes_for ("c1", "u2@x.com")
          (Api.run [Api.CastVote "v2" "2024-01-01T00:04:00.000Z" "s1"
                      (Some "c1") (Some "u2@x.com")]
                   (Scenario.voted "voting"))) <= 1.
Proof.
  assert (H1 : "c1" <> EmptyString) by discriminate.
  assert (H2 : "u2@x.com" <> EmptyString) by discriminate.
  split; [reflexivity | split; [reflexivity | split]].
  - apply (proj1 (proj2 (proj2
             (proj1 (proj2 (proj2 vote_exactly_once)) "v2"
                "2024-01-01T00:04:00.000Z" "s1" "c1" "u2@x.com"
                (Scenario.voted "voting") Scenario.u2_vote H1 H2 eq_refl)))
             (Scenario.the_session "voting") Scenario.u1_contribution);
      try reflexivity.
    discriminate.
  - apply (proj1 vote_exactly_once (Scenario.voted "voting")
             ("c1", "u2@x.com") eq_refl).
Defined.

(** ** The contribution store: one row per session, topic and participant *)

(** C7.  One contribution per session, topic and participant, read on the
    code.  From a store that meets the constraints no triple has more
    than one row after any sequence of requests, nor after any sequence of
    statements.  The overwrite does not happen: the upsert of [submitAll]
    is written with [?] and sent to PostgreSQL, and before it the
    [SELECT] of the session is rejected, so no call of the handler writes
    a row.  Two submissions of one participant for one topic of a session
    in [published] are both rejected and leave no row for the triple,
    where the specification asks for one row with the content of the
    second. *)
Theorem submitAll_twice_stores_no_row :
  let first :=
    Contributions.mkSubmission (Some "t1") (Some "first") None None None
      None in
  let second :=
    Contributions.mkSubmission (Some "t1") (Some "second") None None None
      None in
  let call1 :=
    Contributions.post_contributions (fun _ => "c1")
      (fun _ => "2024-01-01T00:08:00.000Z") "s1" (Some "u1@x.com")
      (Some [first]) (Scenario.joined "published") in
  let call2 :=
    Contributions.post_contributions (fun _ => "c2")
      (fun _ => "2024-01-01T00:09:00.000Z") "s1" (Some "u1@x.com")
      (Some [second]) (snd call1) in
  Store.db_ok (Scenario.joined "published") = true
  /\ Store.topic_exists "t1" (Scenario.joined "published") = true
  /\ fst call1 = Http.Rejection Store.SyntaxError
  /\ fst call2 = Http.Rejection Store.SyntaxError
  /\ Store.contributions_for ("s1", "t1", "u1@x.com") (snd call1) = []
  /\ Store.contributions_for ("s1", "t1", "u1@x.com") (snd call2) = []
  /\ (forall ids clock sid p subs d,
        Store.contributions
          (snd (Contributions.post_contributions ids clock sid p subs d))
        = Store.contributions d)
  /\ (forall d k,
        Store.db_ok d = true ->
        (forall rs,
            List.length (Store.contributions_for k (Api.run rs d)) <= 1)
        /\ (forall qs,
              List.length (Store.contributions_for k (Store.exec_all qs d))
              <= 1)).
Proof.
  cbv zeta.
  split; [reflexivity |]. split; [reflexivity |].
  split; [reflexivity |]. split; [reflexivity |].
  split; [reflexivity |]. split; [reflexivity |].
  split.
  - intros ids clock sid p subs d.
    rewrite post_contributions_store. reflexivity.
  - intros d k Hok. split.
    + intros rs. assert (H := run_ok rs d Hok). apply db_ok_iff in H.
      apply (unique_filter_le1 Store.triple_eqb triple_eqb_eq
               Store.contribution_key).
      apply H.
    + intros qs. assert (H := exec_all_ok qs d Hok). apply db_ok_iff in H.
      apply (unique_filter_le1 Store.triple_eqb triple_eqb_eq
               Store.contribution_key).
      apply H.
Qed.

(** ** The batch of a submission *)


(** ** [array.sort] with a comparator that subtracts keys *)

Section SortByKey.
Import Js.
Context {A : Type} (key : A -> Z).

Lemma insert_sorted_perm (cmp : A -> A -> Z) (x : A) (l : list A) :
  Permutation (insert_sorted cmp x l) (x :: l).
Proof.
  induction l as [| y l IH]; simpl; [reflexivity |].
  destruct (cmp x y <=? 0)%Z; [reflexivity |].
  rewrite IH. apply perm_swap.
Qed.

Lemma sort_perm (cmp : A -> A -> Z) (l : list A) :
  Permutation (sort cmp l) l.
Proof.
  induction l as [| x l IH]; simpl; [reflexivity |].
  rewrite insert_sorted_perm. constructor. exact IH.
Qed.

Lemma insert_sorted_desc (x : A) (l : list A) :
  StronglySorted (key_ge key) l ->
  StronglySorted (key_ge key) (insert_sorted (by_key_desc key) x l).
Proof.
  induction l as [| y l IH]; simpl; intros Hs.
  - constructor; constructor.
  - inversion Hs as [| ? ? Hl Hy]; subst.
    unfold by_key_desc at 1.
    destruct (key y - key x <=? 0)%Z eqn:E.
    + apply Z.leb_le in E. constructor; [exact Hs |].
      constructor; [unfold key_ge; lia |].
      eapply Forall_impl; [| exact Hy].
      unfold key_ge; intros; lia.
    + apply Z.leb_gt in E. constructor; [apply IH; exact Hl |].
      eapply Permutation_Forall.
      * symmetry. apply insert_sorted_perm.
      * constructor; [unfold key_ge; lia | exact Hy].
Qed.

Lemma sort_desc (l : list A) :
  StronglySorted (key_ge key) (sort (by_key_desc key) l).
Proof.
  induction l as [| x l IH]; simpl; [constructor |].
  apply insert_sorted_desc. exact IH.
Qed.

(** Elements with the same key keep their order. *)
Lemma insert_sorted_stable (v : Z) (x : A) (l : list A) :
  filter (fun a => (key a =? v)%Z) (insert_sorted (by_key_desc key) x l)
  = filter (fun a => (key a =? v)%Z) (x :: l).
Proof.
  induction l as [| y l IH]; simpl; [reflexivity |].
  unfold by_key_desc at 1.
  destruct (key y - key x <=? 0)%Z eqn:E; [reflexivity |].
  apply Z.leb_gt in E. simpl. simpl in IH. rewrite IH.
  destruct (key x =? v)%Z eqn:Ex, (key y =? v)%Z eqn:Ey; try reflexivity.
  apply Z.eqb_eq in Ex, Ey. lia.
Qed.

Lemma sort_stable (v : Z) (l : list A) :
  filter (fun a => (key a =? v)%Z) (sort (by_key_desc key) l)
  = filter (fun a => (key a =? v)%Z) l.
Proof.
  induction l as [| x l IH]; simpl; [reflexivity |].
  rewrite insert_sorted_stable. simpl. rewrite IH. reflexivity.
Qed.

End SortByKey.

(** Sorting the images of a list under [f] with a comparator that reads
    as the one of the list does. *)
Section SortImages.
Import Js.
Context {A B : Type} (f : A -> B) (cmpA : A -> A -> Z) (cmpB : B -> B -> Z)
        (P : A -> Prop).
Hypothesis agree :
  forall a b, P a -> P b ->
              (cmpB (f a) (f b) <=? 0)%Z = (cmpA a b <=? 0)%Z.

Lemma insert_sorted_map (x : A) (l : list A) :
  P x -> Forall P l ->
  insert_sorted cmpB (f x) (map f l) = map f (insert_sorted cmpA x l).
Proof.
  intros Hx Hl. induction l as [| y l IH]; simpl; [reflexivity |].
  inversion Hl as [| ? ? Hy Hl']; subst.
  rewrite (agree x y Hx Hy).
  destruct (cmpA x y <=? 0)%Z; [reflexivity |].
  simpl. rewrite (IH Hl'). reflexivity.
Qed.

Lemma sort_map (l : list A) :
  Forall P l -> sort cmpB (map f l) = map f (sort cmpA l).
Proof.
  intros Hl. induction l as [| x l IH]; simpl; [reflexivity |].
  inversion Hl as [| ? ? Hx Hl']; subst.
  rewrite (IH Hl'). apply insert_sorted_map; [exact Hx |].
  eapply Permutation_Forall; [| exact Hl'].
  symmetry. apply sort_perm.
Qed.

End SortImages.

(** ** Numbers *)

Section Numbers.
Import Js.

Lemma round_even_small (z : Z) :
  (Z.abs z < 2 ^ 53)%Z -> round_even z = z.
Proof.
  intros H. unfold round_even.
  apply Z.ltb_lt in H. rewrite H. reflexivity.
Qed.

Lemma rounded_small (z : Z) :
  (Z.abs z < 2 ^ 53)%Z -> rounded z = Finite z.
Proof.
  intros H. unfold rounded. rewrite (round_even_small z H).
  assert (H53 : (2 ^ 53 < 2 ^ 1024)%Z)
    by (apply Z.pow_lt_mono_r; lia).
  destruct (2 ^ 1024 <=? z)%Z eqn:E1; [apply Z.leb_le in E1; lia |].
  destruct (z <=? - 2 ^ 1024)%Z eqn:E2; [apply Z.leb_le in E2; lia |].
  reflexivity.
Qed.

(** Rounding keeps the sign. *)
Lemma round_even_sgn (z : Z) : Z.sgn (round_even z) = Z.sgn z.
Proof.
  unfold round_even.
  destruct (Z.abs z <? 2 ^ 53)%Z eqn:E; [reflexivity |].
  apply Z.ltb_ge in E.
  set (m := Z.abs z) in *.
  set (e := (Z.log2 m - 52)%Z).
  assert (Hm : (0 < m)%Z) by lia.
  assert (Hlog : (53 <= Z.log2 m)%Z).
  { apply Z.log2_le_pow2; [exact Hm | exact E]. }
  assert (He : (0 <= e)%Z) by (unfold e; lia).
  assert (Hpow : (0 < 2 ^ e)%Z) by (apply Z.pow_pos_nonneg; lia).
  assert (Hle : (2 ^ e <= m)%Z).
  { apply Z.le_trans with (2 ^ Z.log2 m)%Z.
    - apply Z.pow_le_mono_r; unfold e; lia.
    - apply Z.log2_spec. exact Hm. }
  assert (Hq : (0 < m / 2 ^ e)%Z).
  { apply Z.div_str_pos. lia. }
  set (q := (m / 2 ^ e)%Z) in *.
  assert (Hq' : (0 < (if (m mod 2 ^ e <? 2 ^ (e - 1))%Z then q
                      else if (2 ^ (e - 1) <? m mod 2 ^ e)%Z then (q + 1)%Z
                      else if Z.even q then q else (q + 1)%Z))%Z).
  { destruct (_ <? _)%Z; [exact Hq |].
    destruct (_ <? _)%Z; [lia |].
    destruct (Z.even q); lia. }
  rewrite Z.sgn_mul.
  rewrite (Z.sgn_pos (_ * 2 ^ e)%Z) by (apply Z.mul_pos_pos; assumption).
  rewrite Z.mul_1_r. apply Z.sgn_sgn.
Qed.

Lemma reading_rounded (z : Z) : reading (rounded z) = Z.sgn z.
Proof.
  unfold rounded. rewrite <- (round_even_sgn z).
  assert (H0 : (0 < 2 ^ 1024)%Z) by (apply Z.pow_pos_nonneg; lia).
  destruct (2 ^ 1024 <=? round_even z)%Z eqn:E1.
  - apply Z.leb_le in E1. simpl. symmetry. apply Z.sgn_pos. lia.
  - destruct (round_even z <=? - 2 ^ 1024)%Z eqn:E2.
    + apply Z.leb_le in E2. simpl. symmetry. apply Z.sgn_neg. lia.
    + reflexivity.
Qed.

(** On finite keys the comparator reads as the difference of the keys
    does. *)
Lemma by_number_desc_finite {A : Type} (key : A -> number) (a b : A)
    (ka kb : Z) :
  key a = Finite ka -> key b = Finite kb ->
  (by_number_desc key a b <=? 0)%Z = (kb - ka <=? 0)%Z.
Proof.
  intros Ha Hb. unfold by_number_desc, subtract.
  rewrite Ha, Hb. cbn [negate add].
  rewrite reading_rounded.
  replace (kb + - ka)%Z with (kb - ka)%Z by lia.
  destruct (kb - ka <=? 0)%Z eqn:E.
  - apply Z.leb_le in E. apply Z.leb_le. lia.
  - apply Z.leb_gt in E. apply Z.leb_gt. lia.
Qed.

End Numbers.

(** ** The report compiler *)

Section Report.
Import Js App.

Lemma sum_votes_from (l : list report_contribution) (z : Z) :
  (Z.abs z + fold_right (fun c acc => Z.abs (votes c) + acc) 0 l < 2 ^ 53)%Z ->
  fold_left (fun sum c => add sum (Finite (votes c))) l (Finite z)
  = Finite (z + fold_right (fun c acc => votes c + acc) 0 l)%Z.
Proof.
  revert z. induction l as [| c l IH]; simpl; intros z H.
  - f_equal. lia.
  - assert (Hpos : (0 <= fold_right (fun c acc => Z.abs (votes c) + acc) 0 l)%Z).
    { clear. induction l as [| c l IH]; simpl; lia. }
    rewrite rounded_small by lia.
    rewrite IH by lia. f_equal. lia.
Qed.

Lemma votes_of_history (g : Z -> Z) (l : list entry) :
  fold_right (fun c acc => g (votes c) + acc)%Z 0%Z (map contribution_of l)
  = fold_right (fun e acc => g (votes_or_0 (e_votes e)) + acc)%Z 0%Z l.
Proof.
  induction l as [| e l IH]; simpl; [reflexivity |].
  rewrite IH. reflexivity.
Qed.

Lemma totalVotes_sum (r : row) :
  (Spec.magnitude r < 2 ^ 53)%Z ->
  totalVotes (topic_of r) = Finite (Spec.exact_total r).
Proof.
  intros H. unfold topic_of. cbn [totalVotes]. unfold sum_votes.
  rewrite sum_votes_from.
  - rewrite (votes_of_history (fun z => z)). reflexivity.
  - rewrite (votes_of_history Z.abs). exact H.
Qed.

Lemma report_topics_sorted (allRows : list row) :
  (forall r, In r allRows -> (Spec.magnitude r < 2 ^ 53)%Z) ->
  report_topics allRows
  = map topic_of (sort (by_key_desc Spec.exact_total) allRows).
Proof.
  intros H. unfold report_topics.
  apply (sort_map topic_of (by_key_desc Spec.exact_total)
           (by_number_desc totalVotes)
           (fun r => (Spec.magnitude r < 2 ^ 53)%Z)).
  - intros a b Ha Hb. unfold by_key_desc.
    apply by_number_desc_finite; apply totalVotes_sum; assumption.
  - apply Forall_forall. exact H.
Qed.

End Report.

(** C5, as stated, fails on the tie-break of contributions: two
    contributions with one vote each come out in the order of the history,
    here with the later timestamp first. *)
Lemma report_ties_not_by_timestamp :
  ~ StronglySorted Spec.votes_then_timestamp
      (App.contributions (App.topic_of Scenario.tied_row)).
Proof.
  intros H. inversion H as [| a l _ Hall]; subst.
  inversion Hall as [| b l' Hab _]; subst.
  destruct Hab as [Hgt | [_ Hle]].
  - vm_compute in Hgt. discriminate Hgt.
  - vm_compute in Hle. discriminate Hle.
Qed.

(** C5, amended.  The report orders the contributions of each topic
    descending by their votes, contributions with equal votes keeping the
    order of the topic's history (no timestamp is compared).  It orders
    the topics by [totalVotes], the votes of the topic's contributions
    added as JavaScript numbers.  As long as the magnitudes of the votes
    of each topic add up to less than [2^53] that sum is the exact one,
    and the topics come out descending by it, topics with equal totals
    keeping the order of the rows.  Totals 15, 30, 5 come out as 30, 15,
    5 and votes 3, 10, 5 as 10, 5, 3.  Beyond that range the sum is the
    rounded one: votes [2^53] and 1 add up to [2^53]. *)
Theorem report_sort_order :
  (forall allRows,
      Permutation (App.report_topics allRows) (map App.topic_of allRows)
      /\ ((forall r, In r allRows -> (Spec.magnitude r < 2 ^ 53)%Z) ->
          exists sorted,
            App.report_topics allRows = map App.topic_of sorted
            /\ Permutation sorted allRows
            /\ StronglySorted (Js.key_ge Spec.exact_total) sorted
            /\ forall v,
                 filter (fun r => (Spec.exact_total r =? v)%Z) sorted
                 = filter (fun r => (Spec.exact_total r =? v)%Z) allRows))
  /\ (forall r,
        ((Spec.magnitude r < 2 ^ 53)%Z ->
         App.totalVotes (App.topic_of r) = Js.Finite (Spec.exact_total r))
        /\ Permutation (App.contributions (App.topic_of r))
                       (map App.contribution_of (App.row_history r))
        /\ StronglySorted (Js.key_ge App.votes)
             (App.contributions (App.topic_of r))
        /\ forall v,
             filter (fun c => (App.votes c =? v)%Z)
                    (App.contributions (App.topic_of r))
             = filter (fun c => (App.votes c =? v)%Z)
                      (map App.contribution_of (App.row_history r)))
  /\ map App.totalVotes (map App.topic_of Scenario.three_topics)
     = [Js.Finite 15; Js.Finite 30; Js.Finite 5]
  /\ map App.totalVotes (App.report_topics Scenario.three_topics)
     = [Js.Finite 30; Js.Finite 15; Js.Finite 5]
  /\ map App.votes
       (map App.contribution_of (App.row_history Scenario.three_contributions))
     = [3; 10; 5]%Z
  /\ map App.votes
       (App.contributions (App.topic_of Scenario.three_contributions))
     = [10; 5; 3]%Z
  /\ App.totalVotes (App.topic_of Scenario.large_row) = Js.Finite (2 ^ 53).
Proof.
  split; [| split; [| repeat split; reflexivity]].
  - intros allRows. split.
    + unfold App.report_topics. apply sort_perm.
    + intros Hbound.
      exists (Js.sort (Js.by_key_desc Spec.exact_total) allRows).
      split; [apply (report_topics_sorted allRows Hbound) |].
      split; [apply sort_perm |].
      split; [apply (sort_desc Spec.exact_total) |].
      intros v. apply (sort_stable Spec.exact_total).
  - intros r. split; [| split; [| split]].
    + apply totalVotes_sum.
    + apply sort_perm.
    + apply (sort_desc App.votes).
    + intros v. apply (sort_stable App.votes).
Qed.

(** ** What the report shows of votes and participants *)

Section ReportFields.
Import App.

Lemma topic_of_without_voters (r : row) :
  topic_of (Spec.row_without_voters r) = topic_of r.
Proof.
  unfold topic_of; simpl. rewrite map_map.
  assert (E : map (fun e => contribution_of (Spec.without_voters e))
                  (row_history r)
              = map contribution_of (row_history r)).
  { apply map_ext. intros e. reflexivity. }
  rewrite E. reflexivity.
Qed.

Lemma report_topics_without_voters (rows : list row) :
  report_topics (map Spec.row_without_voters rows) = report_topics rows.
Proof.
  unfold report_topics. rewrite map_map.
  rewrite (map_ext _ _ topic_of_without_voters). reflexivity.
Qed.

Lemma downloadReport_without_voters (c : client) (rows : list row)
    (now : string) :
  downloadReport (Spec.client_without_voters c)
                 (map Spec.row_without_voters rows) now
  = downloadReport c rows now.
Proof.
  unfold downloadReport, Spec.client_without_voters; simpl.
  destruct (currentSession c) as [s |]; simpl; [| reflexivity].
  destruct (cs_moderator s) as [m |]; simpl; [| reflexivity].
  f_equal.
  destruct (getSessionMetaKey (cs_id s)); simpl.
  - destruct (stored_meta c) as [meta |]; simpl.
    + destruct (sm_rows meta), (sm_participants meta); simpl;
        rewrite report_topics_without_voters; reflexivity.
    + rewrite report_topics_without_voters; reflexivity.
  - rewrite report_topics_without_voters; reflexivity.
Qed.

(** A contribution of the report is the image of an entry of a row. *)
Lemma report_topics_entries (allRows : list row) (t : report_topic)
    (rc : report_contribution) :
  In t (report_topics allRows) -> In rc (contributions t) ->
  exists r e, In r allRows /\ In e (row_history r)
              /\ rc = contribution_of e.
Proof.
  intros Ht Hrc. unfold report_topics in Ht.
  apply (Permutation_in _ (sort_perm _ _)) in Ht.
  apply in_map_iff in Ht. destruct Ht as [r [<- Hr]].
  unfold topic_of in Hrc. cbn [contributions] in Hrc.
  apply (Permutation_in _ (sort_perm _ _)) in Hrc.
  apply in_map_iff in Hrc. destruct Hrc as [e [<- He]].
  exists r, e. auto.
Qed.

Lemma downloadReport_entries (c : client) (rows : list row) (now : string)
    (payload : report) (t : report_topic) (rc : report_contribution) :
  downloadReport c rows now = Downloaded payload ->
  In t (r_topics payload) -> In rc (contributions t) ->
  exists r e,
    (In r rows
     \/ exists meta l, stored_meta c = Some meta
                       /\ sm_rows meta = Some l /\ In r l)
    /\ In e (row_history r) /\ rc = contribution_of e.
Proof.
  unfold downloadReport.
  destruct (currentSession c) as [s |]; [| discriminate].
  destruct (cs_moderator s) as [m |]; [| discriminate].
  intros H Ht Hrc. injection H as <-. cbn [r_topics] in Ht.
  destruct (getSessionMetaKey (cs_id s)).
  - destruct (stored_meta c) as [meta |] eqn:Em.
    + destruct (sm_rows meta) as [l |] eqn:El.
      * destruct (report_topics_entries l t rc Ht Hrc) as [r [e [Hr [He E]]]].
        exists r, e. split; [right; exists meta, l; auto | auto].
      * destruct (report_topics_entries rows t rc Ht Hrc)
          as [r [e [Hr [He E]]]].
        exists r, e. auto.
    + destruct (report_topics_entries rows t rc Ht Hrc)
        as [r [e [Hr [He E]]]].
      exists r, e. auto.
  - destruct (report_topics_entries rows t rc Ht Hrc) as [r [e [Hr [He E]]]].
    exists r, e. auto.
Qed.

End ReportFields.

(** C6, as stated, fails for the report: the entry of [u1] has the
    participant id [u1@x.com], which is the e-mail the user signed in
    with, and the report prints it as [authorEmail]. *)
Lemma report_shows_participant_id : ~ Spec.report_excludes_participant_ids.
Proof.
  intros H.
  destruct (H Scenario.client_u1 [Scenario.u1_row]
              "2024-01-02T00:00:00.000Z"
              (App.mkReport "s1" "T1" "2024-01-01T00:00:00.000Z" "Moderator"
                 "m@x.com"
                 [App.mkReportPerson "Moderator" "m@x.com"
                    "2024-01-01T00:00:00.000Z";
                  App.mkReportPerson "Ann" "u1@x.com"
                    "2024-01-01T00:01:00.000Z"]
                 "2024-01-02T00:00:00.000Z"
                 [App.topic_of Scenario.u1_row])
              (App.topic_of Scenario.u1_row)
              (App.contribution_of Scenario.u1_entry)
              Scenario.u1_row Scenario.u1_entry)
    as [_ Hemail].
  - reflexivity.
  - left; reflexivity.
  - left; reflexivity.
  - left; reflexivity.
  - left; reflexivity.
  - apply Hemail. reflexivity.
Qed.

(** C6, amended.  The report does not show who voted for what: it is the
    same report when the voters are taken out of every entry of its
    input, and what it shows of an entry, beside its texts and its time,
    is the author's name and e-mail and the count of the votes.  The
    e-mail is the participant id the client gives a user, so the report
    does show participant ids: in the example the report of a topic with
    the entry of [u1], on which [u2] has voted, lists the author [Ann]
    with [u1@x.com] and one vote. *)
Theorem report_shows_counts_not_voters :
  (forall c rows now,
      App.downloadReport (Spec.client_without_voters c)
                         (map Spec.row_without_voters rows) now
      = App.downloadReport c rows now)
  /\ (forall c rows now payload t rc,
        App.downloadReport c rows now = App.Downloaded payload ->
        In t (App.r_topics payload) -> In rc (App.contributions t) ->
        exists r e,
          (In r rows
           \/ exists meta l, App.stored_meta c = Some meta
                             /\ App.sm_rows meta = Some l /\ In r l)
          /\ In e (App.row_history r)
          /\ App.author rc = App.e_author e
          /\ App.authorEmail rc = App.e_email e
          /\ App.votes rc = App.votes_or_0 (App.e_votes e))
  /\ (exists payload,
        App.downloadReport Scenario.client_u1 [Scenario.u1_row]
          "2024-01-02T00:00:00.000Z" = App.Downloaded payload
        /\ map (fun t =>
                  map (fun rc => (App.author rc, App.authorEmail rc,
                                  App.votes rc))
                      (App.contributions t))
               (App.r_topics payload)
           = [[("Ann", "u1@x.com", 1%Z)]])
  /\ App.e_participantId Scenario.u1_entry = "u1@x.com"
  /\ App.e_voters Scenario.u1_entry = ["u2@x.com"].
Proof.
  split; [| split; [| split; [| split; reflexivity]]].
  - apply downloadReport_without_voters.
  - intros c rows now payload t rc H Ht Hrc.
    destruct (downloadReport_entries c rows now payload t rc H Ht Hrc)
      as [r [e [Hr [He ->]]]].
    exists r, e. repeat split; auto.
  - eexists. split; reflexivity.
Qed.

(** * More of the routes and of the client *)

(** ** [ORDER BY] *)

Section OrderBy.
Context {A : Type} (leb : A -> A -> bool).

Lemma insert_ordered_perm (x : A) (l : list A) :
  Permutation (Sql.insert_ordered leb x l) (x :: l).
Proof.
  induction l as [| y l IH]; simpl; [reflexivity |].
  destruct (leb x y); [reflexivity |].
  rewrite IH. apply perm_swap.
Qed.

Lemma order_by_perm (l : list A) : Permutation (Sql.order_by leb l) l.
Proof.
  induction l as [| x l IH]; simpl; [reflexivity |].
  rewrite insert_ordered_perm. constructor. exact IH.
Qed.

Lemma order_by_in (l : list A) (x : A) :
  In x (Sql.order_by leb l) <-> In x l.
Proof.
  split; apply Permutation_in; [| symmetry]; apply order_by_perm.
Qed.

Lemma order_by_length (l : list A) :
  List.length (Sql.order_by leb l) = List.length l.
Proof. apply Permutation_length, order_by_perm. Qed.

Hypothesis leb_total : forall a b, leb a b = true \/ leb b a = true.
Hypothesis leb_trans :
  forall a b c, leb a b = true -> leb b c = true -> leb a c = true.

Lemma insert_ordered_sorted (x : A) (l : list A) :
  StronglySorted (fun a b => leb a b = true) l ->
  StronglySorted (fun a b => leb a b = true) (Sql.insert_ordered leb x l).
Proof.
  induction l as [| y l IH]; simpl; intros Hs.
  - constructor; constructor.
  - inversion Hs as [| ? ? Hl Hy]; subst.
    destruct (leb x y) eqn:E.
    + constructor; [exact Hs |].
      constructor; [exact E |].
      eapply Forall_impl; [| exact Hy].
      intros a Ha. exact (leb_trans x y a E Ha).
    + constructor; [apply IH; exact Hl |].
      eapply Permutation_Forall.
      * symmetry. apply insert_ordered_perm.
      * constructor; [| exact Hy].
        destruct (leb_total x y) as [H | H]; [congruence | exact H].
Qed.

Lemma order_by_sorted (l : list A) :
  StronglySorted (fun a b => leb a b = true) (Sql.order_by leb l).
Proof.
  induction l as [| x l IH]; simpl; [constructor |].
  apply insert_ordered_sorted. exact IH.
Qed.

End OrderBy.

(** ** Creating a session *)

Section Create.
Import Js Store Http Sessions.

Lemma select_session_none (sid : string) (d : db) :
  session_exists sid d = false -> select_session sid d = None.
Proof.
  rewrite session_exists_select.
  destruct (select_session sid d); [discriminate | reflexivity].
Qed.

End Create.

(** X1. A session is created in state [setup] with its moderator enrolled.
    With a name, a moderator id, a session id no session carries and no
    roster row for the pair, [POST /sessions] is answered 201, stores the
    session in state [setup] and one roster row for the moderator with
    status [joined] (with [Moderator] and the moderator id as default name
    and email), touches no other table and keeps the constraints; the new
    session refuses a vote that names a contribution and a voter with
    [VotingNotEnabled] for [setup].  Without a name or a moderator id the answer is 400, with
    a session id that exists it is 500, and in both cases nothing is
    stored. *)
Theorem createSession_enrolls_moderator :
  forall sessionId now name moderatorId moderatorName moderatorEmail d,
    (name <> EmptyString -> moderatorId <> EmptyString ->
     Store.session_exists sessionId d = false ->
     Store.select_participant sessionId moderatorId d = None ->
     let call := Sessions.post_sessions sessionId now (Some name)
                   (Some moderatorId) moderatorName moderatorEmail d in
     fst call = Http.ok 201 None
                  (Http.SessionData sessionId name moderatorId "setup" now)
     /\ Store.select_session sessionId (snd call)
        = Some (Store.mkSession sessionId name moderatorId "setup" now)
     /\ Store.participants_for (sessionId, moderatorId) (snd call)
        = [Store.mkParticipant sessionId moderatorId
             (Js.or_default moderatorName "Moderator")
             (Js.or_default moderatorEmail moderatorId) "joined" now None]
     /\ Store.topics (snd call) = Store.topics d
     /\ Store.contributions (snd call) = Store.contributions d
     /\ Store.votes (snd call) = Store.votes d
     /\ (Store.db_ok d = true -> Store.db_ok (snd call) = true)
     /\ (forall voteId now' cid voter,
            cid <> EmptyString -> voter <> EmptyString ->
            Votes.post_votes voteId now' sessionId (Some cid) (Some voter)
              (snd call)
            = (Errors.VotingNotEnabled "setup", snd call)))
    /\ (forall n m,
          Js.truthy n = false \/ Js.truthy m = false ->
          Sessions.post_sessions sessionId now n m moderatorName
            moderatorEmail d
          = (Http.failure 400 "Missing required fields: name, moderatorId",
             d))
    /\ (name <> EmptyString -> moderatorId <> EmptyString ->
        Store.session_exists sessionId d = true ->
        Http.status
          (fst (Sessions.post_sessions sessionId now (Some name)
                  (Some moderatorId) moderatorName moderatorEmail d)) = 500
        /\ snd (Sessions.post_sessions sessionId now (Some name)
                  (Some moderatorId) moderatorName moderatorEmail d) = d).
Proof.
  intros sessionId now name moderatorId moderatorName moderatorEmail d.
  split; [| split].
  - intros Hn Hm Hfresh Hrow call.
    set (s := Store.mkSession sessionId name moderatorId "setup" now).
    set (p := Store.mkParticipant sessionId moderatorId
                (Js.or_default moderatorName "Moderator")
                (Js.or_default moderatorEmail moderatorId) "joined" now None).
    set (d1 := Store.set_sessions d (Store.sessions d ++ [s])).
    assert (Hs1 : Store.select_session sessionId d1 = Some s).
    { unfold Store.select_session, d1; simpl. apply find_snoc_new.
      - apply select_session_none. exact Hfresh.
      - apply String.eqb_refl. }
    assert (E : call
                = (Http.ok 201 None
                     (Http.SessionData sessionId name moderatorId "setup" now),
                   Store.set_participants d1
                     (Store.session_participants d1 ++ [p]))).
    { unfold call, Sessions.post_sessions.
      rewrite (truthy_some name Hn), (truthy_some moderatorId Hm).
      rewrite (or_default_some name _ Hn), (or_default_some moderatorId _ Hm).
      simpl negb. simpl orb. cbv iota.
      unfold Store.insert_session. simpl Store.session_id. rewrite Hfresh.
      fold s. fold d1. fold p.
      rewrite (insert_participant_new p d1 s Hs1 Hrow). reflexivity. }
    rewrite E. simpl.
    split; [reflexivity |]. split; [exact Hs1 |].
    split; [| split; [reflexivity | split; [reflexivity |
             split; [reflexivity | split]]]].
    + unfold Store.participants_for; simpl. rewrite filter_app.
      unfold Store.select_participant in Hrow.
      rewrite (find_none_filter _ _ Hrow). simpl.
      unfold Store.participant_key; simpl.
      rewrite (proj2 (pair_eqb_eq (sessionId, moderatorId)
                        (sessionId, moderatorId)) eq_refl).
      reflexivity.
    + intros Hok.
      assert (H := handle_ok
                     (Api.CreateSession sessionId now (Some name)
                        (Some moderatorId) moderatorName moderatorEmail)
                     d Hok).
      simpl in H. fold call in H. rewrite E in H. exact H.
    + intros voteId now' cid voter Hc Hv.
      apply post_votes_refused.
      rewrite (vote_checks_given sessionId cid voter _ Hc Hv).
      unfold Store.select_session at 1; simpl.
      unfold Store.select_session in Hs1; simpl in Hs1. rewrite Hs1.
      reflexivity.
  - intros n m H. unfold Sessions.post_sessions.
    destruct H as [H | H]; rewrite H; simpl; [| rewrite orb_true_r];
      reflexivity.
  - intros Hn Hm Hex. unfold Sessions.post_sessions.
    rewrite (truthy_some name Hn), (truthy_some moderatorId Hm).
    simpl negb. simpl orb. cbv iota.
    unfold Store.insert_session. simpl Store.session_id. rewrite Hex.
    split; reflexivity.
Qed.

Lemma createSession_enrolls_moderator_witness :
  "T1" <> EmptyString /\ "m@x.com" <> EmptyString
  /\ Store.select_session "s1"
       (snd (Sessions.post_sessions "s1" "2024-01-01T00:00:00.000Z"
               (Some "T1") (Some "m@x.com") None None Store.empty_db))
     = Some (Store.mkSession "s1" "T1" "m@x.com" "setup"
               "2024-01-01T00:00:00.000Z").
Proof.
  assert (H1 : "T1" <> EmptyString) by discriminate.
  assert (H2 : "m@x.com" <> EmptyString) by discriminate.
  split; [exact H1 | split; [exact H2 |]].
  apply (proj1 (createSession_enrolls_moderator "s1"
                  "2024-01-01T00:00:00.000Z" "T1" "m@x.com" None None
                  Store.empty_db) H1 H2 eq_refl eq_refl).
Defined.

(** ** Adding a participant *)

Section AddParticipant.
Import Js Store Http Sessions.

Variables (sid pid : string) (d : db) (s : session).
Hypothesis pid_given : pid <> EmptyString.
Hypothesis session_found : select_session sid d = Some s.

Lemma post_participants_known (now : string) (dn em : option string)
    (p : participant) :
  select_participant sid pid d = Some p ->
  post_participants now sid (Some pid) dn em d
  = (failure 409 "Participant already in session", d).
Proof.
  intros Hp. unfold post_participants.
  rewrite (truthy_some pid pid_given), (or_default_some pid _ pid_given).
  simpl. rewrite session_found, Hp. reflexivity.
Qed.

Lemma post_participants_new (now : string) (dn em : option string) :
  select_participant sid pid d = None ->
  post_participants now sid (Some pid) dn em d
  = (ok 201 None
        (ParticipantData sid pid (or_default dn pid) (or_default em pid)
           "joined" now),
     set_participants d
       (session_participants d
        ++ [mkParticipant sid pid (or_default dn pid) (or_default em pid)
              "joined" now None])).
Proof.
  intros Hp. unfold post_participants.
  rewrite (truthy_some pid pid_given), (or_default_some pid _ pid_given).
  simpl. rewrite session_found, Hp.
  rewrite (insert_participant_new _ d s); [reflexivity | | ]; assumption.
Qed.

End AddParticipant.

(** X2. [POST /participants] adds a participant once and, unlike [join],
    refuses the second time and does not look at the session state.  For
    an existing session, in whatever state (also [final]), a participant
    not yet on the roster is stored with status [joined] and the
    participant id as default name and email, answer 201; a participant on
    the roster is answered 409 with the store unchanged.  After the
    addition the same request is answered 409, and a [join] of the
    participant is answered 200 [Already joined session] when the session
    is not [final]. *)
Theorem addParticipant_once :
  forall now sid pid dn em d s,
    pid <> EmptyString ->
    Store.select_session sid d = Some s ->
    (forall p,
        Store.select_participant sid pid d = Some p ->
        Sessions.post_participants now sid (Some pid) dn em d
        = (Http.failure 409 "Participant already in session", d))
    /\ (Store.select_participant sid pid d = None ->
        let call := Sessions.post_participants now sid (Some pid) dn em d in
        fst call
        = Http.ok 201 None
            (Http.ParticipantData sid pid (Js.or_default dn pid)
               (Js.or_default em pid) "joined" now)
        /\ Store.participants_for (sid, pid) (snd call)
           = [Store.mkParticipant sid pid (Js.or_default dn pid)
                (Js.or_default em pid) "joined" now None]
        /\ (forall now2 dn2 em2,
               Sessions.post_participants now2 sid (Some pid) dn2 em2
                 (snd call)
               = (Http.failure 409 "Participant already in session",
                  snd call))
        /\ (Store.session_state s <> "final" ->
            forall now2 dn2 em2,
              Sessions.post_join now2 sid (Some pid) dn2 em2 (snd call)
              = (Http.ok 200 (Some "Already joined session")
                   (Http.AlreadyJoinedData sid (Store.session_name s)
                      (Store.session_state s) pid (Js.or_default dn2 pid)
                      "joined"),
                 snd call))).
Proof.
  intros now sid pid dn em d s Hp Hs. split.
  - intros p Hrow. apply (post_participants_known sid pid d s Hp Hs now dn em p
                            Hrow).
  - intros Hnone call.
    set (row := Store.mkParticipant sid pid (Js.or_default dn pid)
                  (Js.or_default em pid) "joined" now None).
    assert (E := post_participants_new sid pid d s Hp Hs now dn em Hnone).
    fold call in E. fold row in E.
    assert (Hs1 : Store.select_session sid (snd call) = Some s).
    { rewrite E. exact Hs. }
    assert (Hrow1 : Store.select_participant sid pid (snd call) = Some row).
    { rewrite E. unfold Store.select_participant; simpl.
      apply find_snoc_new; [exact Hnone |].
      apply pair_eqb_eq. reflexivity. }
    split; [rewrite E; reflexivity |]. split; [| split].
    + rewrite E. unfold Store.participants_for; simpl. rewrite filter_app.
      unfold Store.select_participant in Hnone.
      rewrite (find_none_filter _ _ Hnone). simpl.
      unfold Store.participant_key; simpl.
      rewrite (proj2 (pair_eqb_eq (sid, pid) (sid, pid)) eq_refl).
      reflexivity.
    + intros now2 dn2 em2.
      apply (post_participants_known sid pid (snd call) s Hp Hs1 now2 dn2 em2
               row Hrow1).
    + intros Hnf now2 dn2 em2.
      apply (post_join_known sid pid (snd call) s Hp Hs1 Hnf now2 dn2 em2 row
               Hrow1).
Qed.

Lemma addParticipant_once_witness :
  "u2@x.com" <> EmptyString
  /\ fst (Sessions.post_participants "2024-01-01T00:05:00.000Z" "s1"
            (Some "u2@x.com") None None (Scenario.joined "final"))
     = Http.ok 201 None
         (Http.ParticipantData "s1" "u2@x.com" "u2@x.com" "u2@x.com" "joined"
            "2024-01-01T00:05:00.000Z").
Proof.
  assert (H : "u2@x.com" <> EmptyString) by discriminate.
  split; [exact H |].
  apply (proj2 (addParticipant_once "2024-01-01T00:05:00.000Z" "s1" "u2@x.com"
                  None None (Scenario.joined "final")
                  (Scenario.the_session "final") H eq_refl) eq_refl).
Defined.

(** ** Deleting a session *)

Section Delete.
Import Js Store Http Sessions.

Lemma existsb_none {A : Type} (f : A -> bool) (l : list A) :
  existsb f l = false <-> forall x, In x l -> f x = false.
Proof.
  split.
  - intros H x Hx. destruct (f x) eqn:E; [| reflexivity].
    rewrite <- H. symmetry. apply existsb_exists. exists x; auto.
  - intros H. destruct (existsb f l) eqn:E; [| reflexivity].
    apply existsb_exists in E. destruct E as [x [Hx E]].
    rewrite (H x Hx) in E. discriminate.
Qed.

Lemma find_filtered_out {A : Type} (f : A -> bool) (l : list A) :
  find f (filter (fun x => negb (f x)) l) = None.
Proof.
  induction l as [| x l IH]; simpl; [reflexivity |].
  destruct (f x) eqn:E; simpl; [exact IH |]. rewrite E. exact IH.
Qed.

Variables (sid : string) (d : db).

Local Abbreviation after_delete := (delete_session_rows sid d).

Lemma deleted_session_gone : select_session sid after_delete = None.
Proof.
  unfold select_session, delete_session_rows,
    delete_session_row; simpl.
  apply (find_filtered_out (fun s => session_id s =? sid)).
Qed.

Lemma deleted_topics_gone (t : topic) :
  In t (topics after_delete) -> In t (topics d) /\ t_session_id t <> sid.
Proof.
  unfold delete_session_rows, delete_session_row,
    delete_topics_where, delete_contributions_where,
    delete_participants_of_session, delete_votes_of_session; simpl.
  intros H. apply filter_In in H. destruct H as [H _].
  apply filter_In in H. destruct H as [H E].
  split; [exact H |]. apply negb_true_iff, String.eqb_neq in E. exact E.
Qed.

Lemma deleted_participants_gone (p : participant) :
  In p (session_participants after_delete) ->
  In p (session_participants d) /\ p_session_id p <> sid.
Proof.
  unfold delete_session_rows, delete_session_row,
    delete_topics_where, delete_contributions_where,
    delete_participants_of_session, delete_votes_of_session; simpl.
  intros H. apply filter_In in H. destruct H as [H _].
  apply filter_In in H. destruct H as [H E].
  split; [exact H |]. apply negb_true_iff, String.eqb_neq in E. exact E.
Qed.

Lemma deleted_contributions_gone (c : contribution) :
  In c (contributions after_delete) ->
  In c (contributions d) /\ c_session_id c <> sid.
Proof.
  unfold delete_session_rows, delete_session_row,
    delete_topics_where, delete_contributions_where,
    delete_participants_of_session, delete_votes_of_session; simpl.
  intros H. repeat (apply filter_In in H; destruct H as [H ?]).
  split; [exact H |].
  match goal with
  | E : negb (c_session_id c =? sid) = true |- _ =>
      apply negb_true_iff, String.eqb_neq in E; exact E
  end.
Qed.

Lemma deleted_votes_gone (v : vote) :
  In v (votes after_delete) ->
  In v (votes d)
  /\ forall c, In c (contributions d) -> c_session_id c = sid ->
               v_contribution_id v <> contribution_id c.
Proof.
  unfold delete_session_rows, delete_session_row,
    delete_topics_where, delete_contributions_where,
    delete_participants_of_session, delete_votes_of_session; simpl.
  intros H. repeat (apply filter_In in H; destruct H as [H ?]).
  split; [exact H |].
  intros c Hc Hs Hv.
  match goal with
  | E : negb (existsb (fun c0 => (contribution_id c0 =? v_contribution_id v)
                                 && (c_session_id c0 =? sid))
                      (contributions d)) = true |- _ =>
      apply negb_true_iff in E;
      rewrite existsb_none in E; specialize (E c Hc)
  end.
  rewrite Hv, Hs, !String.eqb_refl in *. discriminate.
Qed.

Lemma kept_session (x : session) :
  In x (sessions d) -> session_id x <> sid -> In x (sessions after_delete).
Proof.
  unfold delete_session_rows, delete_session_row,
    delete_topics_where, delete_contributions_where,
    delete_participants_of_session, delete_votes_of_session; simpl.
  intros H E. apply filter_In. split; [exact H |].
  apply negb_true_iff, String.eqb_neq. exact E.
Qed.

Lemma kept_topic (t : topic) :
  In t (topics d) -> t_session_id t <> sid -> In t (topics after_delete).
Proof.
  unfold delete_session_rows, delete_session_row,
    delete_topics_where, delete_contributions_where,
    delete_participants_of_session, delete_votes_of_session; simpl.
  intros H E. apply String.eqb_neq in E.
  repeat (apply filter_In; split); rewrite ?E; auto.
Qed.

Lemma kept_participant (p : participant) :
  In p (session_participants d) -> p_session_id p <> sid ->
  In p (session_participants after_delete).
Proof.
  unfold delete_session_rows, delete_session_row,
    delete_topics_where, delete_contributions_where,
    delete_participants_of_session, delete_votes_of_session; simpl.
  intros H E. apply String.eqb_neq in E.
  repeat (apply filter_In; split); rewrite ?E; auto.
Qed.

Lemma no_topic_of_session (c : contribution) (l : list topic) :
  Facts.stays sid d c -> (forall t, In t l -> In t (topics d)) ->
  negb (existsb (fun t => topic_id t =? c_topic_id c)
                (filter (fun t => t_session_id t =? sid) l)) = true.
Proof.
  intros [_ Hc] Hl. apply negb_true_iff, existsb_none.
  intros t Ht. apply filter_In in Ht. destruct Ht as [Ht E].
  apply String.eqb_eq in E. apply String.eqb_neq.
  apply Hc; [apply Hl; exact Ht | exact E].
Qed.

Lemma kept_contribution (c : contribution) :
  In c (contributions d) -> Facts.stays sid d c ->
  In c (contributions after_delete).
Proof.
  unfold delete_session_rows, delete_session_row,
    delete_topics_where, delete_contributions_where,
    delete_participants_of_session, delete_votes_of_session; simpl.
  intros H Hc. assert (E := proj1 Hc). apply String.eqb_neq in E.
  repeat (apply filter_In; split); rewrite ?E; auto.
  - apply (no_topic_of_session c _ Hc). auto.
  - apply (no_topic_of_session c _ Hc).
    intros t Ht. apply filter_In in Ht. tauto.
Qed.

Lemma kept_vote (v : vote) :
  In v (votes d) ->
  (forall c, In c (contributions d) ->
             contribution_id c = v_contribution_id v ->
             Facts.stays sid d c) ->
  In v (votes after_delete).
Proof.
  unfold delete_session_rows, delete_session_row,
    delete_topics_where, delete_contributions_where,
    delete_participants_of_session, delete_votes_of_session; simpl.
  intros H Hv.
  repeat (apply filter_In; split); auto;
    apply negb_true_iff, existsb_none; intros c Hc;
    repeat (apply filter_In in Hc; destruct Hc as [Hc ?]);
    (destruct (contribution_id c =? v_contribution_id v) eqn:E;
     [| reflexivity]);
    apply String.eqb_eq in E; assert (Hst := Hv c Hc E);
    assert (Hs := proj1 Hst); apply String.eqb_neq in Hs.
  - simpl. exact Hs.
  - congruence.
  - assert (K := no_topic_of_session c (topics d) Hst (fun t Ht => Ht)).
    apply negb_true_iff in K. congruence.
  - assert (K := no_topic_of_session c
                   (filter (fun t => negb (t_session_id t =? sid))
                           (topics d))
                   Hst
                   (fun t Ht => proj1 (proj1 (filter_In _ _ _) Ht))).
    apply negb_true_iff in K. congruence.
  - congruence.
Qed.

End Delete.

(** X3. Deleting a session removes the session and everything that
    belongs to it, and nothing else.  For an existing session the answer is
    200; afterwards the session is not found, no topic, roster row or
    contribution of the session is left, and no vote on one of its
    contributions; sessions, topics and roster rows of other sessions stay,
    and so do the contributions that are neither of the session nor of one
    of its topics, with the votes on them.  A second delete, like a delete
    of an unknown session, is answered 404 and changes nothing. *)
Theorem deleteSession_cascades :
  forall sid d,
    (forall s,
        Store.select_session sid d = Some s ->
        let call := Sessions.delete_session sid d in
        fst call = Http.ok 200 (Some "Session deleted successfully")
                     Http.NoData
        /\ Store.select_session sid (snd call) = None
        /\ (forall t, In t (Store.topics (snd call)) ->
                      Store.t_session_id t <> sid)
        /\ (forall p, In p (Store.session_participants (snd call)) ->
                      Store.p_session_id p <> sid)
        /\ (forall c, In c (Store.contributions (snd call)) ->
                      Store.c_session_id c <> sid)
        /\ (forall v c, In v (Store.votes (snd call)) ->
                        In c (Store.contributions d) ->
                        Store.c_session_id c = sid ->
                        Store.v_contribution_id v <> Store.contribution_id c)
        /\ (forall x, In x (Store.sessions d) -> Store.session_id x <> sid ->
                      In x (Store.sessions (snd call)))
        /\ (forall t, In t (Store.topics d) -> Store.t_session_id t <> sid ->
                      In t (Store.topics (snd call)))
        /\ (forall p, In p (Store.session_participants d) ->
                      Store.p_session_id p <> sid ->
                      In p (Store.session_participants (snd call)))
        /\ (forall c, In c (Store.contributions d) -> Facts.stays sid d c ->
                      In c (Store.contributions (snd call)))
        /\ (forall v, In v (Store.votes d) ->
                      (forall c, In c (Store.contributions d) ->
                                 Store.contribution_id c
                                 = Store.v_contribution_id v ->
                                 Facts.stays sid d c) ->
                      In v (Store.votes (snd call)))
        /\ Sessions.delete_session sid (snd call)
           = (Errors.SessionNotFound, snd call))
    /\ (Store.select_session sid d = None ->
        Sessions.delete_session sid d = (Errors.SessionNotFound, d)).
Proof.
  intros sid d. split.
  - intros s Hs call.
    assert (E : call = (Http.ok 200 (Some "Session deleted successfully")
                          Http.NoData,
                        Store.delete_session_rows sid d)).
    { unfold call, Sessions.delete_session. rewrite Hs. reflexivity. }
    rewrite E. simpl.
    split; [reflexivity |].
    split; [apply deleted_session_gone |].
    split; [intros t Ht; apply (deleted_topics_gone sid d t Ht) |].
    split; [intros p Hp; apply (deleted_participants_gone sid d p Hp) |].
    split; [intros c Hc; apply (deleted_contributions_gone sid d c Hc) |].
    split; [intros v c Hv; apply (deleted_votes_gone sid d v Hv) |].
    split; [apply kept_session |].
    split; [apply kept_topic |].
    split; [apply kept_participant |].
    split; [apply kept_contribution |].
    split; [apply kept_vote |].
    unfold Sessions.delete_session. rewrite deleted_session_gone.
    reflexivity.
  - intros Hn. unfold Sessions.delete_session. rewrite Hn. reflexivity.
Qed.

Lemma deleteSession_cascades_witness :
  Store.select_session "s1" Examples.two_sessions
  = Some (Scenario.the_session "voting")
  /\ snd (Sessions.delete_session "s1" Examples.two_sessions)
     = Store.mkDb [Examples.other_session] [Examples.other_topic]
         [Examples.other_participant] [Examples.other_contribution] []
  /\ In Examples.other_contribution
        (Store.contributions
           (snd (Sessions.delete_session "s1" Examples.two_sessions))).
Proof.
  split; [reflexivity | split; [reflexivity |]].
  assert (H := proj1 (deleteSession_cascades "s1" Examples.two_sessions)
                 (Scenario.the_session "voting") eq_refl).
  apply H.
  - right; left; reflexivity.
  - split; [discriminate |].
    intros t [<- | [<- | []]]; simpl; intro; discriminate.
Defined.

(** ** The count a vote returns *)

Section VoteCount.
Import Js Store Http Votes.

Lemma count_votes_snoc (cid : string) (d : db) (v : vote) :
  count_votes cid (set_votes d (votes d ++ [v]))
  = if v_contribution_id v =? cid then S (count_votes cid d)
    else count_votes cid d.
Proof.
  unfold count_votes; simpl. rewrite filter_app, length_app. simpl.
  destruct (v_contribution_id v =? cid); simpl; lia.
Qed.

Lemma vote_write_answer (voteId now cid voter : string) (d : db)
    (r : response) (d' : db) :
  vote_write voteId now cid voter d = (r, d') -> success r = true ->
  r = mkResponse 200 true None (Some "Vote recorded successfully") None
        (VoteData cid (count_votes cid d')).
Proof.
  unfold vote_write.
  destruct (insert_vote _ d) as [d1 | err].
  - intros H _. injection H as <- <-. reflexivity.
  - destruct (includes _ _); intros H Hs; injection H as <- _;
      discriminate Hs.
Qed.

End VoteCount.

(** X4. A vote that is accepted returns the live count.  The
    [newVoteCount] of a successful [castVote] is the number of votes the
    contribution had plus one; the count route gives the same number
    right after; the counts of all other contributions, and all other
    tables, are as before. *)
Theorem castVote_returns_live_count :
  forall voteId now sid cid voter d r d',
    cid <> EmptyString -> voter <> EmptyString ->
    Votes.post_votes voteId now sid (Some cid) (Some voter) d = (r, d') ->
    Http.success r = true ->
    r = Http.mkResponse 200 true None (Some "Vote recorded successfully")
          None (Http.VoteData cid (S (Store.count_votes cid d)))
    /\ Votes.get_votes cid d'
       = Http.mkResponse 200 true None None None
           (Http.VoteCountData cid (S (Store.count_votes cid d)))
    /\ (forall other, other <> cid ->
          Store.count_votes other d' = Store.count_votes other d)
    /\ Store.contributions d' = Store.contributions d
    /\ Store.session_participants d' = Store.session_participants d
    /\ Store.sessions d' = Store.sessions d.
Proof.
  intros voteId now sid cid voter d r d' Hc Hv Hcall Hs.
  destruct (post_votes_success voteId now sid cid voter d Hc Hv r d' Hcall Hs)
    as [_ Hd].
  assert (Hcount : Store.count_votes cid d' = S (Store.count_votes cid d)).
  { rewrite Hd, count_votes_snoc. simpl. rewrite String.eqb_refl.
    reflexivity. }
  assert (Hr : r = Http.mkResponse 200 true None
                     (Some "Vote recorded successfully") None
                     (Http.VoteData cid (Store.count_votes cid d'))).
  { unfold Votes.post_votes in Hcall.
    destruct (Votes.vote_checks sid (Some cid) (Some voter) d) as [r0 |] eqn:E.
    - injection Hcall as <- _.
      rewrite (vote_checks_refuse sid cid voter d Hc Hv r0 E) in Hs.
      discriminate.
    - rewrite (or_default_some cid _ Hc), (or_default_some voter _ Hv)
        in Hcall.
      apply (vote_write_answer voteId now cid voter d r d' Hcall Hs). }
  split; [rewrite Hr, Hcount; reflexivity |].
  split; [unfold Votes.get_votes; rewrite Hcount; reflexivity |].
  split; [| rewrite Hd; repeat split].
  intros other Ho. rewrite Hd, count_votes_snoc. simpl.
  apply not_eq_sym in Ho. apply String.eqb_neq in Ho. rewrite Ho.
  reflexivity.
Qed.

Lemma castVote_returns_live_count_witness :
  "c1" <> EmptyString /\ "u3@x.com" <> EmptyString
  /\ fst (Votes.post_votes "v2" "2024-01-01T00:04:00.000Z" "s1" (Some "c1")
            (Some "u3@x.com") (Scenario.voted "voting"))
     = Http.mkResponse 200 true None (Some "Vote recorded successfully")
         None (Http.VoteData "c1" 2).
Proof.
  assert (H1 : "c1" <> EmptyString) by discriminate.
  assert (H2 : "u3@x.com" <> EmptyString) by discriminate.
  split; [exact H1 | split; [exact H2 |]].
  apply (castVote_returns_live_count "v2" "2024-01-01T00:04:00.000Z" "s1"
           "c1" "u3@x.com" (Scenario.voted "voting") _ _ H1 H2
           (surjective_pairing _) eq_refl).
Defined.

(** ** The progress counts of the status route *)

Section Progress.
Import Js Store Http Queries.

Lemma filter_split_length {A : Type} (f : A -> bool) (l : list A) :
  List.length (filter f l) + List.length (filter (fun x => negb (f x)) l)
  = List.length l.
Proof.
  induction l as [| x l IH]; simpl; [reflexivity |].
  destruct (f x); simpl; lia.
Qed.

(** The three counts of the status route add up. *)
Lemma status_counts_add_up (q : string) (d : db) (st : status_data) :
  get_status q d = Reply 200 st ->
  submitted st + pending st = total st
  /\ List.length (st_participants st) = total st
  /\ total st
     = List.length (filter (fun p => p_session_id p =? q)
                           (session_participants d)).
Proof.
  unfold get_status. destruct (select_session q d); [| discriminate].
  intros H; injection H as <-; simpl.
  rewrite filter_split_length, length_map. unfold select_roster.
  rewrite order_by_length. auto.
Qed.

(** A roster row that a request leaves in the store was there before, or
    has the status [joined]. *)
Lemma insert_participant_roster (p q : participant) (d d' : db) :
  insert_participant p d = Done d' ->
  In q (session_participants d') ->
  In q (session_participants d) \/ q = p.
Proof.
  unfold insert_participant.
  destruct (existsb _ _); [discriminate |].
  destruct (negb _); [discriminate |].
  intros H; injection H as <-. simpl. intros Hq.
  apply in_app_or in Hq. destruct Hq as [Hq | [Hq | []]]; auto.
Qed.

Lemma handle_roster (r : Api.request) (d : db) (q : participant) :
  In q (session_participants (snd (Api.handle r d))) ->
  In q (session_participants d) \/ p_status q = "joined".
Proof.
  destruct r; simpl.
  - unfold Sessions.post_sessions.
    destruct (negb _ || negb _); [auto |].
    destruct (insert_session _ d) as [d1 | err] eqn:E1; [| auto].
    assert (Hd1 : session_participants d1 = session_participants d).
    { unfold insert_session in E1.
      destruct (session_exists _ d); [discriminate |].
      injection E1 as <-. reflexivity. }
    destruct (insert_participant _ d1) as [d2 | err] eqn:E2; simpl.
    + intros Hq.
      destruct (insert_participant_roster _ q d1 d2 E2 Hq) as [H | ->].
      * left. rewrite <- Hd1. exact H.
      * right. reflexivity.
    + rewrite Hd1. auto.
  - unfold Sessions.post_topics.
    destruct (negb _ || negb _); [auto |].
    destruct (select_session sessionId d); [| auto].
    unfold insert_topic.
    destruct (topic_exists _ d); [auto |].
    destruct (negb _); simpl; auto.
  - unfold Sessions.post_participants.
    destruct (negb _); [auto |].
    destruct (select_session sessionId d); [| auto].
    destruct (select_participant _ _ d); [auto |].
    destruct (insert_participant _ d) as [d1 | err] eqn:E1; simpl; [| auto].
    intros Hq.
    destruct (insert_participant_roster _ q d d1 E1 Hq) as [H | ->];
      [left; exact H | right; reflexivity].
  - unfold Sessions.patch_state.
    destruct (negb _ || negb _); [auto |].
    destruct (select_session sessionId d); simpl; auto.
  - unfold Sessions.post_join.
    destruct (negb _); [auto |].
    destruct (select_session sessionId d) as [s |]; [| auto].
    destruct (session_state s =? "final"); [auto |].
    destruct (select_participant _ _ d); [auto |].
    destruct (insert_participant _ d) as [d1 | err] eqn:E1; simpl; [| auto].
    intros Hq.
    destruct (insert_participant_roster _ q d d1 E1 Hq) as [H | ->];
      [left; exact H | right; reflexivity].
  - unfold Sessions.delete_session.
    destruct (select_session sessionId d); simpl; [| auto].
    intros Hq. left.
    repeat (apply filter_In in Hq; destruct Hq as [Hq _]). exact Hq.
  - rewrite post_contributions_store. auto.
  - unfold Votes.post_votes.
    destruct (Votes.vote_checks _ _ _ d); [auto |].
    unfold Votes.vote_write, insert_vote.
    destruct (existsb _ _); [destruct (includes _ _); auto |].
    destruct (existsb _ _); [destruct (includes _ _); auto |].
    destruct (negb _); [destruct (includes _ _); auto |].
    simpl. auto.
Qed.

Lemma run_all_joined (rs : list Api.request) :
  forall d, Facts.all_joined d -> Facts.all_joined (Api.run rs d).
Proof.
  unfold Api.run. induction rs as [| r rs IH]; simpl; intros d H.
  - exact H.
  - apply IH. intros q Hq.
    destruct (handle_roster r d q Hq) as [Hin | Hj]; [apply H; exact Hin |].
    exact Hj.
Qed.

Lemma all_joined_none_submitted (q : string) (d : db) (st : status_data) :
  Facts.all_joined d ->
  get_status q d = Reply 200 st -> submitted st = 0.
Proof.
  intros H. unfold get_status.
  destruct (select_session q d); [| discriminate].
  intros E; injection E as <-. cbn [submitted].
  assert (N : forall l : list participant,
             (forall p, In p l -> p_status p = "joined") ->
             filter (fun p => p_status p =? "submitted") l = []).
  { induction l as [| p l IH]; simpl; intros Hl; [reflexivity |].
    rewrite (Hl p (or_introl eq_refl)). simpl.
    apply IH. intros p' Hp'. apply Hl. right. exact Hp'. }
  rewrite N; [reflexivity |].
  intros p Hp. unfold select_roster in Hp.
  apply order_by_in in Hp. apply filter_In in Hp. apply H. apply Hp.
Qed.

End Progress.

(** X6. The progress counts.  In every answer of the status route the
    counts [submitted] and [pending] add up to [total], which is the number
    of roster rows of the session and of participants listed.  No request
    moves a participant to [submitted]: the routes of [sessions.js] write
    the status [joined] only, and [submitAll], whose update of the roster
    would set it, runs no statement.  So from a store in which every
    participant is [joined], after any sequence of requests the status
    route reports no one as submitted and everyone as pending; in the
    scenario that is so after a well-formed submission of [u1]. *)
Theorem status_counts_never_submitted :
  (forall q d st,
      Queries.get_status q d = Queries.Reply 200 st ->
      Queries.submitted st + Queries.pending st = Queries.total st
      /\ Queries.total st
         = List.length (filter (fun p => Store.p_session_id p =? q)
                               (Store.session_participants d))
      /\ List.length (Queries.st_participants st) = Queries.total st)
  /\ (forall d rs q st,
        Facts.all_joined d ->
        Queries.get_status q (Api.run rs d) = Queries.Reply 200 st ->
        Queries.submitted st = 0
        /\ Queries.pending st = Queries.total st
        /\ forall p, In p (Queries.st_participants st) ->
                     Queries.sp_status p = "joined")
  /\ Facts.all_joined (Scenario.joined "published")
  /\ Queries.get_status "s1"
       (Api.run
          [Api.SubmitAll Scenario.batch_ids Scenario.batch_clock "s1"
             (Some "u1@x.com")
             (Some [Contributions.mkSubmission (Some "t1") (Some "A") None
                      None None None])]
          (Scenario.joined "published"))
     = Queries.Reply 200
         (Queries.mkStatus "s1" "T1" "published" 2 0 2
            [Queries.mkStatusParticipant "m@x.com" "Moderator" "m@x.com"
               "joined" "2024-01-01T00:00:00.000Z" None;
             Queries.mkStatusParticipant "u1@x.com" "Ann" "u1@x.com"
               "joined" "2024-01-01T00:01:00.000Z" None]).
Proof.
  split; [| split; [| split; [| reflexivity]]].
  - intros q d st Hst.
    destruct (status_counts_add_up q d st Hst) as [Hsum [Hlen Htot]].
    auto.
  - intros d rs q st Hj Hst.
    assert (Hj' := run_all_joined rs d Hj).
    assert (H0 := all_joined_none_submitted q _ st Hj' Hst).
    destruct (status_counts_add_up q _ st Hst) as [Hsum _].
    split; [exact H0 |]. split; [lia |].
    intros p Hp. unfold Queries.get_status in Hst.
    destruct (Store.select_session q (Api.run rs d)); [| discriminate].
    injection Hst as <-. cbn [Queries.st_participants] in Hp.
    apply in_map_iff in Hp. destruct Hp as [x [<- Hx]]. simpl.
    unfold Queries.select_roster in Hx.
    apply order_by_in in Hx. apply filter_In in Hx. apply Hj'. apply Hx.
  - intros p Hp. simpl in Hp.
    destruct Hp as [<- | [<- | []]]; reflexivity.
Qed.

(** ** Requests that do not read the roster *)

Section Roster.
Import Js Store Http.

Variable l : list participant.

Lemma insert_vote_roster (v : vote) (d : db) :
  insert_vote v (Facts.with_roster d l)
  = match insert_vote v d with
    | Done d1 => Done (Facts.with_roster d1 l)
    | Raised e => Raised e
    end.
Proof.
  unfold insert_vote, Facts.with_roster, set_participants, set_votes,
    contribution_exists; simpl.
  destruct (existsb (fun w => vote_id w =? vote_id v) (votes d));
    [reflexivity |].
  destruct (existsb (fun w => pair_eqb (vote_key w) (vote_key v)) (votes d));
    [reflexivity |].
  destruct (existsb (fun c => contribution_id c =? v_contribution_id v)
              (contributions d)); reflexivity.
Qed.

End Roster.

(** X7. Voting and submitting never read the roster.  With the roster of
    the store replaced by any other (the empty one included), [castVote]
    gives the same answer and writes the same vote, and [submitAll] gives
    the same answer and leaves the same contributions, votes, topics and
    sessions: a caller who never joined the session is treated like one
    who did. *)
Theorem roster_never_consulted :
  forall (l : list Store.participant) (d : Store.db),
    (forall voteId now sid cid voter,
       Votes.post_votes voteId now sid cid voter (Facts.with_roster d l)
       = (fst (Votes.post_votes voteId now sid cid voter d),
          Facts.with_roster
            (snd (Votes.post_votes voteId now sid cid voter d)) l))
    /\ (forall ids clock sid pid subs,
          let before := Contributions.post_contributions ids clock sid pid
                          subs d in
          let after := Contributions.post_contributions ids clock sid pid
                         subs (Facts.with_roster d l) in
          fst after = fst before
          /\ Store.contributions (snd after)
             = Store.contributions (snd before)
          /\ Store.votes (snd after) = Store.votes (snd before)
          /\ Store.topics (snd after) = Store.topics (snd before)
          /\ Store.sessions (snd after) = Store.sessions (snd before)).
Proof.
  intros l d. split.
  - intros voteId now sid cid voter. unfold Votes.post_votes.
    change (Votes.vote_checks sid cid voter (Facts.with_roster d l))
      with (Votes.vote_checks sid cid voter d).
    destruct (Votes.vote_checks sid cid voter d) as [r |]; [reflexivity |].
    unfold Votes.vote_write. rewrite insert_vote_roster.
    destruct (Store.insert_vote _ d) as [d1 | e]; [reflexivity |].
    destruct (Js.includes _ _); reflexivity.
  - intros ids clock sid pid subs. cbv zeta.
    unfold Contributions.post_contributions.
    destruct (negb (Js.truthy pid) || negb (Contributions.is_array subs));
      [repeat split |].
    destruct (Nat.eqb _ 0); repeat split.
Qed.

(** ** The state of one session *)

Section OtherSessions.
Import Js Store Http.

Variables st sid : string.

Local Abbreviation set_state := (update_session_state st sid).

Lemma session_exists_update (q : string) (d : db) :
  session_exists q (set_state d) = session_exists q d.
Proof.
  unfold session_exists, update_session_state, set_sessions; simpl.
  induction (sessions d) as [| s l IH]; simpl; [reflexivity |].
  rewrite IH. destruct (session_id s =? sid); reflexivity.
Qed.

Lemma select_session_other (q : string) (d : db) :
  q <> sid -> select_session q (set_state d) = select_session q d.
Proof.
  intros Hq. rewrite select_session_update.
  destruct (select_session q d) as [s |] eqn:E; [| reflexivity].
  apply select_session_id in E. simpl.
  assert (N : (session_id s =? sid) = false)
    by (apply String.eqb_neq; congruence).
  rewrite N. reflexivity.
Qed.

Lemma insert_vote_state (v : vote) (d : db) :
  insert_vote v (set_state d)
  = match insert_vote v d with
    | Done d1 => Done (set_state d1)
    | Raised e => Raised e
    end.
Proof.
  unfold insert_vote, contribution_exists.
  change (votes (set_state d)) with (votes d).
  change (contributions (set_state d)) with (contributions d).
  repeat match goal with
         | |- (if ?b then _ else _) = _ => destruct b
         end; reflexivity.
Qed.

Lemma insert_participant_state (p : participant) (d : db) :
  insert_participant p (set_state d)
  = match insert_participant p d with
    | Done d1 => Done (set_state d1)
    | Raised e => Raised e
    end.
Proof.
  unfold insert_participant. rewrite session_exists_update.
  change (session_participants (set_state d)) with (session_participants d).
  repeat match goal with
         | |- (if ?b then _ else _) = _ => destruct b
         end; reflexivity.
Qed.

Lemma post_votes_other (q : string) (voteId now : string)
    (cid voter : option string) (d : db) :
  q <> sid ->
  Votes.post_votes voteId now q cid voter (set_state d)
  = (fst (Votes.post_votes voteId now q cid voter d),
     set_state (snd (Votes.post_votes voteId now q cid voter d))).
Proof.
  intros Hq. unfold Votes.post_votes.
  assert (E : Votes.vote_checks q cid voter (set_state d)
              = Votes.vote_checks q cid voter d).
  { unfold Votes.vote_checks. rewrite (select_session_other q d Hq).
    reflexivity. }
  rewrite E.
  destruct (Votes.vote_checks q cid voter d) as [r |]; [reflexivity |].
  unfold Votes.vote_write. rewrite insert_vote_state.
  destruct (insert_vote _ d) as [d1 | e]; [reflexivity |].
  destruct (includes _ _); reflexivity.
Qed.

Lemma post_contributions_other (q : string) (ids clock : nat -> string)
    (pid : option string) (subs : option (list Contributions.submission))
    (d : db) :
  q <> sid ->
  Contributions.post_contributions ids clock q pid subs (set_state d)
  = (fst (Contributions.post_contributions ids clock q pid subs d),
     set_state (snd (Contributions.post_contributions ids clock q pid subs
                       d))).
Proof.
  intros Hq. unfold Contributions.post_contributions.
  destruct (negb (truthy pid) || negb (Contributions.is_array subs));
    [reflexivity |].
  destruct (Nat.eqb _ 0); reflexivity.
Qed.

Lemma post_join_other (q now : string) (pid dn em : option string) (d : db) :
  q <> sid ->
  Sessions.post_join now q pid dn em (set_state d)
  = (fst (Sessions.post_join now q pid dn em d),
     set_state (snd (Sessions.post_join now q pid dn em d))).
Proof.
  intros Hq. unfold Sessions.post_join.
  destruct (negb (truthy pid)); [reflexivity |].
  rewrite (select_session_other q d Hq).
  destruct (select_session q d) as [s |]; [| reflexivity].
  destruct (session_state s =? "final"); [reflexivity |].
  change (select_participant q (or_default pid EmptyString) (set_state d))
    with (select_participant q (or_default pid EmptyString) d).
  destruct (select_participant q (or_default pid EmptyString) d);
    [reflexivity |].
  rewrite insert_participant_state.
  destruct (insert_participant _ d); reflexivity.
Qed.

Lemma update_twice (st2 : string) (d : db) :
  update_session_state st2 sid (set_state d) = update_session_state st2 sid d.
Proof.
  unfold update_session_state, set_sessions; simpl. f_equal.
  rewrite map_map. apply map_ext. intros s.
  destruct (session_id s =? sid) eqn:E; simpl; rewrite E; reflexivity.
Qed.

End OtherSessions.

Lemma post_contributions_sessions (ids clock : nat -> string) (q : string)
    (pid : option string) (subs : option (list Contributions.submission))
    (d : Store.db) :
  Store.sessions
    (snd (Contributions.post_contributions ids clock q pid subs d))
  = Store.sessions d.
Proof.
  rewrite post_contributions_store. reflexivity.
Qed.

(** X8. [setState] touches one session.  A [setState] that names an
    existing session and one of the six labels changes the state of that
    session and nothing else: name, moderator and creation time of the
    session, every other session, and the topics, roster, contributions and
    votes are as before, and the constraints of the store still hold.  A
    second [setState] on the session overrides the first.  Requests to join,
    to submit or to vote in any other session are answered as if the
    [setState] had not happened, and do to the store what they would have
    done: the change of state commutes with them. *)
Theorem setState_one_session :
  forall sid st d s,
    Store.select_session sid d = Some s ->
    In st Sessions.validStates ->
    let d' := snd (Sessions.patch_state sid (Some st) d) in
    Store.select_session sid d' = Some (Spec.with_state s st)
    /\ (forall q, q <> sid ->
          Store.select_session q d' = Store.select_session q d)
    /\ Store.topics d' = Store.topics d
    /\ Store.session_participants d' = Store.session_participants d
    /\ Store.contributions d' = Store.contributions d
    /\ Store.votes d' = Store.votes d
    /\ (Store.db_ok d = true -> Store.db_ok d' = true)
    /\ (forall st2, In st2 Sessions.validStates ->
          Sessions.patch_state sid (Some st2) d'
          = Sessions.patch_state sid (Some st2) d)
    /\ (forall q, q <> sid ->
          (forall voteId now cid voter,
             Votes.post_votes voteId now q cid voter d'
             = (fst (Votes.post_votes voteId now q cid voter d),
                snd (Sessions.patch_state sid (Some st)
                       (snd (Votes.post_votes voteId now q cid voter d)))))
          /\ (forall ids clock pid subs,
                Contributions.post_contributions ids clock q pid subs d'
                = (fst (Contributions.post_contributions ids clock q pid subs
                          d),
                   snd (Sessions.patch_state sid (Some st)
                          (snd (Contributions.post_contributions ids clock q
                                  pid subs d)))))
          /\ (forall now pid dn em,
                Sessions.post_join now q pid dn em d'
                = (fst (Sessions.post_join now q pid dn em d),
                   snd (Sessions.patch_state sid (Some st)
                          (snd (Sessions.post_join now q pid dn em d)))))).
Proof.
  intros sid st d s Hs Hin d'.
  assert (Hd' : d' = Store.update_session_state st sid d)
    by (unfold d'; rewrite (patch_state_valid sid st d s Hin Hs);
        reflexivity).
  assert (Hpatch : forall d0,
             Store.sessions d0 = Store.sessions d ->
             snd (Sessions.patch_state sid (Some st) d0)
             = Store.update_session_state st sid d0).
  { intros d0 E.
    assert (Store.select_session sid d0 = Some s)
      by (unfold Store.select_session in *; rewrite E; exact Hs).
    rewrite (patch_state_valid sid st d0 s Hin H). reflexivity. }
  rewrite Hd'. clear Hd' d'.
  split.
  { rewrite select_session_update, Hs. simpl.
    rewrite (select_session_id sid d s Hs), String.eqb_refl. reflexivity. }
  split; [intros q Hq; apply select_session_other; exact Hq |].
  do 4 (split; [reflexivity |]).
  split; [intros Hok; apply update_session_state_ok; exact Hok |].
  split.
  { intros st2 Hin2.
    assert (Store.select_session sid (Store.update_session_state st sid d)
            = Some (Spec.with_state s st)).
    { rewrite select_session_update, Hs. simpl.
      rewrite (select_session_id sid d s Hs), String.eqb_refl. reflexivity. }
    rewrite (patch_state_valid sid st2 _ _ Hin2 H),
      (patch_state_valid sid st2 d s Hin2 Hs), update_twice.
    reflexivity. }
  intros q Hq. split; [| split].
  - intros voteId now cid voter. rewrite (post_votes_other st sid q) by exact Hq.
    f_equal. symmetry. apply Hpatch.
    unfold Votes.post_votes.
    destruct (Votes.vote_checks q cid voter d); [reflexivity |].
    unfold Votes.vote_write, Store.insert_vote.
    repeat match goal with
           | |- context [if ?b then _ else _] => destruct b
           end; reflexivity.
  - intros ids clock pid subs.
    rewrite (post_contributions_other st sid q) by exact Hq.
    f_equal. symmetry. apply Hpatch.
    apply post_contributions_sessions.
  - intros now pid dn em. rewrite (post_join_other st sid q) by exact Hq.
    f_equal. symmetry. apply Hpatch.
    unfold Sessions.post_join.
    destruct (negb (Js.truthy pid)); [reflexivity |].
    destruct (Store.select_session q d) as [s0 |]; [| reflexivity].
    destruct (Store.session_state s0 =? "final"); [reflexivity |].
    destruct (Store.select_participant q _ d); [reflexivity |].
    unfold Store.insert_participant.
    repeat match goal with
           | |- context [if ?b then _ else _] => destruct b
           end; reflexivity.
Qed.

Lemma setState_one_session_witness :
  Store.select_session "s1" Examples.two_sessions
  = Some (Scenario.the_session "voting")
  /\ In "final" Sessions.validStates
  /\ Store.select_session "s1"
       (snd (Sessions.patch_state "s1" (Some "final") Examples.two_sessions))
     = Some (Scenario.the_session "final")
  /\ Store.select_session "s2"
       (snd (Sessions.patch_state "s1" (Some "final") Examples.two_sessions))
     = Some Examples.other_session.
Proof.
  assert (Hin : In "final" Sessions.validStates) by (simpl; tauto).
  pose proof (setState_one_session "s1" "final" Examples.two_sessions
                (Scenario.the_session "voting") eq_refl Hin) as H.
  cbv zeta in H. destruct H as [H1 [H2 _]].
  split; [reflexivity | split; [exact Hin | split; [exact H1 |]]].
  rewrite (H2 "s2" ltac:(discriminate)). reflexivity.
Defined.

(** ** The contribution listing *)


(** ** Topics of a session *)

Section Topics.
Import Js Store Http Sessions Queries.

Lemma sorted_map {A B : Type} (f : A -> B) (Q : A -> A -> Prop)
    (R : B -> B -> Prop) (l : list A) :
  (forall a b, Q a b -> R (f a) (f b)) ->
  StronglySorted Q l -> StronglySorted R (map f l).
Proof.
  intros HQ. induction 1 as [| a l Hl IH Ha]; simpl; constructor;
    [exact IH |].
  apply Forall_map. eapply Forall_impl; [| exact Ha].
  intros b. apply HQ.
Qed.

(** The topics of [getSession] come in ascending [sort_order]. *)
Lemma select_topics_sorted (sid : string) (d : db) :
  StronglySorted (fun a b => (tc_sort_order a <= tc_sort_order b)%Z)
    (map topic_columns_of (select_topics sid d)).
Proof.
  unfold select_topics.
  eapply sorted_map;
    [| apply (order_by_sorted
                (fun a b : topic => (sort_order a <=? sort_order b)%Z))].
  - intros a b H. simpl. apply Z.leb_le. exact H.
  - intros a b. destruct (Z.le_ge_cases (sort_order a) (sort_order b));
      [left | right]; apply Z.leb_le; assumption.
  - intros a b c H1 H2. apply Z.leb_le in H1, H2. apply Z.leb_le. lia.
Qed.

Lemma post_topics_success (tid sid : string) (dom nm : option string)
    (so : option Z) (d : db) (r : response) (d' : db) :
  post_topics tid sid dom nm so d = (r, d') -> success r = true ->
  truthy dom = true /\ truthy nm = true
  /\ session_exists sid d = true
  /\ topic_exists tid d = false
  /\ r = ok 201 None
           (TopicData tid sid (or_default dom EmptyString)
              (or_default nm EmptyString) (sort_order_or_0 so))
  /\ d' = set_topics d
            (topics d ++ [mkTopic tid sid (or_default dom EmptyString)
                            (or_default nm EmptyString)
                            (sort_order_or_0 so)]).
Proof.
  unfold post_topics. intros H Hs.
  destruct (truthy dom); [| injection H as <- _; discriminate Hs].
  destruct (truthy nm); [| injection H as <- _; discriminate Hs].
  simpl in H.
  destruct (select_session sid d) as [s |] eqn:E;
    [| injection H as <- _; discriminate Hs].
  assert (Hex : session_exists sid d = true).
  { unfold session_exists. rewrite find_existsb.
    unfold select_session in E. rewrite E. reflexivity. }
  unfold insert_topic in H. simpl in H.
  destruct (topic_exists tid d);
    [injection H as <- _; discriminate Hs |].
  rewrite Hex in H. simpl in H. injection H as <- <-.
  repeat split; auto.
Qed.

End Topics.

(** X10. A topic that was added is listed, in order.  When [addTopic] is
    answered with success, the session exists and the generated topic id
    was unused; [getSession] then lists the topics the session had plus
    the new one (with sort order 0 when the request gave none), in
    ascending sort order, and reports the same session, state and
    participants as before; [getSession] of every other session is
    unchanged; the store keeps its constraints and its topic ids stay
    unique; and a second [addTopic] with the same generated id fails with
    500 and changes nothing. *)
Theorem addTopic_listed_in_order :
  forall tid sid dom nm so d r d',
    Sessions.post_topics tid sid dom nm so d = (r, d') ->
    Http.success r = true ->
    Store.topic_exists tid d = false
    /\ (exists before after,
          Queries.get_session sid d = Queries.Reply 200 before
          /\ Queries.get_session sid d' = Queries.Reply 200 after
          /\ Permutation (Queries.sd_topics after)
               (Queries.mkTopicColumns tid (Js.or_default dom EmptyString)
                  (Js.or_default nm EmptyString)
                  (Sessions.sort_order_or_0 so)
                :: Queries.sd_topics before)
          /\ StronglySorted
               (fun a b => (Queries.tc_sort_order a
                            <= Queries.tc_sort_order b)%Z)
               (Queries.sd_topics after)
          /\ Queries.sd_participants after = Queries.sd_participants before
          /\ Queries.sd_state after = Queries.sd_state before
          /\ Queries.sd_name after = Queries.sd_name before
          /\ Queries.sd_moderatorId after = Queries.sd_moderatorId before)
    /\ (forall q, q <> sid ->
          Queries.get_session q d' = Queries.get_session q d)
    /\ (Store.db_ok d = true -> Store.db_ok d' = true)
    /\ (Facts.topics_unique d = true -> Facts.topics_unique d' = true)
    /\ (forall sid2 dom2 nm2 so2,
          Js.truthy dom2 = true -> Js.truthy nm2 = true ->
          Store.session_exists sid2 d' = true ->
          Http.status
            (fst (Sessions.post_topics tid sid2 dom2 nm2 so2 d')) = 500
          /\ snd (Sessions.post_topics tid sid2 dom2 nm2 so2 d') = d').
Proof.
  intros tid sid dom nm so d r d' Hcall Hs.
  destruct (post_topics_success tid sid dom nm so d r d' Hcall Hs)
    as [_ [_ [Hex [Hfresh [_ Hd']]]]].
  split; [exact Hfresh |].
  assert (Hsel : exists s, Store.select_session sid d = Some s).
  { unfold Store.session_exists in Hex. rewrite find_existsb in Hex.
    unfold Store.select_session.
    destruct (find _ (Store.sessions d)) as [s |]; [| discriminate].
    exists s. reflexivity. }
  destruct Hsel as [s Hsel].
  split; [| split; [| split; [| split]]].
  - unfold Queries.get_session.
    assert (Hsel' : Store.select_session sid d' = Some s)
      by (rewrite Hd'; exact Hsel).
    rewrite Hsel, Hsel'. do 2 eexists.
    split; [reflexivity |]. split; [reflexivity |]. simpl.
    split; [| split; [apply select_topics_sorted |]].
    + unfold Queries.select_topics. rewrite Hd'. simpl.
      rewrite filter_app. simpl. rewrite String.eqb_refl.
      rewrite !(Permutation_map _ (order_by_perm _ _)).
      rewrite map_app. simpl. rewrite <- Permutation_cons_append.
      reflexivity.
    + rewrite Hd'. repeat split.
  - intros q Hq. unfold Queries.get_session, Queries.select_topics.
    rewrite Hd'. simpl.
    change (Store.select_session q
              (Store.set_topics d
                 (Store.topics d ++
                  [Store.mkTopic tid sid (Js.or_default dom EmptyString)
                     (Js.or_default nm EmptyString)
                     (Sessions.sort_order_or_0 so)])))
      with (Store.select_session q d).
    rewrite filter_app. simpl.
    assert (N : (sid =? q) = false) by (apply String.eqb_neq; congruence).
    rewrite N, app_nil_r. reflexivity.
  - intros Hok. rewrite Hd'. apply db_ok_iff in Hok. apply db_ok_iff.
    exact Hok.
  - unfold Facts.topics_unique. intros Hu. rewrite Hd'. simpl.
    rewrite map_app. simpl.
    apply (uniqueb_snoc String.eqb String.eqb_eq); [exact Hu |].
    unfold Store.topic_exists in Hfresh.
    rewrite (existsb_key String.eqb String.eqb_eq Store.topic_id) in Hfresh.
    exact Hfresh.
  - intros sid2 dom2 nm2 so2 H1 H2 H3. unfold Sessions.post_topics.
    rewrite H1, H2. simpl.
    unfold Store.session_exists in H3. rewrite find_existsb in H3.
    unfold Store.select_session.
    destruct (find _ (Store.sessions d')) as [s2 |]; [| discriminate].
    unfold Store.insert_topic. simpl.
    assert (E : Store.topic_exists tid d' = true).
    { rewrite Hd'. unfold Store.topic_exists. simpl.
      rewrite existsb_app. simpl. rewrite String.eqb_refl.
      rewrite orb_true_r. reflexivity. }
    rewrite E. split; reflexivity.
Qed.

Lemma addTopic_listed_in_order_witness :
  Http.success
    (fst (Sessions.post_topics "t3" "s1" (Some "Health") (Some "Triage")
            None Examples.two_sessions)) = true
  /\ forall q, q <> "s1" ->
       Queries.get_session q
         (snd (Sessions.post_topics "t3" "s1" (Some "Health") (Some "Triage")
                 None Examples.two_sessions))
       = Queries.get_session q Examples.two_sessions.
Proof.
  split; [reflexivity |].
  apply (proj1 (proj2 (proj2
           (addTopic_listed_in_order "t3" "s1" (Some "Health")
              (Some "Triage") None Examples.two_sessions _ _
              (surjective_pairing _) eq_refl)))).
Defined.

(** ** The list of sessions *)

Section SessionList.
Import Js Store Queries.

Lemma string_leb_trans (a b c : string) :
  String.leb a b = true -> String.leb b c = true -> String.leb a c = true.
Proof.
  unfold String.leb.
  change String.compare with OrderedTypeEx.String_as_OT.cmp.
  destruct (OrderedTypeEx.String_as_OT.cmp a b) eqn:E1; try discriminate;
    destruct (OrderedTypeEx.String_as_OT.cmp b c) eqn:E2; try discriminate;
    intros _ _.
  - apply OrderedTypeEx.String_as_OT.cmp_eq in E1, E2. subst.
    assert (OrderedTypeEx.String_as_OT.cmp c c = Eq) as ->
      by (apply OrderedTypeEx.String_as_OT.cmp_eq; reflexivity).
    reflexivity.
  - apply OrderedTypeEx.String_as_OT.cmp_eq in E1. subst. rewrite E2.
    reflexivity.
  - apply OrderedTypeEx.String_as_OT.cmp_eq in E2. subst. rewrite E1.
    reflexivity.
  - apply OrderedTypeEx.String_as_OT.cmp_lt in E1, E2.
    pose proof (OrderedTypeEx.String_as_OT.lt_trans _ _ _ E1 E2) as H.
    apply OrderedTypeEx.String_as_OT.cmp_lt in H. rewrite H. reflexivity.
Qed.

Lemma get_sessions_perm (st md : option string) (d : db) :
  Permutation (get_sessions st md d)
    (map summary_of (filter (list_condition st md) (sessions d))).
Proof.
  unfold get_sessions. apply Permutation_map, order_by_perm.
Qed.

Lemma list_condition_iff (st md : option string) (s : session) :
  list_condition st md s = true
  <-> (truthy st = true -> session_state s = or_default st EmptyString)
      /\ (truthy md = true -> moderator_id s = or_default md EmptyString).
Proof.
  unfold list_condition. rewrite andb_true_iff.
  destruct (truthy st), (truthy md); rewrite ?String.eqb_eq;
    intuition congruence.
Qed.

End SessionList.

(** X11. The list of sessions.  [listSessions] returns exactly the stored
    sessions that meet the conditions given, each as often as it is
    stored, newest first by creation time; a parameter that is absent or
    empty sets no condition, so without parameters every session is
    listed; a state that no session has gives the empty list. *)
Theorem listSessions_filters :
  forall st md d,
    Permutation (Queries.get_sessions st md d)
      (map Queries.summary_of
         (filter (Queries.list_condition st md) (Store.sessions d)))
    /\ (forall x,
          In x (Queries.get_sessions st md d) <->
          exists s, In s (Store.sessions d) /\ x = Queries.summary_of s
                    /\ (Js.truthy st = true ->
                        Store.session_state s = Js.or_default st EmptyString)
                    /\ (Js.truthy md = true ->
                        Store.moderator_id s
                        = Js.or_default md EmptyString))
    /\ StronglySorted
         (fun a b => String.leb (Queries.ss_createdAt b)
                                (Queries.ss_createdAt a) = true)
         (Queries.get_sessions st md d)
    /\ Queries.get_sessions (Some EmptyString) md d
       = Queries.get_sessions None md d
    /\ Queries.get_sessions st (Some EmptyString) d
       = Queries.get_sessions st None d
    /\ Permutation (Queries.get_sessions None None d)
         (map Queries.summary_of (Store.sessions d))
    /\ (forall label,
          label <> EmptyString ->
          (forall s, In s (Store.sessions d) ->
                     Store.session_state s <> label) ->
          Queries.get_sessions (Some label) md d = []).
Proof.
  intros st md d. split; [apply get_sessions_perm |]. split; [| split].
  - intros x. split.
    + intros H. apply (Permutation_in _ (get_sessions_perm st md d)) in H.
      apply in_map_iff in H. destruct H as [s [<- H]].
      apply filter_In in H. destruct H as [Hin Hc].
      apply list_condition_iff in Hc. exists s. tauto.
    + intros [s [Hin [-> Hc]]].
      apply (Permutation_in _ (Permutation_sym (get_sessions_perm st md d))).
      apply in_map, filter_In. split; [exact Hin |].
      apply list_condition_iff. exact Hc.
  - unfold Queries.get_sessions.
    eapply sorted_map;
      [| apply (order_by_sorted
                  (fun a b : Store.session =>
                     String.leb (Store.created_at b) (Store.created_at a)))].
    + intros a b H. exact H.
    + intros a b. destruct (String.leb_total (Store.created_at a)
                              (Store.created_at b)); auto.
    + intros a b c H1 H2. apply (string_leb_trans _ _ _ H2 H1).
  - split; [reflexivity |]. split; [reflexivity |]. split.
    + rewrite get_sessions_perm. simpl.
      assert (E : filter (Queries.list_condition None None) (Store.sessions d)
                  = Store.sessions d).
      { induction (Store.sessions d) as [| s l IH]; simpl;
          [reflexivity | rewrite IH; reflexivity]. }
      rewrite E. reflexivity.
    + intros label Hl Hno. unfold Queries.get_sessions.
      assert (E : filter (Queries.list_condition (Some label) md)
                    (Store.sessions d) = []).
      { induction (Store.sessions d) as [| s l IH]; simpl; [reflexivity |].
        assert (Hs : Store.session_state s <> label)
          by (apply Hno; left; reflexivity).
        unfold Queries.list_condition at 1.
        rewrite (truthy_some label Hl), (or_default_some label _ Hl).
        apply String.eqb_neq in Hs. rewrite Hs. simpl.
        apply IH. intros s0 H0. apply Hno. right. exact H0. }
      rewrite E. reflexivity.
Qed.

(** ** The moderator's operations in the client *)

Section Steps.
Import Js App.

Lemma updateSessionState_stored (st : string) (c : client)
    (s : client_session) (meta : session_meta) :
  currentSession c = Some s -> cs_id s <> EmptyString ->
  stored_meta c = Some meta ->
  updateSessionState st c
  = mkClient (currentSession c) (user c) st
      (Some (mkMeta st (sm_rows meta) (sm_participants meta))) (message c).
Proof.
  intros Hs Hid Hm. unfold updateSessionState, getSessionMetaKey.
  apply String.eqb_neq in Hid. rewrite Hs, Hid, Hm. reflexivity.
Qed.

Lemma updateSessionState_nothing_stored (st : string) (c : client) :
  stored_meta c = None -> updateSessionState st c = c.
Proof.
  intros Hm. unfold updateSessionState. rewrite Hm.
  destruct (currentSession c) as [s |]; [| reflexivity].
  destruct (getSessionMetaKey (cs_id s)); reflexivity.
Qed.

Lemma updateSessionState_no_key (st : string) (c : client)
    (s : client_session) :
  currentSession c = Some s -> cs_id s = EmptyString ->
  updateSessionState st c = c.
Proof.
  intros Hs Hid. unfold updateSessionState, getSessionMetaKey.
  rewrite Hs, Hid. reflexivity.
Qed.

(** The client after a step that is taken. *)
Local Abbreviation stepped :=
  (fun (c : client) (s : client_session) (u : person) (meta : session_meta)
       (st m : string) =>
     mkClient (Some s) (Some u) st
       (Some (mkMeta st (sm_rows meta) (sm_participants meta))) m).

Section Taken.
Variables (c : client) (s : client_session) (u : person)
          (meta : session_meta).
Hypothesis Hs : currentSession c = Some s.
Hypothesis Hu : user c = Some u.
Hypothesis Hm : isModerator s u = true.
Hypothesis Hid : cs_id s <> EmptyString.
Hypothesis Hmeta : stored_meta c = Some meta.

Lemma enableVoting_taken :
  sessionState c = "published" \/ sessionState c = "contributing" ->
  enableVoting c
  = stepped c s u meta "voting"
      "Voting enabled! Participants will be able to view contributions and vote.".
Proof.
  intros Hst.
  assert (E : negb (sessionState c =? "published")
              && negb (sessionState c =? "contributing") = false)
    by (destruct Hst as [-> | ->]; reflexivity).
  unfold enableVoting. rewrite Hs, Hu, Hm, E. cbn [negb].
  rewrite (updateSessionState_stored "voting" c s meta Hs Hid Hmeta).
  unfold setMessage. cbn [currentSession user sessionState stored_meta].
  rewrite Hs, Hu. reflexivity.
Qed.

Lemma lockVotes_taken :
  sessionState c = "voting" ->
  lockVotes c
  = stepped c s u meta "voting_locked" "Votes locked! No more voting allowed.".
Proof.
  intros Hst. unfold lockVotes. rewrite Hs, Hu, Hm, Hst. cbn [negb].
  change ("voting" =? "voting") with true. cbn [negb].
  rewrite (updateSessionState_stored "voting_locked" c s meta Hs Hid Hmeta).
  unfold setMessage. cbn [currentSession user sessionState stored_meta].
  rewrite Hs, Hu. reflexivity.
Qed.

Lemma publishFinalView_taken :
  sessionState c = "voting_locked" ->
  publishFinalView c
  = stepped c s u meta "final"
      "Final view published! All participants can now view results and download the report.".
Proof.
  intros Hst. unfold publishFinalView. rewrite Hs, Hu, Hm, Hst. cbn [negb].
  change ("voting_locked" =? "voting_locked") with true. cbn [negb].
  rewrite (updateSessionState_stored "final" c s meta Hs Hid Hmeta).
  unfold setMessage. cbn [currentSession user sessionState stored_meta].
  rewrite Hs, Hu. reflexivity.
Qed.

End Taken.

End Steps.

(** X12. The moderator's operations move the session one step forward.
    Each of [enableVoting], [lockVotes] and [publishFinalView] leaves the
    session and the user as they are, and either leaves the state and the
    stored metadata unchanged, or was called by the moderator of a session
    that has an id, with metadata stored, and moves the state exactly one
    place along published/contributing, voting, voting_locked, final,
    writing the same state into the stored metadata and keeping its rows
    and participants.  Called in that order by the moderator of a session
    with an id in [published] or [contributing] with metadata stored, the
    three lead to [final]; and without stored metadata, or when the
    session has the empty id and so no metadata key, [enableVoting]
    reports "Voting enabled!" while the state stays as it was. *)
Theorem moderator_steps_forward :
  forall (c : App.client),
    (forall op,
       In op [App.enableVoting; App.lockVotes; App.publishFinalView] ->
       App.currentSession (op c) = App.currentSession c
       /\ App.user (op c) = App.user c
       /\ ((App.sessionState (op c) = App.sessionState c
            /\ App.stored_meta (op c) = App.stored_meta c)
           \/ exists s u meta n,
                App.currentSession c = Some s /\ App.user c = Some u
                /\ App.isModerator s u = true
                /\ App.cs_id s <> EmptyString
                /\ App.stored_meta c = Some meta
                /\ Facts.place (App.sessionState c) = Some n
                /\ Facts.place (App.sessionState (op c)) = Some (S n)
                /\ App.stored_meta (op c)
                   = Some (App.mkMeta (App.sessionState (op c))
                             (App.sm_rows meta) (App.sm_participants meta))))
    /\ (forall s u meta,
          App.currentSession c = Some s -> App.user c = Some u ->
          App.isModerator s u = true ->
          App.cs_id s <> EmptyString ->
          App.stored_meta c = Some meta ->
          App.sessionState c = "published"
          \/ App.sessionState c = "contributing" ->
          App.sessionState (App.enableVoting c) = "voting"
          /\ App.sessionState (App.lockVotes (App.enableVoting c))
             = "voting_locked"
          /\ App.sessionState
               (App.publishFinalView (App.lockVotes (App.enableVoting c)))
             = "final"
          /\ App.stored_meta
               (App.publishFinalView (App.lockVotes (App.enableVoting c)))
             = Some (App.mkMeta "final" (App.sm_rows meta)
                       (App.sm_participants meta)))
    /\ (forall s u,
          App.currentSession c = Some s -> App.user c = Some u ->
          App.isModerator s u = true ->
          App.stored_meta c = None \/ App.cs_id s = EmptyString ->
          App.sessionState c = "published"
          \/ App.sessionState c = "contributing" ->
          App.enableVoting c
          = App.setMessage
              "Voting enabled! Participants will be able to view contributions and vote."
              c).
Proof.
  intros c. split; [| split].
  - assert (Hcase :
      forall (op : App.client -> App.client)
             (from1 from2 to m1 m2 m3 : string) n,
        Facts.place from1 = Some n -> Facts.place from2 = Some n ->
        Facts.place to = Some (S n) ->
        op c = match App.currentSession c, App.user c with
               | Some s, Some u =>
                   if negb (App.isModerator s u) then App.setMessage m1 c
                   else if negb (App.sessionState c =? from1)
                           && negb (App.sessionState c =? from2)
                   then App.setMessage m2 c
                   else App.setMessage m3 (App.updateSessionState to c)
               | _, _ => App.setMessage "Session or user not found." c
               end ->
        App.currentSession (op c) = App.currentSession c
        /\ App.user (op c) = App.user c
        /\ ((App.sessionState (op c) = App.sessionState c
             /\ App.stored_meta (op c) = App.stored_meta c)
            \/ exists s u meta n,
                 App.currentSession c = Some s /\ App.user c = Some u
                 /\ App.isModerator s u = true
                 /\ App.cs_id s <> EmptyString
                 /\ App.stored_meta c = Some meta
                 /\ Facts.place (App.sessionState c) = Some n
                 /\ Facts.place (App.sessionState (op c)) = Some (S n)
                 /\ App.stored_meta (op c)
                    = Some (App.mkMeta (App.sessionState (op c))
                              (App.sm_rows meta)
                              (App.sm_participants meta)))).
    { intros op from1 from2 to m1 m2 m3 n P1 P2 P3 ->.
      destruct (App.currentSession c) as [s |] eqn:Hs;
        [| simpl; rewrite Hs; auto].
      destruct (App.user c) as [u |] eqn:Hu; [| simpl; rewrite Hs; auto].
      destruct (App.isModerator s u) eqn:Hm; simpl;
        [| rewrite Hs, Hu; auto].
      destruct (negb (App.sessionState c =? from1)
                && negb (App.sessionState c =? from2)) eqn:Hst; simpl;
        [rewrite Hs, Hu; auto |].
      destruct (string_dec (App.cs_id s) EmptyString) as [Hid | Hid].
      { rewrite (updateSessionState_no_key to c s Hs Hid). simpl.
        rewrite Hs, Hu. auto. }
      destruct (App.stored_meta c) as [meta |] eqn:Hmeta.
      - rewrite (updateSessionState_stored to c s meta Hs Hid Hmeta). simpl.
        rewrite Hs, Hu. split; [reflexivity |]. split; [reflexivity |].
        right. exists s, u, meta, n. repeat split; auto.
        apply andb_false_iff in Hst.
        destruct Hst as [Hst | Hst]; apply negb_false_iff in Hst;
          apply String.eqb_eq in Hst; rewrite Hst; assumption.
      - rewrite (updateSessionState_nothing_stored to c Hmeta). simpl.
        rewrite Hs, Hu, Hmeta. auto. }
    intros op Hop. destruct Hop as [<- | [<- | [<- | []]]].
    + apply (Hcase App.enableVoting "published" "contributing" "voting"
               "Only the moderator can enable voting."
               "Voting can only be enabled after contributions are submitted."
               "Voting enabled! Participants will be able to view contributions and vote."
               1);
        reflexivity.
    + apply (Hcase App.lockVotes "voting" "voting" "voting_locked"
               "Only the moderator can lock votes."
               "Votes can only be locked when voting is active."
               "Votes locked! No more voting allowed." 2);
        try reflexivity.
      unfold App.lockVotes.
      destruct (App.currentSession c), (App.user c); try reflexivity.
      destruct (App.sessionState c =? "voting"); reflexivity.
    + apply (Hcase App.publishFinalView "voting_locked" "voting_locked"
               "final"
               "Only the moderator can publish the final view."
               "Final view can only be published after votes are locked."
               "Final view published! All participants can now view results and download the report."
               3);
        try reflexivity.
      unfold App.publishFinalView.
      destruct (App.currentSession c), (App.user c); try reflexivity.
      destruct (App.sessionState c =? "voting_locked"); reflexivity.
  - intros s u meta Hs Hu Hm Hid Hmeta Hst.
    rewrite (enableVoting_taken c s u meta Hs Hu Hm Hid Hmeta Hst).
    cbv beta.
    erewrite (lockVotes_taken _ s u);
      [| reflexivity | reflexivity | exact Hm | exact Hid | reflexivity
       | reflexivity].
    erewrite (publishFinalView_taken _ s u);
      [| reflexivity | reflexivity | exact Hm | exact Hid | reflexivity
       | reflexivity].
    repeat split.
  - intros s u Hs Hu Hm Hmeta Hst.
    assert (E : negb (App.sessionState c =? "published")
                && negb (App.sessionState c =? "contributing") = false)
      by (destruct Hst as [-> | ->]; reflexivity).
    unfold App.enableVoting. rewrite Hs, Hu, Hm, E. simpl.
    destruct Hmeta as [Hmeta | Hid].
    + rewrite (updateSessionState_nothing_stored "voting" c Hmeta).
      reflexivity.
    + rewrite (updateSessionState_no_key "voting" c s Hs Hid).
      reflexivity.
Qed.

(** ** Voting in the client *)

Section ClientVote.
Import Js App Client.

Lemma find_map_same {A : Type} (p : A -> bool) (f : A -> A) (l : list A) :
  (forall x, p (f x) = p x) ->
  find p (map f l) = option_map f (find p l).
Proof.
  intros H. induction l as [| x l IH]; simpl; [reflexivity |].
  rewrite H. destruct (p x); [reflexivity | exact IH].
Qed.

(** Looking an entry up after the update of a list of rows. *)
Lemma find_entry_updated (g : entry -> entry) (rowId entryId : string)
    (rows : list row) (r' e' : string) :
  (forall e, e_id (g e) = e_id e) ->
  find_entry
    (Some (map (fun r =>
                  if negb (row_id r =? rowId) then r
                  else mkRow (row_id r) (row_domain r) (row_topic r)
                         (row_locked r)
                         (map (fun e => if negb (e_id e =? entryId) then e
                                        else g e)
                              (row_history r)))
               rows)) r' e'
  = if (r' =? rowId) && (e' =? entryId)
    then option_map g (find_entry (Some rows) r' e')
    else find_entry (Some rows) r' e'.
Proof.
  intros Hg. unfold find_entry.
  rewrite find_map_same
    by (intros r; destruct (negb (row_id r =? rowId)); reflexivity).
  destruct (find (fun r => row_id r =? r') rows) as [r |] eqn:F; simpl;
    [| destruct ((r' =? rowId) && (e' =? entryId)); reflexivity].
  apply find_some in F. destruct F as [_ F]. apply String.eqb_eq in F.
  rewrite F. destruct (r' =? rowId); simpl; [| reflexivity].
  rewrite find_map_same
    by (intros e; destruct (negb (e_id e =? entryId)); simpl;
        rewrite ?Hg; reflexivity).
  destruct (find (fun e => e_id e =? e') (row_history r)) as [e |] eqn:G;
    simpl; [| destruct (e' =? entryId); reflexivity].
  apply find_some in G. destruct G as [_ G]. apply String.eqb_eq in G.
  rewrite G. destruct (e' =? entryId); reflexivity.
Qed.

Lemma array_includes_last (l : list string) (x : string) :
  array_includes (l ++ [x]) x = true.
Proof.
  unfold array_includes. rewrite existsb_app. simpl.
  rewrite String.eqb_refl, orb_true_r. reflexivity.
Qed.

(** The ways [handleVote] ends. *)
Lemma handleVote_cases (c : client) (vc : option (list row))
    (rowId entryId : string) :
  (exists m, m <> "Vote recorded!"
             /\ handleVote c vc rowId entryId = (setMessage m c, vc))
  \/ exists u s e rows,
       user c = Some u /\ currentSession c = Some s
       /\ sessionState c = "voting" /\ vc = Some rows
       /\ find_entry vc rowId entryId = Some e
       /\ e_participantId e <> participantId u
       /\ array_includes (e_voters e) (participantId u) = false
       /\ fst (handleVote c vc rowId entryId)
          = mkClient (currentSession c) (user c) (sessionState c)
              (stored_meta (fst (handleVote c vc rowId entryId)))
              "Vote recorded!"
       /\ snd (handleVote c vc rowId entryId)
          = Some (vote_in_view (e_voters e) (participantId u) rowId entryId
                    rows).
Proof.
  unfold handleVote.
  destruct (user c) as [u |] eqn:Hu;
    [| left; eexists; split; [| reflexivity]; discriminate].
  destruct (currentSession c) as [s |] eqn:Hs;
    [| left; eexists; split; [| reflexivity]; discriminate].
  destruct (sessionState c =? "voting") eqn:Hst; simpl;
    [| left; eexists; split; [| reflexivity]; discriminate].
  destruct (find_entry vc rowId entryId) as [e |] eqn:He;
    [| left; eexists; split; [| reflexivity]; discriminate].
  destruct (e_participantId e =? participantId u) eqn:Hself;
    [left; eexists; split; [| reflexivity]; discriminate |].
  destruct (array_includes (e_voters e) (participantId u)) eqn:Hdup;
    [left; eexists; split; [| reflexivity]; discriminate |].
  right. destruct vc as [rows |]; [| discriminate He].
  exists u, s, e, rows. apply String.eqb_eq in Hst.
  apply String.eqb_neq in Hself. simpl. repeat split; auto.
Qed.

End ClientVote.

(** X13. A vote in the client counts once.  [handleVote] never changes
    the session, the user or the session state.  Unless its message is
    "Vote recorded!" it changes nothing but the message: without a user or
    a session, outside the state [voting], for an entry that is not in the
    view, for the caller's own entry, and for an entry the caller is
    already among the voters of.  When the vote is recorded, the entry
    looked up in the view afterwards has the caller as its last voter and
    as count the number nearest to the old count plus one, which is one
    more vote as long as that is below [2^53] (a count of [2^53] stays
    [2^53]); every other entry looks up as before, and a second
    [handleVote] of the caller on the same entry is refused with "You have
    already voted on this entry." and changes nothing else. *)
Theorem handleVote_counts_once :
  forall c vc rowId entryId,
    let c' := fst (Client.handleVote c vc rowId entryId) in
    let vc' := snd (Client.handleVote c vc rowId entryId) in
    App.currentSession c' = App.currentSession c
    /\ App.user c' = App.user c
    /\ App.sessionState c' = App.sessionState c
    /\ (App.message c' <> "Vote recorded!" ->
        vc' = vc /\ c' = App.setMessage (App.message c') c)
    /\ (App.message c' = "Vote recorded!" ->
        exists u e,
          App.user c = Some u /\ App.sessionState c = "voting"
          /\ Client.find_entry vc rowId entryId = Some e
          /\ App.e_participantId e <> App.participantId u
          /\ ~ In (App.participantId u) (App.e_voters e)
          /\ Client.find_entry vc' rowId entryId
             = Some (Client.voted_entry (App.e_voters e)
                       (App.participantId u) e)
          /\ App.votes_or_0
               (App.e_votes
                  (Client.voted_entry (App.e_voters e) (App.participantId u)
                     e))
             = Js.round_even (App.votes_or_0 (App.e_votes e) + 1)
          /\ ((Z.abs (App.votes_or_0 (App.e_votes e) + 1) < 2 ^ 53)%Z ->
              App.votes_or_0
                (App.e_votes
                   (Client.voted_entry (App.e_voters e)
                      (App.participantId u) e))
              = (App.votes_or_0 (App.e_votes e) + 1)%Z)
          /\ App.votes_or_0
               (App.e_votes
                  (Client.voted_entry [] (App.participantId u)
                     (Scenario.an_entry "h1" "a@x.com" (2 ^ 53)
                        "2024-01-01T00:01:00.000Z")))
             = (2 ^ 53)%Z
          /\ (forall r' e',
                (r' =? rowId) && (e' =? entryId) = false ->
                Client.find_entry vc' r' e' = Client.find_entry vc r' e')
          /\ Client.handleVote c' vc' rowId entryId
             = (App.setMessage "You have already voted on this entry." c',
                vc')).
Proof.
  intros c vc rowId entryId. cbv zeta.
  destruct (handleVote_cases c vc rowId entryId)
    as [[m [Hm ->]] | H].
  2: destruct H as (u & s & e & rows & Hu & Hs & Hst & Hvc & He & Hself
                    & Hdup & Hc' & Hvc').
  - simpl. repeat split; try reflexivity. intros H. contradiction.
  - rewrite Hc', Hvc'.
    cbn [App.currentSession App.user App.sessionState App.message].
    split; [reflexivity |].
    split; [reflexivity |]. split; [reflexivity |].
    split; [intros H; contradiction |]. intros _.
    exists u, e. split; [exact Hu |]. split; [exact Hst |].
    split; [exact He |]. split; [exact Hself |].
    assert (Hlook : forall r' e',
               Client.find_entry
                 (Some (Client.vote_in_view (App.e_voters e)
                          (App.participantId u) rowId entryId rows)) r' e'
               = if (r' =? rowId) && (e' =? entryId)
                 then option_map
                        (Client.voted_entry (App.e_voters e)
                           (App.participantId u))
                        (Client.find_entry (Some rows) r' e')
                 else Client.find_entry (Some rows) r' e').
    { intros r' e'. unfold Client.vote_in_view.
      apply find_entry_updated. intros e0. reflexivity. }
    assert (Hfound :
              Client.find_entry
                (Some (Client.vote_in_view (App.e_voters e)
                         (App.participantId u) rowId entryId rows))
                rowId entryId
              = Some (Client.voted_entry (App.e_voters e)
                        (App.participantId u) e)).
    { rewrite Hlook, !String.eqb_refl, <- Hvc, He. reflexivity. }
    split.
    { intros Hin. unfold Js.array_includes in Hdup.
      assert (existsb (String.eqb (App.participantId u)) (App.e_voters e)
              = true); [| congruence].
      apply existsb_exists. exists (App.participantId u).
      split; [exact Hin | apply String.eqb_refl]. }
    split; [exact Hfound |]. split; [reflexivity |].
    split; [intros Hb; apply (round_even_small _ Hb) |].
    split; [reflexivity |].
    split.
    { intros r' e' Hne. rewrite Hlook, Hne, Hvc. reflexivity. }
    unfold Client.handleVote at 1.
    cbn [App.currentSession App.user App.sessionState].
    rewrite Hu, Hs, Hst, String.eqb_refl. cbn [negb]. rewrite Hfound.
    cbn [Client.voted_entry App.e_participantId App.e_voters].
    apply String.eqb_neq in Hself. rewrite Hself.
    rewrite array_includes_last. reflexivity.
Qed.

(** ** The leaderboard *)

Section Leaders.
Import Js App Client.

Lemma sorted_app {A : Type} (R : A -> A -> Prop) (l1 l2 : list A) :
  StronglySorted R (l1 ++ l2) ->
  StronglySorted R l1
  /\ forall x y, In x l1 -> In y l2 -> R x y.
Proof.
  induction l1 as [| a l1 IH]; simpl; intros H.
  - split; [constructor | intros x y []].
  - inversion H as [| ? ? Hl Ha]; subst.
    destruct (IH Hl) as [H1 H2]. split.
    + constructor; [exact H1 |].
      apply Forall_app in Ha. tauto.
    + intros x y [<- | Hx] Hy; [| apply H2; assumption].
      rewrite Forall_forall in Ha. apply Ha. apply in_or_app. right. exact Hy.
Qed.

End Leaders.

(** X14. The leaderboard shows the three entries with the most votes.
    It takes its entries from the voting view when one is loaded (an empty
    view included, which gives an empty leaderboard whatever the rows hold)
    and from the rows otherwise; it has three entries, or all of them when
    there are fewer; its entries are in descending order of votes (a
    missing count is 0), each is an entry of a source row with the topic
    and domain of its row, and together with the entries left out they are
    exactly the entries of the source; no entry left out has more votes
    than a listed one. *)
Theorem leaderboard_top_three :
  forall (vc : option (list App.row)) (rows : list App.row),
    let source := match vc with Some l => l | None => rows end in
    let board := Client.leaderboard vc rows in
    List.length board = Nat.min 3 (List.length (Client.allEntries source))
    /\ StronglySorted (Js.key_ge Client.leader_votes) board
    /\ (exists rest,
          Permutation (board ++ rest) (Client.allEntries source)
          /\ forall x y, In x board -> In y rest ->
                         (Client.leader_votes x >= Client.leader_votes y)%Z)
    /\ (forall x, In x board ->
          exists r, In r source /\ In (Client.l_entry x) (App.row_history r)
                    /\ Client.l_topic x = App.row_topic r
                    /\ Client.l_domain x = App.row_domain r)
    /\ Client.leaderboard (Some []) rows = [].
Proof.
  intros vc rows source board.
  assert (Hb : board
               = firstn 3 (Js.sort (Js.by_key_desc Client.leader_votes)
                             (Client.allEntries source)))
    by (unfold board, Client.leaderboard; reflexivity).
  pose proof (sort_desc Client.leader_votes (Client.allEntries source))
    as Hsorted.
  pose proof (sort_perm (Js.by_key_desc Client.leader_votes)
                (Client.allEntries source)) as Hperm.
  rewrite <- (firstn_skipn 3 (Js.sort _ _)) in Hsorted, Hperm.
  rewrite <- Hb in Hsorted, Hperm.
  destruct (sorted_app _ _ _ Hsorted) as [H1 H2].
  split.
  { rewrite Hb, length_firstn.
    rewrite (Permutation_length
               (sort_perm (Js.by_key_desc Client.leader_votes)
                  (Client.allEntries source))).
    reflexivity. }
  split; [exact H1 |]. split.
  { eexists. split; [exact Hperm | exact H2]. }
  split; [| reflexivity].
  intros x Hx.
  assert (Hin : In x (Client.allEntries source)).
  { apply (Permutation_in _ Hperm). apply in_or_app. left. exact Hx. }
  unfold Client.allEntries in Hin. rewrite in_flat_map in Hin.
  destruct Hin as [r [Hr Hin]]. apply in_map_iff in Hin.
  destruct Hin as [e [<- He]]. exists r. simpl. auto.
Qed.

(** ** The keys of the browser storage *)

Section Keys.
Import Client.

Lemma append_length (a b : string) :
  String.length (a ++ b) = String.length a + String.length b.
Proof. induction a as [| x a IH]; simpl; [reflexivity | rewrite IH; lia]. Qed.

Lemma append_cancel_r (c : string) :
  forall a b : string, a ++ c = b ++ c -> a = b.
Proof.
  induction a as [| x a IH]; intros [| y b] H; simpl in H.
  - reflexivity.
  - apply (f_equal String.length) in H. simpl in H.
    rewrite append_length in H. lia.
  - apply (f_equal String.length) in H. simpl in H.
    rewrite append_length in H. lia.
  - injection H as -> H. f_equal. apply IH. exact H.
Qed.

Lemma append_cancel_l (c : string) :
  forall a b : string, c ++ a = c ++ b -> a = b.
Proof.
  induction c as [| x c IH]; simpl; intros a b H; [exact H |].
  injection H as H. apply IH. exact H.
Qed.

Lemma getSessionMetaKey_none (s : string) :
  getSessionMetaKey s = None <-> s = EmptyString.
Proof.
  unfold getSessionMetaKey, App.getSessionMetaKey. destruct (s =? EmptyString) eqn:E.
  - apply String.eqb_eq in E. tauto.
  - apply String.eqb_neq in E. split; [discriminate | contradiction].
Qed.

Lemma getDraftKey_none (s u : string) :
  getDraftKey s u = None <-> s = EmptyString \/ u = EmptyString.
Proof.
  unfold getDraftKey, App.getDraftKey.
  destruct (s =? EmptyString) eqn:E1, (u =? EmptyString) eqn:E2; simpl;
    rewrite ?String.eqb_eq, ?String.eqb_neq in *;
    try tauto.
  split; [discriminate | tauto].
Qed.

Lemma getDraftKey_some (s u k : string) :
  getDraftKey s u = Some k ->
  s <> EmptyString /\ u <> EmptyString
  /\ k = "ideation-draft-" ++ s ++ "-" ++ u.
Proof.
  unfold getDraftKey, App.getDraftKey.
  destruct (s =? EmptyString) eqn:E1, (u =? EmptyString) eqn:E2; simpl;
    try discriminate.
  apply String.eqb_neq in E1, E2. intros H; injection H as <-. auto.
Qed.

End Keys.

(** X15. The keys of the browser storage.  The metadata key determines
    the session: two session ids with the same key are equal.  A draft key
    exists exactly when both the session id and the user id are non-empty;
    within one session two users never share a draft key, and one user
    never has the same draft key in two sessions; a draft key is never the
    metadata key of any session, so a draft cannot overwrite shared
    metadata.  Across sessions and users the draft key is not injective:
    the ids are joined with a hyphen that either id may contain. *)
Theorem storage_keys_separate :
  (forall a b,
     Client.getSessionMetaKey a = Client.getSessionMetaKey b -> a = b)
  /\ (forall s u,
        Client.getDraftKey s u = None <-> s = EmptyString \/ u = EmptyString)
  /\ (forall s u1 u2,
        s <> EmptyString ->
        Client.getDraftKey s u1 = Client.getDraftKey s u2 -> u1 = u2)
  /\ (forall s1 s2 u,
        u <> EmptyString ->
        Client.getDraftKey s1 u = Client.getDraftKey s2 u -> s1 = s2)
  /\ (forall s u s' k,
        Client.getDraftKey s u = Some k ->
        Client.getSessionMetaKey s' <> Some k)
  /\ (exists s1 u1 s2 u2,
        s1 <> s2 /\ u1 <> u2
        /\ Client.getDraftKey s1 u1 <> None
        /\ Client.getDraftKey s1 u1 = Client.getDraftKey s2 u2).
Proof.
  split; [| split; [| split; [| split; [| split]]]].
  - intros a b H.
    destruct (Client.getSessionMetaKey a) as [k |] eqn:Ea.
    + symmetry in H. unfold Client.getSessionMetaKey, App.getSessionMetaKey in Ea, H.
      destruct (a =? EmptyString); [discriminate |].
      destruct (b =? EmptyString); [discriminate |].
      injection Ea as <-. injection H as H. congruence.
    + symmetry in H. apply getSessionMetaKey_none in Ea, H. congruence.
  - apply getDraftKey_none.
  - intros s u1 u2 Hs H.
    destruct (Client.getDraftKey s u1) as [k |] eqn:E1.
    + symmetry in H. apply getDraftKey_some in E1, H.
      destruct E1 as [_ [_ ->]]. destruct H as [_ [_ H]].
      apply (append_cancel_l "ideation-draft-") in H.
      apply (append_cancel_l s) in H.
      apply (append_cancel_l "-") in H. congruence.
    + symmetry in H. apply getDraftKey_none in E1, H.
      destruct E1 as [E1 | E1], H as [H | H]; congruence.
  - intros s1 s2 u Hu H.
    destruct (Client.getDraftKey s1 u) as [k |] eqn:E1.
    + symmetry in H. apply getDraftKey_some in E1, H.
      destruct E1 as [_ [_ ->]]. destruct H as [_ [_ H]].
      apply (append_cancel_l "ideation-draft-") in H.
      apply (append_cancel_r ("-" ++ u)). congruence.
    + symmetry in H. apply getDraftKey_none in E1, H.
      destruct E1 as [E1 | E1], H as [H | H]; congruence.
  - intros s u s' k H. apply getDraftKey_some in H.
    destruct H as [_ [_ ->]].
    unfold Client.getSessionMetaKey, App.getSessionMetaKey.
    destruct (s' =? EmptyString); discriminate.
  - exists "a-b", "c", "a", "b-c".
    repeat split; try discriminate.
Qed.

(** ** Requests that fail *)

Section Failures.
Import Js Store Http.

Lemma insert_participant_after_session (s : session) (p : participant)
    (d d1 : db) :
  Facts.roster_refers d ->
  p_session_id p = session_id s ->
  insert_session s d = Done d1 ->
  exists d2, insert_participant p d1 = Done d2.
Proof.
  intros Hfk Hp Hins. unfold insert_session in Hins.
  destruct (session_exists (session_id s) d) eqn:E; [discriminate |].
  injection Hins as <-. unfold insert_participant.
  change (session_participants (set_sessions d (sessions d ++ [s])))
    with (session_participants d).
  assert (N : existsb (fun q => pair_eqb (participant_key q)
                                  (participant_key p))
                (session_participants d) = false).
  { apply existsb_none. intros q Hq.
    destruct (pair_eqb (participant_key q) (participant_key p)) eqn:K;
      [| reflexivity].
    apply pair_eqb_eq in K. injection K as K1 K2.
    specialize (Hfk q Hq). congruence. }
  rewrite N.
  assert (Y : session_exists (p_session_id p)
                (set_sessions d (sessions d ++ [s])) = true).
  { unfold session_exists; simpl. rewrite existsb_app. simpl.
    rewrite Hp, String.eqb_refl, orb_true_r. reflexivity. }
  rewrite Y. simpl. eexists. reflexivity.
Qed.

End Failures.

(** The answer of a request of [sessions.js] or [votes.js]. *)
Lemma handle_answered (r : Api.request) (d : Store.db) :
  Facts.is_submitAll r = false ->
  exists x, Api.handle r d = Api.sent x.
Proof.
  intros Hr. destruct r; try discriminate Hr; eexists; reflexivity.
Qed.

Lemma answer_pairs_status (r : Api.request) (d : Store.db)
    (a : Http.response) :
  Facts.is_submitAll r = false ->
  fst (Api.handle r d) = Http.Answer a ->
  Http.success a = true <-> Http.status a = 200 \/ Http.status a = 201.
Proof.
  intros Hr Ha.
  destruct r; try discriminate Hr; unfold Api.handle, Api.sent in Ha;
    cbn [fst] in Ha; injection Ha as <-.
  - unfold Sessions.post_sessions.
    destruct (negb _ || negb _); simpl;
      [split; [discriminate | intros [H | H]; discriminate] |].
    destruct (Store.insert_session _ d);
      [| simpl; split; [discriminate | intros [H | H]; discriminate]].
    destruct (Store.insert_participant _ _); simpl;
      [split; auto
      | split; [discriminate | intros [H | H]; discriminate]].
  - unfold Sessions.post_topics.
    destruct (negb _ || negb _); simpl;
      [split; [discriminate | intros [H | H]; discriminate] |].
    destruct (Store.select_session sessionId d); simpl;
      [| split; [discriminate | intros [H | H]; discriminate]].
    destruct (Store.insert_topic _ d); simpl;
      [split; auto
      | split; [discriminate | intros [H | H]; discriminate]].
  - unfold Sessions.post_participants.
    destruct (negb _); simpl;
      [split; [discriminate | intros [H | H]; discriminate] |].
    destruct (Store.select_session sessionId d); simpl;
      [| split; [discriminate | intros [H | H]; discriminate]].
    destruct (Store.select_participant _ _ d); simpl;
      [split; [discriminate | intros [H | H]; discriminate] |].
    destruct (Store.insert_participant _ d); simpl;
      [split; auto
      | split; [discriminate | intros [H | H]; discriminate]].
  - unfold Sessions.patch_state.
    destruct (negb _ || negb _); simpl;
      [split; [discriminate | intros [H | H]; discriminate] |].
    destruct (Store.select_session sessionId d); simpl;
      [split; auto
      | split; [discriminate | intros [H | H]; discriminate]].
  - unfold Sessions.post_join.
    destruct (negb _); simpl;
      [split; [discriminate | intros [H | H]; discriminate] |].
    destruct (Store.select_session sessionId d) as [s |]; simpl;
      [| split; [discriminate | intros [H | H]; discriminate]].
    destruct (Store.session_state s =? "final"); simpl;
      [split; [discriminate | intros [H | H]; discriminate] |].
    destruct (Store.select_participant _ _ d); simpl; [split; auto |].
    destruct (Store.insert_participant _ d); simpl;
      [split; auto
      | split; [discriminate | intros [H | H]; discriminate]].
  - unfold Sessions.delete_session.
    destruct (Store.select_session sessionId d); simpl;
      [split; auto
      | split; [discriminate | intros [H | H]; discriminate]].
  - unfold Votes.post_votes, Votes.vote_checks.
    destruct (negb _ || negb _); simpl;
      [split; [discriminate | intros [H | H]; discriminate] |].
    destruct (Store.select_session sessionId d) as [s |]; simpl;
      [| split; [discriminate | intros [H | H]; discriminate]].
    destruct (negb (Store.session_state s =? "voting")); simpl;
      [split; [discriminate | intros [H | H]; discriminate] |].
    destruct (Store.select_contribution _ _ d) as [c |]; simpl;
      [| split; [discriminate | intros [H | H]; discriminate]].
    destruct (Store.c_participant_id c =? _); simpl;
      [split; [discriminate | intros [H | H]; discriminate] |].
    destruct (Store.select_vote _ _ d); simpl;
      [split; [discriminate | intros [H | H]; discriminate] |].
    unfold Votes.vote_write.
    destruct (Store.insert_vote _ d); simpl; [split; auto |].
    destruct (Js.includes _ _); simpl;
      split; try discriminate; intros [H | H]; discriminate.
Qed.

Lemma failure_keeps_store (r : Api.request) (d : Store.db) :
  Facts.is_submitAll r = false ->
  Facts.roster_refers d ->
  forall a, fst (Api.handle r d) = Http.Answer a ->
            Http.success a = false -> snd (Api.handle r d) = d.
Proof.
  intros Hr Hfk a Ha.
  destruct r; try discriminate Hr; unfold Api.handle, Api.sent in *;
    cbn [fst snd] in *; injection Ha as <-.
  - unfold Sessions.post_sessions.
    destruct (negb _ || negb _); [reflexivity |].
    destruct (Store.insert_session _ d) as [d1 | e] eqn:E1;
      [| reflexivity].
    destruct (insert_participant_after_session
          (Store.mkSession sessionId
             (Js.or_default name EmptyString)
             (Js.or_default moderatorId EmptyString) "setup" now)
          (Store.mkParticipant sessionId
             (Js.or_default moderatorId EmptyString)
             (Js.or_default moderatorName "Moderator")
             (Js.or_default moderatorEmail
                (Js.or_default moderatorId EmptyString))
             "joined" now None) d d1 Hfk eq_refl E1) as [d2 ->].
    simpl. discriminate.
  - unfold Sessions.post_topics.
    destruct (negb _ || negb _); [reflexivity |].
    destruct (Store.select_session sessionId d); [| reflexivity].
    destruct (Store.insert_topic _ d); [simpl; discriminate | reflexivity].
  - unfold Sessions.post_participants.
    destruct (negb _); [reflexivity |].
    destruct (Store.select_session sessionId d); [| reflexivity].
    destruct (Store.select_participant _ _ d); [reflexivity |].
    destruct (Store.insert_participant _ d);
      [simpl; discriminate | reflexivity].
  - unfold Sessions.patch_state.
    destruct (negb _ || negb _); [reflexivity |].
    destruct (Store.select_session sessionId d);
      [simpl; discriminate | reflexivity].
  - unfold Sessions.post_join.
    destruct (negb _); [reflexivity |].
    destruct (Store.select_session sessionId d) as [s |]; [| reflexivity].
    destruct (Store.session_state s =? "final"); [reflexivity |].
    destruct (Store.select_participant _ _ d); [reflexivity |].
    destruct (Store.insert_participant _ d);
      [simpl; discriminate | reflexivity].
  - unfold Sessions.delete_session.
    destruct (Store.select_session sessionId d);
      [simpl; discriminate | reflexivity].
  - unfold Votes.post_votes.
    destruct (Votes.vote_checks _ _ _ d); [reflexivity |].
    unfold Votes.vote_write.
    destruct (Store.insert_vote _ d); [simpl; discriminate |].
    destruct (Js.includes _ _); reflexivity.
Qed.

(** X16. A request that fails writes nothing.  Every request other than
    [submitAll] is answered, and on a store whose roster rows refer to
    existing sessions an answer that is not a success leaves the store
    exactly as it was before.  A [submitAll] never changes the store and
    is never answered with success.  For every request, [submitAll]
    included and on any store, an answer is a success exactly when its
    status is 200 or 201. *)
Theorem failure_writes_nothing :
  forall (r : Api.request) (d : Store.db),
    (forall a, fst (Api.handle r d) = Http.Answer a ->
               Http.success a = true
               <-> Http.status a = 200 \/ Http.status a = 201)
    /\ (Facts.is_submitAll r = false ->
        exists a, fst (Api.handle r d) = Http.Answer a)
    /\ (Facts.is_submitAll r = false ->
        Facts.roster_refers d ->
        forall a, fst (Api.handle r d) = Http.Answer a ->
                  Http.success a = false ->
                  snd (Api.handle r d) = d)
    /\ (Facts.is_submitAll r = true ->
        snd (Api.handle r d) = d
        /\ forall a, fst (Api.handle r d) = Http.Answer a ->
                     Http.success a = false).
Proof.
  intros r d. split; [| split; [| split]].
  - intros a Ha. destruct (Facts.is_submitAll r) eqn:Hr.
    + destruct r; try discriminate Hr. simpl in Ha.
      destruct (post_contributions_no_success _ _ _ _ _ _ _ Ha) as [H1 H2].
      rewrite H1, H2. split; [discriminate | intros [H | H]; discriminate].
    + apply (answer_pairs_status r d a Hr Ha).
  - intros Hr. destruct (handle_answered r d Hr) as [x ->].
    exists (fst x). reflexivity.
  - apply failure_keeps_store.
  - intros Hr. destruct r; try discriminate Hr. simpl. split.
    + apply post_contributions_store.
    + intros a Ha.
      apply (post_contributions_no_success _ _ _ _ _ _ _ Ha).
Qed.

Lemma failure_writes_nothing_witness :
  Facts.is_submitAll (Api.DeleteSession "s9") = false
  /\ Facts.roster_refers Examples.two_sessions
  /\ fst (Api.handle (Api.DeleteSession "s9") Examples.two_sessions)
     = Http.Answer Errors.SessionNotFound
  /\ snd (Api.handle (Api.DeleteSession "s9") Examples.two_sessions)
     = Examples.two_sessions.
Proof.
  assert (Hfk : Facts.roster_refers Examples.two_sessions).
  { intros p [<- | [<- | [<- | []]]]; reflexivity. }
  split; [reflexivity | split; [exact Hfk | split; [reflexivity |]]].
  apply (proj1 (proj2 (proj2 (failure_writes_nothing
                                (Api.DeleteSession "s9")
                                Examples.two_sessions)))
           eq_refl Hfk Errors.SessionNotFound eq_refl eq_refl).
Defined.

(** ** Submitting the table in the client *)

Section ClientSubmit.
Import Js App Client Desk.

Variable u : person.
Variables ids clock : nat -> string.

Lemma own_filtered (h : list entry) (e : entry) :
  own u e = true ->
  filter (own u) (filter (fun x => negb (own u x)) h ++ [e]) = [e].
Proof.
  intros He. rewrite filter_app. simpl. rewrite He.
  assert (E : filter (own u) (filter (fun x => negb (own u x)) h) = []).
  { induction h as [| x h IH]; simpl; [reflexivity |].
    destruct (own u x) eqn:Ex; simpl; [exact IH |].
    rewrite Ex. exact IH. }
  rewrite E. reflexivity.
Qed.

Lemma submit_rows_rows (rows : list table_row) :
  forall n,
    Forall2 (row_submitted u) rows (fst (submit_rows u ids clock n rows)).
Proof.
  induction rows as [| row rest IH]; intros n; simpl; [constructor |].
  destruct (tr_locked row) eqn:L; simpl.
  - destruct (hasContribution (tr_draft row)) eqn:H; simpl.
    + constructor; [| apply IH].
      unfold row_submitted, submitting. rewrite L, H. simpl.
      repeat split; auto.
      exists (ids n), (clock n). split; [reflexivity |].
      apply own_filtered. unfold own, newEntry. simpl.
      apply String.eqb_refl.
    + constructor; [| apply IH].
      unfold row_submitted, submitting. rewrite L, H. reflexivity.
  - constructor; [| apply IH].
    unfold row_submitted, submitting. rewrite L. reflexivity.
Qed.

Lemma submit_rows_count (rows : list table_row) :
  forall n,
    List.length (snd (submit_rows u ids clock n rows))
    = List.length (filter submitting rows).
Proof.
  induction rows as [| row rest IH]; intros n; simpl; [reflexivity |].
  unfold submitting at 1.
  destruct (tr_locked row); simpl; [| apply IH].
  destruct (hasContribution (tr_draft row)); simpl; [| apply IH].
  rewrite IH. reflexivity.
Qed.

Lemma row_submitted_id (row row' : table_row) :
  row_submitted u row row' -> tr_id row' = tr_id row.
Proof.
  unfold row_submitted. destruct (submitting row);
    [tauto | intros ->; reflexivity].
Qed.

Lemma find_submitted (id : string) (rows rows' : list table_row)
    (row : table_row) :
  Forall2 (row_submitted u) rows rows' ->
  find (fun r => tr_id r =? id) rows = Some row ->
  exists row', find (fun r => tr_id r =? id) rows' = Some row'
               /\ row_submitted u row row'.
Proof.
  induction 1 as [| x y l l' Hxy Hl IH]; simpl; [discriminate |].
  rewrite (row_submitted_id x y Hxy).
  destruct (tr_id x =? id); [| exact IH].
  intros H; injection H as <-. exists y. auto.
Qed.

Lemma merge_rows_merged (updatedRows existingRows : list table_row) :
  Forall2 (row_merged u) existingRows
    (merge_rows u updatedRows existingRows).
Proof.
  unfold merge_rows.
  induction existingRows as [| er l IH]; simpl; constructor; [| exact IH].
  unfold row_merged.
  destruct (find (fun r => tr_id r =? tr_id er) updatedRows) as [ur |];
    simpl.
  - repeat split. exists (filter (own u) (tr_history ur)).
    split; [reflexivity |]. apply forallb_forall. intros e He.
    apply filter_In in He. tauto.
  - repeat split. exists []. rewrite app_nil_r. split; reflexivity.
Qed.

End ClientSubmit.

(** X17. Submitting the table in the client.  For a signed-in user and a
    finalized structure, [handleSubmitTable] counts the rows that are
    locked and have a text in their draft.  With none it only reports that
    there is nothing to submit; without a current session it only reports
    a failure.  Otherwise it reports the count, marks the user as having
    submitted, removes the stored draft (when session and user ids are
    non-empty), and shows rows in which every row that took part has an
    empty draft, the entries of the other participants in their old order
    and exactly one entry of the user, the new one, in last place; rows that
    did not take part are unchanged.  In the stored metadata the user is
    among the submitted participants (added at the end if missing, the
    list otherwise unchanged), every stored row keeps its id, draft and
    entries and gets only entries of the user appended; the stored row of
    a row that took part holds one more entry of the user than before, so
    unlike the rows shown it keeps the user's earlier entries. *)
Theorem client_submit_replaces_own_entry :
  forall ids clock d u,
    Desk.dk_user d = Some u ->
    Desk.structureFinalized d = true ->
    let n := List.length (filter Desk.submitting (Desk.dk_rows d)) in
    let d' := Desk.handleSubmitTable ids clock d in
    (n = 0 ->
     d' = Desk.say
            "No contributions to submit. Fill in at least one cell before submitting."
            d)
    /\ (0 < n -> Desk.dk_currentSession d = None ->
        d' = Desk.say "Failed to submit contributions. Please try again." d)
    /\ (0 < n ->
        forall s, Desk.dk_currentSession d = Some s ->
          Desk.dk_message d' = Desk.submitted_message n
          /\ Desk.userHasSubmitted d' = true
          /\ Desk.dk_user d' = Desk.dk_user d
          /\ Desk.dk_currentSession d' = Desk.dk_currentSession d
          /\ Forall2 (Desk.row_submitted u) (Desk.dk_rows d)
               (Desk.dk_rows d')
          /\ (App.cs_id s <> EmptyString ->
              App.participantId u <> EmptyString ->
              Desk.draft_stored d' = false)
          /\ (Desk.dk_meta d = None ->
              Desk.dk_meta d' = None
              /\ Desk.submittedParticipantsCount d'
                 = Desk.submittedParticipantsCount d)
          /\ (forall m, Desk.dk_meta d = Some m ->
                let before :=
                  match Desk.submittedParticipants m with
                  | Some l => l
                  | None => []
                  end in
                let existing :=
                  match Desk.stored_rows m with
                  | Some l => l
                  | None => []
                  end in
                exists after rows',
                  Desk.dk_meta d'
                  = Some (Desk.mkStored (Some after) (Some rows'))
                  /\ In (App.participantId u) after
                  /\ Desk.submittedParticipantsCount d'
                     = List.length after
                  /\ (In (App.participantId u) before -> after = before)
                  /\ (~ In (App.participantId u) before ->
                      after = (before ++ [App.participantId u])%list)
                  /\ Forall2 (Desk.row_merged u) existing rows'
                  /\ (forall er row,
                        In er existing ->
                        find (fun r => Desk.tr_id r =? Desk.tr_id er)
                             (Desk.dk_rows d) = Some row ->
                        Desk.submitting row = true ->
                        exists er',
                          In er' rows'
                          /\ Desk.tr_id er' = Desk.tr_id er
                          /\ List.length
                               (filter (Desk.own u) (Desk.tr_history er'))
                             = S (List.length
                                    (filter (Desk.own u)
                                       (Desk.tr_history er)))))).
Proof.
  intros ids clock d u Hu Hf n d'.
  assert (Hd' : d' = Desk.handleSubmitTable ids clock d) by reflexivity.
  unfold Desk.handleSubmitTable in Hd'. rewrite Hu, Hf in Hd'.
  cbn [negb] in Hd'. cbv zeta in Hd'.
  rewrite (submit_rows_count u ids clock (Desk.dk_rows d) 0) in Hd'.
  fold n in Hd'.
  split; [| split].
  - intros Hn. rewrite Hn in Hd'. exact Hd'.
  - intros Hn Hs. apply Nat.ltb_lt in Hn. rewrite Hn, Hs in Hd'. exact Hd'.
  - intros Hn s Hs. apply Nat.ltb_lt in Hn. rewrite Hn, Hs in Hd'.
    pose proof (submit_rows_rows u ids clock (Desk.dk_rows d) 0) as Hrows.
    destruct (Desk.dk_meta d) as [m |] eqn:Hm; rewrite Hd'; simpl.
    + split; [reflexivity |]. split; [reflexivity |].
      split; [symmetry; exact Hu |]. split; [symmetry; exact Hs |].
      split; [exact Hrows |]. split.
      { intros H1 H2.
        destruct (Client.getDraftKey (App.cs_id s) (App.participantId u))
          eqn:K; [reflexivity |].
        apply getDraftKey_none in K. tauto. }
      split; [discriminate |].
      intros m0 Hm0. injection Hm0 as <-.
      do 2 eexists. split; [reflexivity |].
      set (before := match Desk.submittedParticipants m with
                     | Some l => l
                     | None => []
                     end).
      assert (Hinc : Js.array_includes before (App.participantId u) = true
                     <-> In (App.participantId u) before).
      { unfold Js.array_includes. rewrite existsb_exists. split.
        - intros [x [Hx E]]. apply String.eqb_eq in E. subst x. exact Hx.
        - intros H. exists (App.participantId u).
          split; [exact H | apply String.eqb_refl]. }
      destruct (Js.array_includes before (App.participantId u)) eqn:Inc.
      * split; [apply Hinc; reflexivity |]. split; [reflexivity |].
        split; [reflexivity |].
        split; [intros N; exfalso; apply N, Hinc; reflexivity |].
        split; [apply merge_rows_merged |].
        intros er row Her Hfind Hsub.
        destruct (find_submitted u (Desk.tr_id er) _ _ row Hrows Hfind)
          as [row' [Hfind' Hrow']].
        eexists. split; [apply in_map; exact Her |].
        cbv beta. rewrite Hfind'. simpl. split; [reflexivity |].
        rewrite filter_app, length_app.
        unfold Desk.row_submitted in Hrow'. rewrite Hsub in Hrow'.
        destruct Hrow' as [_ [_ [_ [_ [_ [id [now [_ Hown]]]]]]]].
        assert (E : filter (Desk.own u) (filter (Desk.own u)
                                           (Desk.tr_history row'))
                    = filter (Desk.own u) (Desk.tr_history row')).
        { clear. induction (Desk.tr_history row') as [| x l IH]; simpl;
            [reflexivity |].
          destruct (Desk.own u x) eqn:Ex; simpl; rewrite ?Ex, IH;
            reflexivity. }
        rewrite E, Hown. simpl. lia.
      * split; [apply in_or_app; right; left; reflexivity |].
        split; [reflexivity |].
        split; [intros H; apply Hinc in H; discriminate |].
        split; [reflexivity |].
        split; [apply merge_rows_merged |].
        intros er row Her Hfind Hsub.
        destruct (find_submitted u (Desk.tr_id er) _ _ row Hrows Hfind)
          as [row' [Hfind' Hrow']].
        eexists. split; [apply in_map; exact Her |].
        cbv beta. rewrite Hfind'. simpl. split; [reflexivity |].
        rewrite filter_app, length_app.
        unfold Desk.row_submitted in Hrow'. rewrite Hsub in Hrow'.
        destruct Hrow' as [_ [_ [_ [_ [_ [id [now [_ Hown]]]]]]]].
        assert (E : filter (Desk.own u) (filter (Desk.own u)
                                           (Desk.tr_history row'))
                    = filter (Desk.own u) (Desk.tr_history row')).
        { clear. induction (Desk.tr_history row') as [| x l IH]; simpl;
            [reflexivity |].
          destruct (Desk.own u x) eqn:Ex; simpl; rewrite ?Ex, IH;
            reflexivity. }
        rewrite E, Hown. simpl. lia.
    + split; [reflexivity |]. split; [reflexivity |].
      split; [symmetry; exact Hu |]. split; [symmetry; exact Hs |].
      split; [exact Hrows |]. split.
      { intros H1 H2.
        destruct (Client.getDraftKey (App.cs_id s) (App.participantId u))
          eqn:K; [reflexivity |].
        apply getDraftKey_none in K. tauto. }
      split; [intros _; split; reflexivity |].
      intros m0 Hm0. discriminate Hm0.
Qed.

Lemma client_submit_replaces_own_entry_witness :
  Desk.dk_user
    (Desk.a_desk "A"
       [Scenario.an_entry "h1" "u1@x.com" 0 "2024-01-01T00:02:00.000Z"]
       [Scenario.an_entry "h1" "u1@x.com" 0 "2024-01-01T00:02:00.000Z"])
  = Some Scenario.client_person_u1
  /\ Desk.structureFinalized
       (Desk.a_desk "A"
          [Scenario.an_entry "h1" "u1@x.com" 0 "2024-01-01T00:02:00.000Z"]
          [Scenario.an_entry "h1" "u1@x.com" 0 "2024-01-01T00:02:00.000Z"])
     = true
  /\ Desk.dk_message
       (Desk.handleSubmitTable Scenario.batch_ids Scenario.batch_clock
          (Desk.a_desk "A"
             [Scenario.an_entry "h1" "u1@x.com" 0 "2024-01-01T00:02:00.000Z"]
             [Scenario.an_entry "h1" "u1@x.com" 0
                "2024-01-01T00:02:00.000Z"]))
     = Desk.submitted_message 1
  /\ Desk.userHasSubmitted
       (Desk.handleSubmitTable Scenario.batch_ids Scenario.batch_clock
          (Desk.a_desk "A"
             [Scenario.an_entry "h1" "u1@x.com" 0 "2024-01-01T00:02:00.000Z"]
             [Scenario.an_entry "h1" "u1@x.com" 0
                "2024-01-01T00:02:00.000Z"]))
     = true.
Proof.
  split; [reflexivity | split; [reflexivity |]].
  destruct (proj2 (proj2
              (client_submit_replaces_own_entry Scenario.batch_ids
                 Scenario.batch_clock
                 (Desk.a_desk "A"
                    [Scenario.an_entry "h1" "u1@x.com" 0
                       "2024-01-01T00:02:00.000Z"]
                    [Scenario.an_entry "h1" "u1@x.com" 0
                       "2024-01-01T00:02:00.000Z"])
                 Scenario.client_person_u1 eq_refl eq_refl))
              (Nat.lt_0_1) Scenario.client_session eq_refl)
    as [H1 [H2 _]].
  split; [exact H1 | exact H2].
Defined.
